(** * Tabular preprocessing utilities of [modules/structured.py]

    A shallow embedding of the four transformations of the module
    ([convert_to_categorical], [numericalize_categories],
    [interpolate_missing_values], [extract_date_features]) together with the
    part of the data-frame library they rely on, and the properties the
    specification states about them.

    Modelling conventions.
    - A data frame is an ordered association list from column names to typed
      columns.  The functions combine columns of one frame, row by row; the
      one operation that matches rows by their index labels, the join of
      [numericalize_categories], is also modelled on a frame that carries
      its row index (module [Indexed]), and shown to be the join by position
      when the index labels are distinct.
    - A missing entry ([NaN], [None], [NaT]) is [None]; the missing entry of a
      categorical column is the code [-1], as in the library.
    - Floating-point values are idealised as exact rationals ([Qc]):
      rounding, overflow and infinities are not modelled.  The properties
      say which column a median is the median of and where it is stored; of
      its value they use only that the median of no value is missing and
      that a median does not depend on the order of the rows.
    - A raised exception is [None] in the value-level functions, and an
      explicit failure in the store-level programs of the second part. *)

From Stdlib Require Import ZArith QArith Qcanon Ascii String.
From stdpp Require Import sorting numbers strings gmap list.

Set Warnings "-clear-no-such-hyp".

(** ** Columns and data frames *)

Inductive column : Type :=
  | Text (values : list (option string))
  | Int (values : list Z)
  | Float (values : list (option Qc))
  | Boolean (values : list bool)
  | Categorical (ordered : bool) (categories : list string) (codes : list Z)
  | Datetime (values : list (option Z)).

(** A data frame: its columns in order, by name. *)
Abbreviation table := (list (string * column)).

Definition col_length (c : column) : nat :=
  match c with
  | Text vs => length vs
  | Int vs => length vs
  | Float vs => length vs
  | Boolean vs => length vs
  | Categorical _ _ codes => length codes
  | Datetime vs => length vs
  end.

(** [pandas.api.types]: the dtype predicates the module branches on.  A
    boolean column counts as numeric, as in the library. *)
Definition is_string_dtype (c : column) : bool :=
  match c with Text _ => true | _ => false end.

Definition is_numeric_dtype (c : column) : bool :=
  match c with Int _ | Float _ | Boolean _ => true | _ => false end.

Definition is_categorical_dtype (c : column) : bool :=
  match c with Categorical _ _ _ => true | _ => false end.

Definition is_datetime64_dtype (c : column) : bool :=
  match c with Datetime _ => true | _ => false end.

(** [df.columns] *)
Definition columns (df : table) : list string := df.*1.

(** [df[name]]: a [KeyError] when the label is absent. *)
Fixpoint getitem (name : string) (df : table) : option column :=
  match df with
  | [] => None
  | (n, c) :: df' => if decide (n = name) then Some c else getitem name df'
  end.

(** [df[name] = c]: replaces the column in place when the label exists and
    appends a new last column otherwise. *)
Fixpoint setitem (name : string) (c : column) (df : table) : table :=
  match df with
  | [] => [(name, c)]
  | (n, c0) :: df' =>
      if decide (n = name) then (n, c) :: df' else (n, c0) :: setitem name c df'
  end.

(** [df.drop(labels, axis = 1)]: a [KeyError] when a label is absent. *)
Definition drop (labels : list string) (df : table) : option table :=
  if decide (Forall (λ l, l ∈ columns df) labels)
  then Some (filter (λ nc, nc.1 ∉ labels) df)
  else None.

(** [df.join(other)] on frames whose rows correspond by position, as the
    rows of two frames with one index of distinct labels do ([Indexed.join]
    is the join on an arbitrary index): a [ValueError] when the two frames
    share a column label. *)
Definition join (df other : table) : option table :=
  if decide (Forall (λ l, l ∉ columns df) (columns other))
  then Some (df ++ other)
  else None.

(** A column selector: the argument is absent, one name, or a list of
    names; every function normalises it to a list. *)
Inductive selector : Type :=
  | Unset
  | Name (s : string)
  | Names (l : list string).

Definition as_list (s : selector) : list string :=
  match s with
  | Unset => []
  | Name s => [s]
  | Names l => l
  end.

(** The [for feature in ...] loop of the four functions: the body updates
    the loop state and may raise. *)
Fixpoint for_each {S : Type} (body : S → string → option S)
    (features : list string) (s : S) : option S :=
  match features with
  | [] => Some s
  | feature :: rest => s' ← body s feature; for_each body rest s'
  end.

(** ** Categorical conversion *)

Fixpoint index_of (s : string) (l : list string) : option nat :=
  match l with
  | [] => None
  | x :: l' => if decide (x = s) then Some 0 else S <$> index_of s l'
  end.

Definition code_of (cats : list string) (v : option string) : Z :=
  match v with
  | None => (-1)%Z
  | Some s => from_option Z.of_nat (-1)%Z (index_of s cats)
  end.

(** [series.astype('category')] on a text column: the categories are the
    distinct non-missing values in sorted order, every entry becomes the
    position of its value among them, a missing entry the code [-1]. *)
Definition astype_category (c : column) : column :=
  match c with
  | Text vs =>
      let cats := merge_sort String.le (remove_dups (omap id vs)) in
      Categorical false cats (code_of cats <$> vs)
  | _ => c
  end.

(** [series.cat.as_ordered()] *)
Definition as_ordered (c : column) : column :=
  match c with
  | Categorical _ cats codes => Categorical true cats codes
  | _ => c
  end.

Definition categorical_step (ordinal skip : list string)
    (df : table) (feature : string) : option table :=
  if bool_decide (feature ∉ skip) then
    col ← getitem feature df;
    if is_string_dtype col then
      Some (setitem feature
              (if bool_decide (feature ∈ ordinal)
               then as_ordered (astype_category col)
               else astype_category col) df)
    else Some df
  else Some df.

Definition convert_to_categorical (data_frame : table)
    (ordinal_categorical_features drop_features skip_features : selector)
    : option table :=
  let df := data_frame in
  let ordinal_categorical_features := as_list ordinal_categorical_features in
  let drop_features := as_list drop_features in
  let skip_features := as_list skip_features in
  df ← drop drop_features df;
  for_each (categorical_step ordinal_categorical_features skip_features)
    (columns df) df.

(** ** Numericalization of categories *)

(** An entry of the category mapper: the code dictionary of a column
    replaced by codes, or the marker ['one-hot']. *)
Inductive mapping : Type :=
  | Coded (codes : gmap Z string)
  | OneHot.

(** [series.cat.categories] and [series.cat.codes] *)
Definition cat_categories (c : column) : list string :=
  match c with Categorical _ cats _ => cats | _ => [] end.

Definition cat_codes (c : column) : list Z :=
  match c with Categorical _ _ codes => codes | _ => [] end.

(** The integer width the library stores the codes in: the smallest of
    int8, int16, int32, int64 whose maximum exceeds the category count. *)
Definition codes_bits (ncats : nat) : Z :=
  if decide (Z.of_nat ncats < 127)%Z then 8
  else if decide (Z.of_nat ncats < 32767)%Z then 16
  else if decide (Z.of_nat ncats < 2147483647)%Z then 32
  else 64.

(** Two's-complement wrap-around of a signed integer of [bits] bits. *)
Definition wrap_signed (bits x : Z) : Z :=
  ((x + 2 ^ (bits - 1)) `mod` 2 ^ bits - 2 ^ (bits - 1))%Z.

(** [series.cat.codes + 1], computed in the width of the codes. *)
Definition codes_plus_one (c : column) : column :=
  Int (wrap_signed (codes_bits (length (cat_categories c))) ∘ Z.succ
         <$> cat_codes c).

(** [dict(enumerate(categories))] *)
Definition enumerate (cats : list string) : gmap Z string := map_seqZ 0 cats.

Definition indicator (k : nat) (codes : list Z) : list Z :=
  (λ c, if decide (c = Z.of_nat k) then 1%Z else 0%Z) <$> codes.

(** [pd.get_dummies(series, prefix = prefix)] on a categorical column: one
    0/1 column per category, in the order of the categories; a missing
    entry is 0 in every one of them. *)
Definition get_dummies (c : column) (prefix : string) : table :=
  imap (λ k cat, (prefix +:+ "_" +:+ cat, Int (indicator k (cat_codes c))))
    (cat_categories c).

Definition numericalize_step (max_categories : Z) (skip : list string)
    (st : table * gmap string mapping) (feature : string)
    : option (table * gmap string mapping) :=
  let '(df, category_mapper) := st in
  if bool_decide (feature ∉ skip) then
    col ← getitem feature df;
    if is_categorical_dtype col then
      if decide (max_categories < Z.of_nat (length (cat_categories col)))%Z
      then
        let category_mapper :=
          <[feature := Coded (enumerate (cat_categories col))]> category_mapper in
        Some (setitem feature (codes_plus_one col) df, category_mapper)
      else
        let one_hot := get_dummies col feature in
        df ← drop [feature] df;
        df ← join df one_hot;
        Some (df, <[feature := OneHot]> category_mapper)
    else Some st
  else Some st.

Definition numericalize_categories (data_frame : table) (max_categories : Z)
    (skip_features : selector) : option (table * gmap string mapping) :=
  let df := data_frame in
  let skip_features := as_list skip_features in
  for_each (numericalize_step max_categories skip_features) (columns df) (df, ∅).

(** ** Interpolation of missing values *)

(** [series.isnull()] *)
Definition isnull (c : column) : column :=
  Boolean
    match c with
    | Text vs => (λ v, bool_decide (v = None)) <$> vs
    | Int vs => (λ _, false) <$> vs
    | Float vs => (λ v, bool_decide (v = None)) <$> vs
    | Boolean vs => (λ _, false) <$> vs
    | Categorical _ _ codes => (λ c, bool_decide (c = (-1)%Z)) <$> codes
    | Datetime vs => (λ v, bool_decide (v = None)) <$> vs
    end.

(** The entries of a numeric column as numbers, [None] where missing. *)
Definition numeric_values (c : column) : list (option Qc) :=
  match c with
  | Int vs => (λ z, Some (Qc_of_Z z)) <$> vs
  | Float vs => vs
  | Boolean vs => (λ b : bool, Some (if b then 1%Qc else 0%Qc)) <$> vs
  | _ => []
  end.

(** The median of a list of numbers: the middle element of the sorted list,
    or the mean of the two middle elements; undefined on the empty list. *)
Definition median_of (xs : list Qc) : option Qc :=
  let s := merge_sort Qcle xs in
  let n := length s in
  if decide (n = 0) then None
  else if Nat.odd n then s !! (n / 2)
  else a ← s !! (n / 2 - 1); b ← s !! (n / 2); Some ((a + b) / 2)%Qc.

(** [series.median()]: the median of the non-missing entries, [NaN] when
    there is none. *)
Definition median (c : column) : option Qc :=
  median_of (omap id (numeric_values c)).

(** [series.fillna(value = v)]: only a float column has missing entries. *)
Definition fillna (value : option Qc) (c : column) : column :=
  match c with
  | Float vs => Float ((λ v, match v with Some x => Some x | None => value end) <$> vs)
  | _ => c
  end.

Definition interpolate_step (skip : list string)
    (st : table * gmap string (option Qc)) (feature : string)
    : option (table * gmap string (option Qc)) :=
  let '(df, numeric_mapper) := st in
  if bool_decide (feature ∉ skip) then
    col ← getitem feature df;
    if is_numeric_dtype col then
      let df := setitem (feature +:+ "_missing") (isnull col) df in
      col ← getitem feature df;
      let df := setitem feature (fillna (median col) col) df in
      col ← getitem feature df;
      Some (df, <[feature := median col]> numeric_mapper)
    else Some st
  else Some st.

Definition interpolate_missing_values (data_frame : table)
    (skip_features : selector) : option (table * gmap string (option Qc)) :=
  let df := data_frame in
  let skip_features := as_list skip_features in
  for_each (interpolate_step skip_features) (columns df) (df, ∅).

(** ** Extraction of date features *)

Definition newline : string := String "010"%char "".

(** Whether the pattern [[Dd]ate$] matches at the start of [s], and the
    text left after the match: [$] matches at the end of the string and
    just before a newline that ends the string, so the match is the whole
    of [s] or all of it but a last newline. *)
Definition match_date (s : string) : option string :=
  if decide (s = "Date" ∨ s = "date") then Some ""
  else if decide (s = "Date" +:+ newline ∨ s = "date" +:+ newline)
       then Some newline
       else None.

(** [re.sub('[Dd]ate$', '', s)]: the scan moves right one character at a
    time; after a match only the end of the string is left. *)
Fixpoint re_sub_date (s : string) : string :=
  match match_date s with
  | Some rest => rest
  | None =>
      match s with
      | "" => ""
      | String c s' => String c (re_sub_date s')
      end
  end.

Definition base_attrs : list string :=
  ["year"; "month"; "week"; "day";
   "dayofweek"; "dayofyear"; "is_month_end"; "is_month_start";
   "is_quarter_end"; "is_quarter_start"; "is_year_end"; "is_year_start"].

Definition time_attrs : list string := ["hour"; "minute"; "second"].

Definition attrs_of (time : bool) : list string :=
  if time then base_attrs ++ time_attrs else base_attrs.

Section DateFeatures.
(** The calendar of the library is a parameter: the parser of the
    coercion to timestamps (a failure raises), the integer fields and the
    boolean flags of a timestamp. *)
Variable parse_datetime : string → option Z.
Variable dt_field : string → Z → Z.
Variable dt_flag : string → Z → bool.

(** [series.astype(np.datetime64)], reached only for a column that is not
    a timestamp column: text is parsed entry by entry, a missing entry
    becomes [NaT]; the library refuses the other kinds. *)
Definition astype_datetime64 (c : column) : option column :=
  match c with
  | Text vs =>
      Datetime <$> mapM (λ v, match v with
                              | None => Some None
                              | Some s => Some <$> parse_datetime s
                              end) vs
  | _ => None
  end.

Definition is_flag (attr : string) : bool :=
  bool_decide (attr ∈ ["is_month_end"; "is_month_start"; "is_quarter_end";
                       "is_quarter_start"; "is_year_end"; "is_year_start"]).

(** [getattr(series.dt, attr)]: an [AttributeError] on a column that holds
    no timestamps.  A flag is false at [NaT]; a field column with a [NaT]
    is a float column missing there. *)
Definition dt_accessor (attr : string) (c : column) : option column :=
  match c with
  | Datetime vs =>
      Some
        (if is_flag attr then
           Boolean ((λ v, from_option (dt_flag attr) false v) <$> vs)
         else
           match mapM (λ v : option Z, v) vs with
           | Some ts => Int (dt_field attr <$> ts)
           | None =>
               Float ((λ v : option Z, Qc_of_Z ∘ dt_field attr <$> v) <$> vs)
           end)
  | _ => None
  end.

Definition attr_step (feature name : string) (df : table) (attr : string)
    : option table :=
  col ← getitem feature df;
  value ← dt_accessor attr col;
  Some (setitem (name +:+ "_" +:+ attr) value df).

Definition date_step (attrs : list string) (drop_column : bool)
    (df : table) (feature : string) : option table :=
  column ← getitem feature df;
  df ← (if is_datetime64_dtype column then Some df
        else col ← getitem feature df;
             col ← astype_datetime64 col;
             Some (setitem feature col df));
  let name := re_sub_date feature in
  df ← for_each (attr_step feature name) attrs df;
  if drop_column then drop [feature] df else Some df.

Definition extract_date_features (data_frame : table)
    (date_features : selector) (time drop_column : bool) : option table :=
  let df := data_frame in
  let attrs := attrs_of time in
  date_features ← match date_features with
                  | Unset => None
                  | _ => Some (as_list date_features)
                  end;
  for_each (date_step attrs drop_column) date_features df.
End DateFeatures.

(** ** Data frames as objects

    The functions above compute with frames as values.  The Python functions
    work on frame objects: [copy], [drop] and [join] build a new object,
    [df[name] = c] updates the object in place, and a local variable is
    rebound from one object to another.  The programs below follow the source
    statement by statement over a store of frame objects; a raised exception
    leaves the store as it is at that point. *)

Definition prog (A : Type) : Type := gmap nat table → gmap nat table * option A.

Definition run {A : Type} (p : prog A) (h : gmap nat table)
    : gmap nat table * option A := p h.

Definition prog_ret {A : Type} (a : A) : prog A := λ h, (h, Some a).

Definition prog_bind {A B : Type} (f : A → prog B) (p : prog A) : prog B :=
  λ h, match p h with
       | (h', Some a) => f a h'
       | (h', None) => (h', None)
       end.

Notation "x ⇐ p ;; q" := (prog_bind (λ x, q) p)
  (at level 100, p at next level, right associativity, only parsing).
Notation "p ;;; q" := (prog_bind (λ _, q) p)
  (at level 100, right associativity, only parsing).

(** An operation that only computes: it raises when the value-level
    operation does. *)
Definition lift {A : Type} (o : option A) : prog A := λ h, (h, o).

(** A new object, at a reference the store does not use yet. *)
Definition alloc (t : table) : prog nat :=
  λ h, let r := fresh (dom h) in (<[r := t]> h, Some r).

Definition load (r : nat) : prog table := λ h, (h, h !! r).

Definition update (r : nat) (t : table) : prog unit :=
  λ h, (<[r := t]> h, Some ()).

(** [df.copy()] *)
Definition copy_st (df : nat) : prog nat := t ⇐ load df;; alloc t.

(** [df.columns] *)
Definition columns_st (df : nat) : prog (list string) :=
  t ⇐ load df;; prog_ret (columns t).

(** [df[name]] *)
Definition getitem_st (name : string) (df : nat) : prog column :=
  t ⇐ load df;; lift (getitem name t).

(** [df[name] = c] *)
Definition setitem_st (name : string) (c : column) (df : nat) : prog unit :=
  t ⇐ load df;; update df (setitem name c t).

(** [df.drop(labels, axis = 1)] *)
Definition drop_st (labels : list string) (df : nat) : prog nat :=
  t ⇐ load df;; t' ⇐ lift (drop labels t);; alloc t'.

(** [df.join(other)] *)
Definition join_st (df other : nat) : prog nat :=
  t ⇐ load df;; o ⇐ load other;; t' ⇐ lift (join t o);; alloc t'.

(** [pd.get_dummies(series, prefix = prefix)] *)
Definition get_dummies_st (c : column) (prefix : string) : prog nat :=
  alloc (get_dummies c prefix).

Fixpoint for_each_st {S : Type} (body : S → string → prog S)
    (features : list string) (s : S) : prog S :=
  match features with
  | [] => prog_ret s
  | feature :: rest => s' ⇐ body s feature;; for_each_st body rest s'
  end.

Definition categorical_step_st (ordinal skip : list string)
    (df : nat) (feature : string) : prog nat :=
  if bool_decide (feature ∉ skip) then
    col ⇐ getitem_st feature df;;
    if is_string_dtype col then
      setitem_st feature
        (if bool_decide (feature ∈ ordinal)
         then as_ordered (astype_category col)
         else astype_category col) df;;;
      prog_ret df
    else prog_ret df
  else prog_ret df.

Definition convert_to_categorical_st (data_frame : nat)
    (ordinal_categorical_features drop_features skip_features : selector)
    : prog nat :=
  df ⇐ copy_st data_frame;;
  let ordinal_categorical_features := as_list ordinal_categorical_features in
  let drop_features := as_list drop_features in
  let skip_features := as_list skip_features in
  df ⇐ drop_st drop_features df;;
  features ⇐ columns_st df;;
  for_each_st (categorical_step_st ordinal_categorical_features skip_features)
    features df.

Definition numericalize_step_st (max_categories : Z) (skip : list string)
    (st : nat * gmap string mapping) (feature : string)
    : prog (nat * gmap string mapping) :=
  let '(df, category_mapper) := st in
  if bool_decide (feature ∉ skip) then
    col ⇐ getitem_st feature df;;
    if is_categorical_dtype col then
      if decide (max_categories < Z.of_nat (length (cat_categories col)))%Z
      then
        let category_mapper :=
          <[feature := Coded (enumerate (cat_categories col))]> category_mapper in
        setitem_st feature (codes_plus_one col) df;;;
        prog_ret (df, category_mapper)
      else
        one_hot ⇐ get_dummies_st col feature;;
        df ⇐ drop_st [feature] df;;
        df ⇐ join_st df one_hot;;
        prog_ret (df, <[feature := OneHot]> category_mapper)
    else prog_ret st
  else prog_ret st.

Definition numericalize_categories_st (data_frame : nat) (max_categories : Z)
    (skip_features : selector) : prog (nat * gmap string mapping) :=
  df ⇐ copy_st data_frame;;
  let skip_features := as_list skip_features in
  features ⇐ columns_st df;;
  for_each_st (numericalize_step_st max_categories skip_features)
    features (df, ∅).

Definition interpolate_step_st (skip : list string)
    (st : nat * gmap string (option Qc)) (feature : string)
    : prog (nat * gmap string (option Qc)) :=
  let '(df, numeric_mapper) := st in
  if bool_decide (feature ∉ skip) then
    col ⇐ getitem_st feature df;;
    if is_numeric_dtype col then
      setitem_st (feature +:+ "_missing") (isnull col) df;;;
      col ⇐ getitem_st feature df;;
      setitem_st feature (fillna (median col) col) df;;;
      col ⇐ getitem_st feature df;;
      prog_ret (df, <[feature := median col]> numeric_mapper)
    else prog_ret st
  else prog_ret st.

Definition interpolate_missing_values_st (data_frame : nat)
    (skip_features : selector) : prog (nat * gmap string (option Qc)) :=
  df ⇐ copy_st data_frame;;
  let skip_features := as_list skip_features in
  features ⇐ columns_st df;;
  for_each_st (interpolate_step_st skip_features) features (df, ∅).

Section DateFeaturesSt.
Variable parse_datetime : string → option Z.
Variable dt_field : string → Z → Z.
Variable dt_flag : string → Z → bool.

Definition attr_step_st (feature name : string) (df : nat) (attr : string)
    : prog nat :=
  col ⇐ getitem_st feature df;;
  value ⇐ lift (dt_accessor dt_field dt_flag attr col);;
  setitem_st (name +:+ "_" +:+ attr) value df;;;
  prog_ret df.

Definition date_step_st (attrs : list string) (drop_column : bool)
    (df : nat) (feature : string) : prog nat :=
  column ⇐ getitem_st feature df;;
  (if is_datetime64_dtype column then prog_ret ()
   else col ⇐ getitem_st feature df;;
        col ⇐ lift (astype_datetime64 parse_datetime col);;
        setitem_st feature col df);;;
  let name := re_sub_date feature in
  df ⇐ for_each_st (attr_step_st feature name) attrs df;;
  if drop_column then drop_st [feature] df else prog_ret df.

Definition extract_date_features_st (data_frame : nat)
    (date_features : selector) (time drop_column : bool) : prog nat :=
  df ⇐ copy_st data_frame;;
  let attrs := attrs_of time in
  date_features ⇐ lift match date_features with
                       | Unset => None
                       | _ => Some (as_list date_features)
                       end;;
  for_each_st (date_step_st attrs drop_column) date_features df.
End DateFeaturesSt.

(** ** Frames with a row index

    The functions above leave the row index of the frame out: they combine
    columns of one frame, whose rows are matched by position.  The one
    operation of the module that matches rows by their index labels is the
    [join] of the indicator columns in [numericalize_categories]; the
    definitions below follow that function on a frame that carries its
    index.  On a frame whose index labels are distinct they compute what
    the definitions above compute. *)

(** The entries of a list at the positions [σ], in the order of [σ]. *)
Definition permute {A : Type} (σ : list nat) (l : list A) : list A :=
  omap (λ i, l !! i) σ.

Definition permute_col (σ : list nat) (c : column) : column :=
  match c with
  | Text vs => Text (permute σ vs)
  | Int vs => Int (permute σ vs)
  | Float vs => Float (permute σ vs)
  | Boolean vs => Boolean (permute σ vs)
  | Categorical o cats codes => Categorical o cats (permute σ codes)
  | Datetime vs => Datetime (permute σ vs)
  end.

(** The frame with its rows in the order [σ]. *)
Definition permute_rows (σ : list nat) (df : table) : table :=
  (λ nc, (nc.1, permute_col σ nc.2)) <$> df.

(** The frame with its rows, and their index labels, in the order [σ]. *)
Definition permute_frame (σ : list nat) (fr : list Z * table)
    : list Z * table :=
  (permute σ fr.1, permute_rows σ fr.2).

Module Indexed.

(** The rows [df.join(other)] puts side by side when [other] carries the
    index of [df].  When the index labels are distinct, every row is matched
    with itself, in the order of the frame.  When a label occurs more than
    once, the library joins label by label, in increasing order of the
    labels: every row [i] of a label, in order, is matched with every row
    [j] of the same label, in order. *)
Definition join_rows (index : list Z) : list (nat * nat) :=
  if decide (NoDup index) then (λ i, (i, i)) <$> seq 0 (length index)
  else
    label ← merge_sort Z.le (remove_dups index);
    let rows := filter (λ j, index !! j = Some label) (seq 0 (length index)) in
    i ← rows; (λ j, (i, j)) <$> rows.

(** [df.join(other)] for a frame [other] that carries the index of [df],
    as the indicator frame of a column of [df] does: a [ValueError] when
    the two frames share a column label; otherwise the matched rows, under
    the index labels of the rows of [df]. *)
Definition join (index : list Z) (df other : table)
    : option (list Z * table) :=
  if decide (Forall (λ l, l ∉ columns df) (columns other)) then
    let rows := join_rows index in
    Some (permute rows.*1 index,
          permute_rows rows.*1 df ++ permute_rows rows.*2 other)
  else None.

Definition numericalize_step (max_categories : Z) (skip : list string)
    (st : (list Z * table) * gmap string mapping) (feature : string)
    : option ((list Z * table) * gmap string mapping) :=
  let '((index, df), category_mapper) := st in
  if bool_decide (feature ∉ skip) then
    col ← getitem feature df;
    if is_categorical_dtype col then
      if decide (max_categories < Z.of_nat (length (cat_categories col)))%Z
      then
        let category_mapper :=
          <[feature := Coded (enumerate (cat_categories col))]> category_mapper in
        Some ((index, setitem feature (codes_plus_one col) df), category_mapper)
      else
        let one_hot := get_dummies col feature in
        df ← drop [feature] df;
        df ← join index df one_hot;
        Some (df, <[feature := OneHot]> category_mapper)
    else Some st
  else Some st.

Definition numericalize_categories (data_frame : list Z * table)
    (max_categories : Z) (skip_features : selector)
    : option ((list Z * table) * gmap string mapping) :=
  let df := data_frame in
  let skip_features := as_list skip_features in
  for_each (numericalize_step max_categories skip_features)
    (columns df.2) (df, ∅).

End Indexed.

(** * Notions the properties are stated with

    ** Well-formed frames *)

(** A categorical column has distinct categories, fewer than the codes can
    count, and every code is [-1] or the position of a category. *)
Definition wf_column (c : column) : Prop :=
  match c with
  | Categorical _ cats codes =>
      NoDup cats ∧ (Z.of_nat (length cats) < 2 ^ 63)%Z ∧
      Forall (λ k, (-1 ≤ k < Z.of_nat (length cats))%Z) codes
  | _ => True
  end.

(** The labels of a frame are distinct and its columns well formed. *)
Definition wf_table (df : table) : Prop :=
  NoDup (columns df) ∧ Forall (λ nc, wf_column nc.2) df.

(** Every column of the frame has [n] rows. *)
Definition has_rows (n : nat) (df : table) : Prop :=
  Forall (λ nc, col_length nc.2 = n) df.

(** ** Categories *)

(** The category of every entry of a categorical column, [None] where the
    entry is missing. *)
Definition cat_values (c : column) : list (option string) :=
  (λ k, if decide (0 ≤ k)%Z then cat_categories c !! Z.to_nat k else None)
    <$> cat_codes c.

(** The order an ordered categorical column puts on its categories: the
    order of their positions.  An unordered column has none. *)
Definition cat_lt (c : column) (a b : string) : Prop :=
  match c with
  | Categorical true cats _ =>
      ∃ i j, cats !! i = Some a ∧ cats !! j = Some b ∧ i < j
  | _ => False
  end.

Definition strict_total_on (l : list string) (R : string → string → Prop) : Prop :=
  (∀ a, ¬ R a a) ∧
  (∀ a b c, R a b → R b c → R a c) ∧
  (∀ a b, a ∈ l → b ∈ l → a ≠ b → R a b ∨ R b a).

Definition zsum (l : list Z) : Z := foldr Z.add 0%Z l.

(** The sum, at row [i], of the indicator columns the output holds for the
    categories [cats] of the column [c]. *)
Definition one_hot_row_sum (out : table) (c : string) (cats : list string)
    (i : nat) : Z :=
  zsum ((λ cat, match getitem (c +:+ "_" +:+ cat) out with
                | Some (Int vs) => default 0%Z (vs !! i)
                | _ => 0%Z
                end) <$> cats).

(** ** Refinement of the frame values by the frame objects *)

(** The object [r] is the frame [t], and was allocated after the store [h0]
    the call started from. *)
Definition frame_at (h0 h : gmap nat table) (r : nat) (t : table) : Prop :=
  h !! r = Some t ∧ h0 !! r = None.

(** The program [p], run on [h], keeps the objects of [h0] as they are, and
    returns a state that represents [t'] when the value-level computation
    returns [t'], and raises when it raises. *)
Definition refines {S T : Type} (h0 : gmap nat table)
    (R : gmap nat table → S → T → Prop)
    (p : prog S) (o : option T) (h : gmap nat table) : Prop :=
  ∃ h', h0 ⊆ h' ∧
        match o with
        | Some t' => ∃ s', run p h = (h', Some s') ∧ R h' s' t'
        | None => run p h = (h', None)
        end.

(** After the program [p], run on [h], the object [r] still is the frame
    [t], and the object the program returns, if it returns, is one that [h]
    does not hold. *)
Definition leaves_input {A : Type} (p : prog A) (ref_of : A → nat)
    (h : gmap nat table) (r : nat) (t : table) : Prop :=
  (run p h).1 !! r = Some t ∧
  ∀ a, (run p h).2 = Some a →
       h !! ref_of a = None ∧ is_Some ((run p h).1 !! ref_of a).

(** ** Filled columns *)

(** The labels among [xs] whose columns the loop of
    [interpolate_missing_values] fills, visiting them in order: a label
    that is not skipped and whose column is numeric in the frame, or has
    become numeric because the indicator of a column filled before it was
    written under its label ([marked] holds the indicator labels written
    so far). *)
Fixpoint filled_labels (skip : list string) (df : table)
    (marked xs : list string) : list string :=
  match xs with
  | [] => []
  | x :: xs' =>
      if bool_decide (x ∉ skip)
         && (from_option is_numeric_dtype false (getitem x df)
             || bool_decide (x ∈ marked))
      then x :: filled_labels skip df ((x +:+ "_missing") :: marked) xs'
      else filled_labels skip df marked xs'
  end.

Definition filled_columns (skip : list string) (df : table) : list string :=
  filled_labels skip df [] (columns df).

(** ** Date columns *)

(** The column as the date extraction reads it: itself when it holds
    timestamps, else its coercion to timestamps. *)
Definition as_datetime64 (parse_datetime : string → option Z) (c : column)
    : option column :=
  if is_datetime64_dtype c then Some c else astype_datetime64 parse_datetime c.

(** ** Example frames *)

(** The text frame of the docstrings. *)
Definition docs_text : table :=
  [("col1", Int [1; 2; 3]%Z);
   ("col2", Text [Some "a"; Some "b"; Some "a"]);
   ("col3", Text [Some "Low"; Some "Medium"; Some "High"])].

(** The same frame after categorical conversion. *)
Definition docs_categorical : table :=
  [("col1", Int [1; 2; 3]%Z);
   ("col2", Categorical false ["a"; "b"] [0; 1; 0]%Z);
   ("col3", Categorical false ["High"; "Low"; "Medium"] [1; 2; 0]%Z)].

(** A categorical column whose second entry is missing. *)
Definition gaps_categorical : table :=
  [("c", Categorical false ["a"] [0; -1]%Z)].

(** The numeric frame of the docstring of [interpolate_missing_values]. *)
Definition docs_numeric : table :=
  [("col1", Float [Some 1%Qc; None; Some (Qc_of_Z 3)]);
   ("col2", Text [Some "a"; Some "b"; Some "a"]);
   ("col3", Float [None; Some (Q2Qc (5 # 2)); Some (Q2Qc (73 # 10))])].

(** Two numeric columns, the second named as the missing-value indicator
    of the first. *)
Definition clash_numeric : table :=
  [("x", Float [Some 1%Qc; None]);
   ("x_missing", Float [Some (Qc_of_Z 5); None])].

(** An example calendar: a timestamp counts days, the three dates of the
    docstring of [extract_date_features] parse to their day numbers, every
    field of a timestamp is the day number and no flag is set. *)
Definition example_parse (s : string) : option Z :=
  if decide (s = "3/11/2000") then Some 11027%Z
  else if decide (s = "3/12/2000") then Some 11028%Z
  else if decide (s = "3/13/2000") then Some 11029%Z
  else None.

Definition example_field (attr : string) (t : Z) : Z := t.

Definition example_flag (attr : string) (t : Z) : bool := false.

(** The frame of the docstring of [extract_date_features]. *)
Definition docs_dates : table :=
  [("A", Text [Some "3/11/2000"; Some "3/12/2000"; Some "3/13/2000"])].

Definition sale_dates : table :=
  [("SaleDate", Datetime [Some 11027%Z])].

Definition upper_dates : table :=
  [("SaleDATE", Datetime [Some 11027%Z])].

(** Two date columns, the first named as a derived label of the second. *)
Definition clash_dates : table :=
  [("x_year", Datetime [Some 11027%Z]); ("xdate", Datetime [Some 11028%Z])].

(** A categorical column next to a column labelled as one of its
    indicator columns. *)
Definition clash_categorical : table :=
  [("c", Categorical false ["a"] [0]%Z); ("c_a", Int [7]%Z)].


(** A text date column with an entry that is no date. *)
Definition bad_dates : table :=
  [("A", Text [Some "3/11/2000"; Some "soon"])].

(** Two date columns with the stem ["Sale"]. *)
Definition stem_dates : table :=
  [("Sale", Datetime [Some 11027%Z]); ("SaleDate", Datetime [Some 11028%Z])].

(** A frame with a column of each kind the four functions work on. *)
Definition mixed_frame : table :=
  [("col1", Float [Some 1%Qc; None; Some (Qc_of_Z 3)]);
   ("col2", Text [Some "a"; Some "b"; Some "a"]);
   ("col3", Categorical false ["High"; "Low"; "Medium"] [1; 2; 0]%Z);
   ("A", Text [Some "3/11/2000"; Some "3/12/2000"; Some "3/13/2000"])].

(** A categorical column and a column of integers, two rows. *)
Definition two_rows : table :=
  [("c", Categorical false ["a"; "b"] [0; 1]%Z); ("n", Int [10; 20]%Z)].

(** Two categorical columns, the first labelled as an indicator column of
    the second. *)
Definition clash_one_hot : table :=
  [("x_y", Categorical false ["a"] [0; 0]%Z);
   ("x", Categorical false ["y"] [0; -1]%Z)].

(** * Properties

    ** The docstring examples *)

Example convert_to_categorical_docs :
  convert_to_categorical docs_text Unset (Name "col1") (Name "col2")
  = Some [("col2", Text [Some "a"; Some "b"; Some "a"]);
          ("col3", Categorical false ["High"; "Low"; "Medium"] [1; 2; 0]%Z)].
Proof. reflexivity. Qed.

Example convert_to_categorical_docs_all :
  convert_to_categorical docs_text Unset Unset Unset = Some docs_categorical.
Proof. reflexivity. Qed.

Example numericalize_categories_docs :
  numericalize_categories docs_categorical 0 Unset
  = Some ([("col1", Int [1; 2; 3]%Z); ("col2", Int [1; 2; 1]%Z);
           ("col3", Int [2; 3; 1]%Z)],
          <["col3" := Coded (enumerate ["High"; "Low"; "Medium"])]>
            (<["col2" := Coded (enumerate ["a"; "b"])]> ∅)).
Proof. vm_compute. reflexivity. Qed.

Example numericalize_categories_docs_one_hot :
  numericalize_categories docs_categorical 3 Unset
  = Some ([("col1", Int [1; 2; 3]%Z);
           ("col2_a", Int [1; 0; 1]%Z); ("col2_b", Int [0; 1; 0]%Z);
           ("col3_High", Int [0; 0; 1]%Z); ("col3_Low", Int [1; 0; 0]%Z);
           ("col3_Medium", Int [0; 1; 0]%Z)],
          <["col3" := OneHot]> (<["col2" := OneHot]> ∅)).
Proof. vm_compute. reflexivity. Qed.

Example interpolate_missing_values_docs :
  fst <$> interpolate_missing_values docs_numeric Unset
  = Some [("col1", Float [Some 1%Qc; Some 2%Qc; Some (Qc_of_Z 3)]);
          ("col2", Text [Some "a"; Some "b"; Some "a"]);
          ("col3", Float [Some (Q2Qc (49 # 10)); Some (Q2Qc (5 # 2));
                          Some (Q2Qc (73 # 10))]);
          ("col1_missing", Boolean [false; true; false]);
          ("col3_missing", Boolean [true; false; false])].
Proof.
  vm_compute. do 2 f_equal.
  all: repeat (f_equal; try (apply Qc_is_canon; reflexivity)).
Qed.

Example extract_date_features_docs :
  columns <$> extract_date_features example_parse example_field example_flag
                docs_dates (Name "A") false true
  = Some ["A_year"; "A_month"; "A_week"; "A_day"; "A_dayofweek"; "A_dayofyear";
          "A_is_month_end"; "A_is_month_start"; "A_is_quarter_end";
          "A_is_quarter_start"; "A_is_year_end"; "A_is_year_start"].
Proof. reflexivity. Qed.

(** ** Data frame operations *)

Section table_lemmas.
Implicit Types (df : table) (c : column) (n m : string).

Lemma getitem_Some_elem df n c : getitem n df = Some c → (n, c) ∈ df.
Proof.
  induction df as [|[n0 c0] df IH]; simpl; [done|].
  case_decide; [intros [= ->]; subst; left | right; auto].
Qed.

Lemma getitem_is_Some df n : is_Some (getitem n df) ↔ n ∈ columns df.
Proof.
  unfold columns. induction df as [|[n0 c0] df IH]; simpl.
  - split; [intros [? [=]] | intros ?%elem_of_nil; done].
  - case_decide; subst.
    + split; [left | eauto].
    + rewrite IH, elem_of_cons. split; [by right|]. by intros [?|?].
Qed.

Lemma getitem_None df n : getitem n df = None ↔ n ∉ columns df.
Proof. by rewrite eq_None_not_Some, getitem_is_Some. Qed.

Lemma getitem_elem df n c : getitem n df = Some c → n ∈ columns df.
Proof. intros H. apply getitem_is_Some. eauto. Qed.

Lemma getitem_NoDup df n c :
  NoDup (columns df) → (n, c) ∈ df → getitem n df = Some c.
Proof.
  unfold columns. induction df as [|[n0 c0] df IH]; simpl.
  - intros _ ?%elem_of_nil. done.
  - intros [Hn Hnd]%NoDup_cons [[= -> ->]|Hin]%elem_of_cons.
    + by rewrite decide_True.
    + rewrite decide_False; [auto|].
      intros ->. apply Hn. apply list_elem_of_fmap. by exists (n, c).
Qed.

Lemma getitem_setitem_eq df n c : getitem n (setitem n c df) = Some c.
Proof.
  induction df as [|[n0 c0] df IH]; simpl.
  - by rewrite decide_True.
  - case_decide; simpl; [by rewrite decide_True|by rewrite decide_False].
Qed.

Lemma getitem_setitem_ne df n m c :
  n ≠ m → getitem m (setitem n c df) = getitem m df.
Proof.
  intros Hne. induction df as [|[n0 c0] df IH]; simpl.
  - by rewrite decide_False.
  - case_decide; simpl; subst; [by rewrite !decide_False|].
    case_decide; auto.
Qed.

Lemma columns_setitem_in df n c :
  n ∈ columns df → columns (setitem n c df) = columns df.
Proof.
  unfold columns. induction df as [|[n0 c0] df IH]; simpl.
  - intros ?%elem_of_nil. done.
  - case_decide; simpl; subst; [done|].
    intros [?|?]%elem_of_cons; [done|]. f_equal. auto.
Qed.

Lemma columns_setitem_notin df n c :
  n ∉ columns df → columns (setitem n c df) = columns df ++ [n].
Proof.
  unfold columns. induction df as [|[n0 c0] df IH]; simpl; [done|].
  intros [? ?]%not_elem_of_cons.
  rewrite decide_False by done. simpl. f_equal. auto.
Qed.

Lemma elem_of_columns_setitem df n m c :
  m ∈ columns (setitem n c df) ↔ m = n ∨ m ∈ columns df.
Proof.
  destruct (decide (n ∈ columns df)) as [Hin|Hin].
  - rewrite columns_setitem_in by done. naive_solver.
  - rewrite columns_setitem_notin, elem_of_app, list_elem_of_singleton by done.
    naive_solver.
Qed.

Lemma NoDup_columns_setitem df n c :
  NoDup (columns df) → NoDup (columns (setitem n c df)).
Proof.
  intros Hnd. destruct (decide (n ∈ columns df)) as [Hin|Hin].
  - by rewrite columns_setitem_in.
  - rewrite columns_setitem_notin by done.
    apply NoDup_app. split_and!; [done| |apply NoDup_singleton].
    intros x Hx ->%list_elem_of_singleton. done.
Qed.

Lemma elem_of_setitem df n c nc :
  nc ∈ setitem n c df → nc = (n, c) ∨ nc ∈ df.
Proof.
  induction df as [|[n0 c0] df IH]; simpl.
  - intros ->%list_elem_of_singleton. by left.
  - case_decide; subst; rewrite !elem_of_cons; naive_solver.
Qed.

Lemma drop_Some labels df df' :
  drop labels df = Some df' →
  df' = filter (λ nc, nc.1 ∉ labels) df ∧ Forall (λ l, l ∈ columns df) labels.
Proof. unfold drop. case_decide; naive_solver. Qed.

Lemma getitem_drop labels df df' n :
  drop labels df = Some df' →
  getitem n df' = if decide (n ∈ labels) then None else getitem n df.
Proof.
  intros [-> _]%drop_Some.
  induction df as [|[n0 c0] df IH]; [by case_decide|].
  rewrite filter_cons. simpl. destruct (decide (n0 ∉ labels)) as [HP|HP]; simpl.
  - repeat case_decide; subst; done.
  - rewrite IH. repeat case_decide; subst; done.
Qed.

Lemma columns_drop labels df df' :
  drop labels df = Some df' → columns df' = filter (λ x, x ∉ labels) (columns df).
Proof.
  intros [-> _]%drop_Some.
  unfold columns. induction df as [|[n0 c0] df IH]; [done|].
  rewrite fmap_cons, !filter_cons. simpl. case_decide; simpl; by f_equal.
Qed.

Lemma join_Some df other df' :
  join df other = Some df' →
  df' = df ++ other ∧ Forall (λ l, l ∉ columns df) (columns other).
Proof. unfold join. case_decide; naive_solver. Qed.

Lemma getitem_app df other n :
  getitem n (df ++ other) =
    match getitem n df with Some c => Some c | None => getitem n other end.
Proof.
  induction df as [|[n0 c0] df IH]; simpl; [done|]. by case_decide.
Qed.

Lemma columns_app df other : columns (df ++ other) = columns df ++ columns other.
Proof. unfold columns. apply fmap_app. Qed.
End table_lemmas.
(** ** Labels *)

Lemma string_length_app (s t : string) :
  String.length (s +:+ t) = String.length s + String.length t.
Proof. induction s as [|a s IH]; simpl; [done|]. by rewrite <-IH. Qed.

Lemma string_app_inj_r (s1 s2 t : string) : s1 +:+ t = s2 +:+ t → s1 = s2.
Proof.
  revert s2. induction s1 as [|a s1 IH]; intros [|b s2] Heq; [done| | |].
  - apply (f_equal String.length) in Heq.
    rewrite !string_length_app in Heq. simpl in Heq. lia.
  - apply (f_equal String.length) in Heq.
    rewrite !string_length_app in Heq. simpl in Heq. lia.
  - injection Heq as -> Heq. f_equal. by apply IH.
Qed.

Lemma string_app_neq (s t : string) : t ≠ "" → s ≠ s +:+ t.
Proof.
  intros Ht Heq. apply (f_equal String.length) in Heq.
  rewrite string_length_app in Heq. destruct t; [done|]. simpl in Heq. lia.
Qed.


(** ** The loop *)

Section for_each_lemmas.
Context {S : Type} (body : S → string → option S).

Lemma for_each_app xs ys s :
  for_each body (xs ++ ys) s = s' ← for_each body xs s; for_each body ys s'.
Proof.
  revert s. induction xs as [|x xs IH]; intros s; simpl; [done|].
  destruct (body s x); simpl; auto.
Qed.

(** A property every iteration preserves holds when the loop ends. *)
Lemma for_each_preserve (P : S → Prop) xs s s' :
  (∀ x s1 s2, x ∈ xs → P s1 → body s1 x = Some s2 → P s2) →
  P s → for_each body xs s = Some s' → P s'.
Proof.
  revert s. induction xs as [|x xs IH]; intros s Hstep HP; simpl.
  - by intros [= <-].
  - destruct (body s x) as [s1|] eqn:Hb; simpl; [|done].
    apply IH.
    + intros y ???. apply Hstep. by right.
    + eapply Hstep; [by left|done..].
Qed.

(** The loop reaches the iteration of every feature of the list. *)
Lemma for_each_visit c xs s s' :
  c ∈ xs → for_each body xs s = Some s' →
  ∃ pre post s1 s2,
    xs = pre ++ c :: post ∧
    for_each body pre s = Some s1 ∧ body s1 c = Some s2 ∧
    for_each body post s2 = Some s'.
Proof.
  intros (pre & post & ->)%list_elem_of_split Hrun.
  rewrite for_each_app in Hrun. simpl in Hrun.
  destruct (for_each body pre s) as [s1|] eqn:H1; simpl in Hrun; [|done].
  destruct (body s1 c) as [s2|] eqn:H2; simpl in Hrun; [|done].
  by exists pre, post, s1, s2.
Qed.

(** In a duplicate-free list the other iterations are of other
    features. *)
Lemma for_each_split c xs s s' :
  NoDup xs → c ∈ xs → for_each body xs s = Some s' →
  ∃ pre post s1 s2,
    xs = pre ++ c :: post ∧ (c ∉ pre) ∧ (c ∉ post) ∧
    for_each body pre s = Some s1 ∧ body s1 c = Some s2 ∧
    for_each body post s2 = Some s'.
Proof.
  intros Hnd Hc Hrun.
  destruct (for_each_visit c xs s s' Hc Hrun)
    as (pre & post & s1 & s2 & -> & H1 & H2 & H3).
  apply NoDup_app in Hnd as (_ & Hpre & [Hpost _]%NoDup_cons).
  exists pre, post, s1, s2. split_and!; try done.
  intros Hin. apply (Hpre c Hin). by left.
Qed.

(** The loop returns when no iteration raises. *)
Lemma for_each_total (P : S → Prop) xs s :
  (∀ x s1, x ∈ xs → P s1 → ∃ s2, body s1 x = Some s2 ∧ P s2) →
  P s → ∃ s', for_each body xs s = Some s' ∧ P s'.
Proof.
  revert s. induction xs as [|x xs IH]; intros s Hstep HP; simpl; [eauto|].
  destruct (Hstep x s) as (s1 & -> & HP1); [by left|done|]. simpl.
  apply IH; [|done]. intros y ???. apply Hstep; [by right|done].
Qed.

(** A property of the features still to be visited and the state: it
    holds of no feature and the final state when every iteration takes it
    from the features from its own on to the features after it. *)
Lemma for_each_pending (I : list string → S → Prop) xs s s' :
  (∀ x rest s1 s2, I (x :: rest) s1 → body s1 x = Some s2 → I rest s2) →
  I xs s → for_each body xs s = Some s' → I [] s'.
Proof.
  intros Hstep. revert s. induction xs as [|x xs IH]; intros s HI; simpl.
  - by intros [= <-].
  - destruct (body s x) as [s1|] eqn:Hx; simpl; [|done].
    apply IH. by eapply Hstep.
Qed.
End for_each_lemmas.

(** ** Numericalization of categories *)

Lemma wrap_signed_small bits x :
  (0 < bits)%Z → (- 2 ^ (bits - 1) ≤ x < 2 ^ (bits - 1))%Z →
  wrap_signed bits x = x.
Proof.
  intros Hbits Hx. unfold wrap_signed.
  assert (2 ^ bits = 2 * 2 ^ (bits - 1))%Z as Hpow.
  { rewrite <-Z.pow_succ_r by lia. f_equal. lia. }
  rewrite Z.mod_small by lia. lia.
Qed.

(** The codes of a well-formed column fit their width, also after the
    increment: the stored codes are the plain successors. *)
Lemma codes_plus_one_wf o cats codes :
  wf_column (Categorical o cats codes) →
  codes_plus_one (Categorical o cats codes) = Int (Z.succ <$> codes).
Proof.
  intros (_ & Hlen & Hcodes). unfold codes_plus_one. simpl. f_equal.
  apply Forall_fmap_ext_1. eapply Forall_impl; [exact Hcodes|].
  intros k Hk. simpl in *. apply wrap_signed_small; unfold codes_bits.
  - repeat case_decide; lia.
  - repeat case_decide.
    + change (2 ^ (8 - 1))%Z with 128%Z. lia.
    + change (2 ^ (16 - 1))%Z with 32768%Z. lia.
    + change (2 ^ (32 - 1))%Z with 2147483648%Z. lia.
    + change (64 - 1)%Z with 63%Z. lia.
Qed.

Lemma lookup_enumerate cats (k : Z) :
  enumerate cats !! k = if decide (0 ≤ k)%Z then cats !! Z.to_nat k else None.
Proof.
  unfold enumerate. rewrite lookup_map_seqZ.
  case_decide; [rewrite option_guard_True by lia|rewrite option_guard_False by lia];
    [by rewrite Z.sub_0_r|done].
Qed.

Section numericalize.
Context (max_categories : Z) (skip : list string).
Implicit Types (df : table) (m : gmap string mapping).

(** An iteration leaves the columns and mapper entries of the other
    features alone. *)
Lemma numericalize_step_getitem df m df' m' x c col :
  x ≠ c → getitem c df = Some col →
  numericalize_step max_categories skip (df, m) x = Some (df', m') →
  getitem c df' = Some col.
Proof.
  intros Hne Hc. unfold numericalize_step.
  case_bool_decide; [|by intros [= <- <-]].
  destruct (getitem x df) as [colx|]; simpl; [|done].
  destruct (is_categorical_dtype colx); [|by intros [= <- <-]].
  case_decide.
  - intros [= <- <-]. by rewrite getitem_setitem_ne.
  - destruct (drop [x] df) as [df1|] eqn:Hdrop; simpl; [|done].
    destruct (join df1 _) as [df2|] eqn:Hjoin; simpl; [|done].
    intros [= <- <-]. apply join_Some in Hjoin as [-> _].
    rewrite getitem_app, (getitem_drop _ _ _ _ Hdrop).
    rewrite decide_False, Hc; [done|]. by intros ->%list_elem_of_singleton.
Qed.

Lemma numericalize_step_mapper df m df' m' x c :
  x ≠ c →
  numericalize_step max_categories skip (df, m) x = Some (df', m') →
  m' !! c = m !! c.
Proof.
  intros Hne. unfold numericalize_step.
  case_bool_decide; [|by intros [= <- <-]].
  destruct (getitem x df) as [colx|]; simpl; [|done].
  destruct (is_categorical_dtype colx); [|by intros [= <- <-]].
  case_decide.
  - intros [= <- <-]. by rewrite lookup_insert_ne.
  - destruct (drop [x] df) as [df1|]; simpl; [|done].
    destruct (join df1 _) as [df2|]; simpl; [|done].
    intros [= <- <-]. by rewrite lookup_insert_ne.
Qed.

(** The labels after an iteration: those before, and the indicator
    labels of the feature. *)
Lemma numericalize_step_columns df m df' m' x n :
  numericalize_step max_categories skip (df, m) x = Some (df', m') →
  n ∈ columns df' → n ∈ columns df ∨ ∃ k, n = x +:+ "_" +:+ k.
Proof.
  unfold numericalize_step.
  case_bool_decide; [|intros [= <- <-]; by left].
  destruct (getitem x df) as [colx|] eqn:Hx; simpl; [|done].
  destruct (is_categorical_dtype colx); [|intros [= <- <-]; by left].
  case_decide.
  - intros [= <- <-]. rewrite columns_setitem_in; [by left|].
    by eapply getitem_elem.
  - destruct (drop [x] df) as [df1|] eqn:Hdrop; simpl; [|done].
    destruct (join df1 _) as [df2|] eqn:Hjoin; simpl; [|done].
    intros [= <- <-]. apply join_Some in Hjoin as [-> _].
    rewrite columns_app, elem_of_app, (columns_drop _ _ _ Hdrop).
    intros [[_ ?]%list_elem_of_filter|Hin]; [by left|right].
    unfold get_dummies, columns in Hin.
    apply list_elem_of_fmap in Hin as ([n' c'] & -> & Hin).
    apply list_elem_of_lookup in Hin as [i Hi].
    rewrite list_lookup_imap in Hi.
    destruct (cat_categories colx !! i) as [cat|]; simplify_eq/=. eauto.
Qed.

(** A label an iteration adds is an indicator label of the feature: the
    feature takes the one-hot branch and the label is made of one of its
    categories. *)
Lemma numericalize_step_new_label df m df' m' x n :
  numericalize_step max_categories skip (df, m) x = Some (df', m') →
  n ∈ columns df' →
  n ∈ columns df ∨
  ∃ colx k,
    getitem x df = Some colx ∧ is_categorical_dtype colx = true ∧ (x ∉ skip) ∧
    (Z.of_nat (length (cat_categories colx)) ≤ max_categories)%Z ∧
    k ∈ cat_categories colx ∧ n = x +:+ "_" +:+ k.
Proof.
  unfold numericalize_step.
  case_bool_decide; [|intros [= <- <-]; by left].
  destruct (getitem x df) as [colx|] eqn:Hx; simpl; [|done].
  destruct (is_categorical_dtype colx) eqn:Hcat; [|intros [= <- <-]; by left].
  case_decide.
  - intros [= <- <-]. rewrite columns_setitem_in; [by left|].
    by eapply getitem_elem.
  - destruct (drop [x] df) as [df1|] eqn:Hdrop; simpl; [|done].
    destruct (join df1 _) as [df2|] eqn:Hjoin; simpl; [|done].
    intros [= <- <-]. apply join_Some in Hjoin as [-> _].
    rewrite columns_app, elem_of_app, (columns_drop _ _ _ Hdrop).
    intros [[_ ?]%list_elem_of_filter|Hin]; [by left|right].
    unfold get_dummies, columns in Hin.
    apply list_elem_of_fmap in Hin as ([n' c'] & -> & Hin).
    apply list_elem_of_lookup in Hin as [i Hi].
    rewrite list_lookup_imap in Hi.
    destruct (cat_categories colx !! i) as [cat|] eqn:Hcati; simplify_eq/=.
    exists colx, cat. split_and!; [done..|lia| |done].
    by eapply list_elem_of_lookup_2.
Qed.

(** The features still to be visited are columns of the frame. *)
Lemma numericalize_step_pending df m df' m' x c :
  x ≠ c → c ∈ columns df →
  numericalize_step max_categories skip (df, m) x = Some (df', m') →
  c ∈ columns df'.
Proof.
  intros Hne [col Hc]%getitem_is_Some Hstep.
  eapply getitem_elem, numericalize_step_getitem; eauto.
Qed.
End numericalize.

Lemma wf_table_column df c col :
  wf_table df → getitem c df = Some col → wf_column col.
Proof.
  intros [_ Hwf] Hc%getitem_Some_elem.
  rewrite Forall_forall in Hwf. apply (Hwf _ Hc).
Qed.

(** A column that takes the codes branch holds its incremented codes when
    the function returns, and the mapper holds its code dictionary. *)
Lemma numericalize_codes_run df max_categories skip_features out mapper c col :
  NoDup (columns df) →
  getitem c df = Some col → is_categorical_dtype col = true →
  c ∉ as_list skip_features →
  (max_categories < Z.of_nat (length (cat_categories col)))%Z →
  numericalize_categories df max_categories skip_features = Some (out, mapper) →
  getitem c out = Some (codes_plus_one col) ∧
  mapper !! c = Some (Coded (enumerate (cat_categories col))).
Proof.
  intros Hnd Hc Hcat Hskip Hmax Hrun. unfold numericalize_categories in Hrun.
  apply for_each_split with (c := c) in Hrun
      as (pre & post & [df1 m1] & [df2 m2] & Hcols & Hpre & Hpost & H1 & H2 & H3);
    [|done|by eapply getitem_elem].
  assert (getitem c df1 = Some col) as Hc1.
  { revert H1. apply (for_each_preserve _ (λ s, getitem c s.1 = Some col)); [|done].
    intros x [dfa ma] [dfb mb] Hx Ha Hstep. simpl in *.
    eapply numericalize_step_getitem; [|done..]. by intros ->. }
  unfold numericalize_step in H2.
  rewrite bool_decide_eq_true_2 in H2 by done.
  rewrite Hc1 in H2. simpl in H2. rewrite Hcat, decide_True in H2 by done.
  injection H2 as <- <-.
  revert H3.
  apply (for_each_preserve _
    (λ s, getitem c s.1 = Some (codes_plus_one col) ∧
          s.2 !! c = Some (Coded (enumerate (cat_categories col))))).
  - intros x [dfa ma] [dfb mb] Hx [Ha Hm] Hstep. simpl in *.
    assert (x ≠ c) by by intros ->. split.
    + by eapply numericalize_step_getitem.
    + by erewrite numericalize_step_mapper.
  - simpl. by rewrite getitem_setitem_eq, lookup_insert_eq.
Qed.



Ltac solve_wf_table :=
  split; [by apply (bool_decide_unpack _); vm_compute
         |repeat first [apply Forall_nil_2 | apply Forall_cons_2];
            first [exact I
                  |split_and!; [by apply (bool_decide_unpack _); vm_compute
                               |by vm_compute
                               |by apply (bool_decide_unpack _); vm_compute]]].




(** *** The one-hot branch *)

Lemma columns_get_dummies col prefix :
  columns (get_dummies col prefix)
  = (λ cat, prefix +:+ "_" +:+ cat) <$> cat_categories col.
Proof.
  unfold columns, get_dummies. rewrite fmap_imap.
  rewrite <-imap_const. by apply imap_ext.
Qed.

Lemma getitem_get_dummies col prefix k cat :
  NoDup (cat_categories col) → cat_categories col !! k = Some cat →
  getitem (prefix +:+ "_" +:+ cat) (get_dummies col prefix)
  = Some (Int (indicator k (cat_codes col))).
Proof.
  intros Hnd Hk. apply getitem_NoDup.
  - rewrite columns_get_dummies. apply NoDup_fmap_2; [|done].
    intros x y Hxy. by do 2 apply String.app_inj in Hxy.
  - unfold get_dummies.
    by apply (elem_of_lookup_imap_2
      (λ k cat, (prefix +:+ "_" +:+ cat, Int (indicator k (cat_codes col))))).
Qed.

Lemma zsum_indicator (code : Z) (s n : nat) :
  zsum ((λ k, if decide (code = Z.of_nat k) then 1%Z else 0%Z) <$> seq s n)
  = if decide (Z.of_nat s ≤ code < Z.of_nat s + Z.of_nat n)%Z then 1%Z else 0%Z.
Proof.
  revert s. induction n as [|n IH]; intros s; simpl.
  - by rewrite decide_False by lia.
  - rewrite IH. repeat case_decide; lia.
Qed.

Lemma numericalize_one_hot_step max_categories skip df1 m1 df2 m2 c col :
  c ∉ skip → getitem c df1 = Some col → is_categorical_dtype col = true →
  (Z.of_nat (length (cat_categories col)) ≤ max_categories)%Z →
  numericalize_step max_categories skip (df1, m1) c = Some (df2, m2) →
  ∃ dfd, drop [c] df1 = Some dfd ∧ join dfd (get_dummies col c) = Some df2 ∧
         m2 = <[c := OneHot]> m1.
Proof.
  intros Hskip Hc Hcat Hmax. unfold numericalize_step.
  rewrite bool_decide_eq_true_2, Hc by done. simpl.
  rewrite Hcat, decide_False by lia.
  destruct (drop [c] df1) as [dfd|]; simpl; [|done].
  destruct (join dfd _) as [dfj|] eqn:Hj; simpl; [|done].
  intros [= <- <-]. eauto.
Qed.

(** What the one-hot branch leaves in the output for a column. *)
Lemma numericalize_one_hot_run df max_categories skip_features out mapper c col :
  NoDup (columns df) → NoDup (cat_categories col) →
  getitem c df = Some col → is_categorical_dtype col = true →
  c ∉ as_list skip_features →
  (Z.of_nat (length (cat_categories col)) ≤ max_categories)%Z →
  numericalize_categories df max_categories skip_features = Some (out, mapper) →
  (∀ k cat, cat_categories col !! k = Some cat →
     getitem (c +:+ "_" +:+ cat) out = Some (Int (indicator k (cat_codes col)))) ∧
  mapper !! c = Some OneHot ∧
  ((∀ c' col' k,
      getitem c' df = Some col' → is_categorical_dtype col' = true →
      c' ∉ as_list skip_features →
      (Z.of_nat (length (cat_categories col')) ≤ max_categories)%Z →
      k ∈ cat_categories col' → c ≠ c' +:+ "_" +:+ k) →
   c ∉ columns out).
Proof.
  intros Hnd Hndc Hc Hcat Hskip Hmax Hrun. unfold numericalize_categories in Hrun.
  apply for_each_split with (c := c) in Hrun
      as (pre & post & [df1 m1] & [df2 m2] & Hcols & Hpre & Hpost & H1 & H2 & H3);
    [|done|by eapply getitem_elem].
  rewrite Hcols in Hnd.
  apply NoDup_app in Hnd as (_ & Hdisj & [_ Hndpost]%NoDup_cons).
  assert (getitem c df1 = Some col ∧
          ∀ x, x ∈ post → getitem x df1 = getitem x df) as [Hc1 Hsame].
  { revert H1.
    apply (for_each_preserve _
      (λ s, getitem c s.1 = Some col ∧
            ∀ x, x ∈ post → getitem x s.1 = getitem x df)).
    - intros x [dfa ma] [dfb mb] Hx [Ha Hb] Hstep. simpl in *. split.
      + eapply numericalize_step_getitem; [|done..]. by intros ->.
      + intros y Hy. rewrite <- (Hb y Hy).
        assert (y ∈ columns df) as [coly Hcoly]%getitem_is_Some.
        { rewrite Hcols, elem_of_app. right. by right. }
        rewrite (Hb y Hy), Hcoly.
        eapply numericalize_step_getitem; [| |done].
        * intros ->. apply (Hdisj y Hx). by right.
        * by rewrite (Hb y Hy).
    - simpl. by split. }
  assert (∀ x, x ∈ post → x ∈ columns df1) as Hpend.
  { intros x Hx. apply getitem_is_Some. rewrite (Hsame x Hx).
    apply getitem_is_Some. rewrite Hcols, elem_of_app. right. by right. }
  destruct (numericalize_one_hot_step _ _ _ _ _ _ _ _ Hskip Hc1 Hcat Hmax H2)
    as (dfd & Hdrop & Hjoin & ->).
  apply join_Some in Hjoin as [-> Hfresh].
  rewrite columns_get_dummies, Forall_fmap, Forall_forall in Hfresh.
  assert (∀ x cat, x ∈ post → cat ∈ cat_categories col → x ≠ c +:+ "_" +:+ cat)
    as Hpost_fresh.
  { intros x cat Hx Hcatin Heq. subst x. apply (Hfresh cat Hcatin). simpl.
    rewrite (columns_drop _ _ _ Hdrop). apply list_elem_of_filter. split.
    - intros Heq%list_elem_of_singleton. rewrite Heq in Hx. by apply Hpost.
    - by apply Hpend. }
  split_and!.
  - intros k cat Hk. revert H3.
    apply (for_each_preserve _
      (λ s, getitem (c +:+ "_" +:+ cat) s.1
            = Some (Int (indicator k (cat_codes col))))).
    + intros x [dfa ma] [dfb mb] Hx Ha Hstep. simpl in *.
      eapply numericalize_step_getitem; [|done..].
      apply Hpost_fresh; [done|]. by eapply list_elem_of_lookup_2.
    + simpl. rewrite getitem_app.
      destruct (getitem _ dfd) as [c'|] eqn:Hd.
      * exfalso. apply (Hfresh cat); [by eapply list_elem_of_lookup_2|].
        by eapply getitem_elem.
      * by apply getitem_get_dummies.
  - revert H3.
    apply (for_each_preserve _ (λ s, s.2 !! c = Some OneHot)).
    + intros x [dfa ma] [dfb mb] Hx Ha Hstep. simpl in *.
      erewrite numericalize_step_mapper; [done| |done]. by intros ->.
    + simpl. by rewrite lookup_insert_eq.
  - intros Hname.
    pose (I := λ (rest : list string) (st : table * gmap string mapping),
      NoDup rest ∧ (∀ y, y ∈ rest → y ∈ post) ∧
      (∀ y, y ∈ rest → getitem y st.1 = getitem y df) ∧ c ∉ columns st.1).
    assert (I [] (out, mapper)) as (_ & _ & _ & ?); [|done].
    revert H3. apply (for_each_pending _ I).
    + intros x rest [dfa ma] [dfb mb] (Hndr & Hsub & Hget & Hnc) Hstep.
      apply NoDup_cons in Hndr as [Hxrest Hndr]. cbn [fst] in *.
      split_and!; [done|by intros y ?; apply Hsub; right| |].
      * intros y Hy. rewrite <- (Hget y) by by right.
        assert (is_Some (getitem y dfa)) as [coly Hcoly].
        { rewrite (Hget y) by by right. apply getitem_is_Some.
          rewrite Hcols, elem_of_app. right. right. apply Hsub. by right. }
        rewrite Hcoly. eapply numericalize_step_getitem; [|done..].
        by intros ->.
      * intros Hin.
        destruct (numericalize_step_new_label _ _ _ _ _ _ _ _ Hstep Hin)
          as [?|(colx & k & Hx & Hcatx & Hskipx & Hmaxx & Hk & Heq)]; [done|].
        rewrite (Hget x) in Hx by by left. by eapply Hname.
    + unfold I. cbn [fst]. split_and!; [done..| |].
      * intros y Hy. pose proof (Hsame y Hy) as Hy1. rewrite <- Hy1.
        rewrite getitem_app, (getitem_drop _ _ _ _ Hdrop).
        rewrite decide_False.
        2:{ intros Heq%list_elem_of_singleton. rewrite Heq in Hy.
            by apply Hpost. }
        destruct (getitem y df1) as [coly|] eqn:Hcoly; [done|].
        exfalso. apply getitem_None in Hcoly. by apply Hcoly, Hpend.
      * rewrite columns_app, elem_of_app, (columns_drop _ _ _ Hdrop).
        rewrite columns_get_dummies.
        intros [[Hn _]%list_elem_of_filter|(cat & Heq & _)%list_elem_of_fmap].
        -- apply Hn. by left.
        -- by apply (string_app_neq c ("_" +:+ cat)).
Qed.

(** *** The sorted values and the fill *)

Lemma merge_sort_sorted (xs : list Qc) : StronglySorted Qcle (merge_sort Qcle xs).
Proof. apply StronglySorted_merge_sort; apply _. Qed.


(** ** Interpolation of missing values *)

Lemma isnull_numeric col :
  is_numeric_dtype col = true →
  isnull col = Boolean ((λ v, bool_decide (v = None)) <$> numeric_values col).
Proof.
  destruct col; try done; intros _; unfold isnull; simpl; f_equal.
  all: rewrite <-list_fmap_compose; by apply list_fmap_ext.
Qed.

Lemma fillna_kept value col i x :
  numeric_values col !! i = Some (Some x) →
  numeric_values (fillna value col) !! i = Some (Some x).
Proof.
  destruct col; try done. simpl. rewrite list_lookup_fmap. by intros ->.
Qed.

Lemma fillna_filled value col i :
  numeric_values col !! i = Some None →
  numeric_values (fillna value col) !! i = Some value.
Proof.
  destruct col; try done; simpl; rewrite list_lookup_fmap.
  - by destruct (_ !! i).
  - by intros ->.
  - by destruct (_ !! i).
Qed.

Lemma fillna_boolean value b : fillna value (Boolean b) = Boolean b.
Proof. done. Qed.

Section interpolate.
Context (skip : list string).
Implicit Types (df : table) (m : gmap string (option Qc)).

(** One iteration, with the column read once: the fill value is the
    median of the column, the recorded value the median of the column after
    the fill. *)
Lemma interpolate_step_eq df m x :
  interpolate_step skip (df, m) x =
    if bool_decide (x ∉ skip) then
      match getitem x df with
      | None => None
      | Some col =>
          if is_numeric_dtype col then
            Some (setitem x (fillna (median col) col)
                    (setitem (x +:+ "_missing") (isnull col) df),
                  <[x := median (fillna (median col) col)]> m)
          else Some (df, m)
      end
    else Some (df, m).
Proof.
  unfold interpolate_step. case_bool_decide; [|done].
  destruct (getitem x df) as [col|] eqn:Hx; simpl; [|done].
  destruct (is_numeric_dtype col); [|done].
  rewrite getitem_setitem_ne, Hx by (symmetry; by apply string_app_neq).
  cbn [mbind option_bind]. rewrite getitem_setitem_eq.
  done.
Qed.

Lemma interpolate_step_getitem df m df' m' x c :
  x ≠ c → c ≠ x +:+ "_missing" →
  interpolate_step skip (df, m) x = Some (df', m') →
  getitem c df' = getitem c df.
Proof.
  intros Hne Hne'. rewrite interpolate_step_eq.
  case_bool_decide; [|by intros [= <- <-]].
  destruct (getitem x df) as [col|]; [|done].
  destruct (is_numeric_dtype col); intros [= <- <-]; [|done].
  by rewrite !getitem_setitem_ne.
Qed.

Lemma interpolate_step_mapper df m df' m' x c :
  x ≠ c → interpolate_step skip (df, m) x = Some (df', m') → m' !! c = m !! c.
Proof.
  intros Hne. rewrite interpolate_step_eq.
  case_bool_decide; [|by intros [= <- <-]].
  destruct (getitem x df) as [col|]; [|done].
  destruct (is_numeric_dtype col); intros [= <- <-]; [|done].
  by rewrite lookup_insert_ne.
Qed.

(** A boolean column survives every iteration but the one that writes an
    indicator under its name: its own iteration has nothing to fill. *)
Lemma interpolate_step_boolean df m df' m' x c b :
  c ≠ x +:+ "_missing" → getitem c df = Some (Boolean b) →
  interpolate_step skip (df, m) x = Some (df', m') →
  getitem c df' = Some (Boolean b).
Proof.
  intros Hne Hc. rewrite interpolate_step_eq.
  case_bool_decide; [|by intros [= <- <-]].
  destruct (getitem x df) as [col|] eqn:Hx; [|done].
  destruct (is_numeric_dtype col); intros [= <- <-]; [|done].
  destruct (decide (x = c)) as [->|Hxc].
  - rewrite getitem_setitem_eq. by simplify_eq.
  - by rewrite !getitem_setitem_ne.
Qed.

Lemma interpolate_step_total df m x :
  x ∈ columns df →
  ∃ df' m', interpolate_step skip (df, m) x = Some (df', m') ∧
            ∀ y, y ∈ columns df → y ∈ columns df'.
Proof.
  intros [col Hx]%getitem_is_Some. rewrite interpolate_step_eq, Hx.
  case_bool_decide; [|eauto]. destruct (is_numeric_dtype col); [|eauto].
  eexists _, _. split; [done|]. intros y Hy.
  rewrite !elem_of_columns_setitem. auto.
Qed.
End interpolate.

(** The function always returns. *)
Lemma interpolate_missing_values_total df skip_features :
  ∃ out mapper, interpolate_missing_values df skip_features = Some (out, mapper).
Proof.
  unfold interpolate_missing_values.
  destruct (for_each_total (interpolate_step (as_list skip_features))
              (λ s, ∀ y, y ∈ columns df → y ∈ columns s.1) (columns df) (df, ∅))
    as ([out mapper] & Hrun & _); [|done|eauto].
  intros x [df1 m1] Hx H1. simpl in H1.
  destruct (interpolate_step_total (as_list skip_features) df1 m1 x)
    as (df2 & m2 & Hstep & Hcols); [by apply H1|].
  exists (df2, m2). split; [done|]. simpl. auto.
Qed.
(** The iterations of the loop that change the state are those of the
    filled labels: a property of the labels still to be visited and the
    state holds when the loop ends if those iterations keep it. *)
Lemma interpolate_loop_filled skip df
    (I : list string → table * gmap string (option Qc) → Prop) out mapper :
  NoDup (columns df) →
  (∀ x rest s1 m1 s2 m2,
     x ∉ rest → x ∈ filled_columns skip df ∨ (s2, m2) = (s1, m1) →
     I (x :: rest) (s1, m1) →
     interpolate_step skip (s1, m1) x = Some (s2, m2) →
     I rest (s2, m2)) →
  I (columns df) (df, ∅) →
  for_each (interpolate_step skip) (columns df) (df, ∅) = Some (out, mapper) →
  I [] (out, mapper).
Proof.
  intros Hnd Hstep HI Hrun.
  pose (J := λ (rest : list string) (st : table * gmap string (option Qc)),
    I rest st ∧ NoDup rest ∧
    ∃ marked,
      (∀ x, x ∈ filled_labels skip df marked rest → x ∈ filled_columns skip df) ∧
      (∀ y, y ∈ rest →
         ∃ cy, getitem y st.1 = Some cy ∧
               is_numeric_dtype cy
               = from_option is_numeric_dtype false (getitem y df)
                 || bool_decide (y ∈ marked))).
  assert (J [] (out, mapper)) as [? _]; [|done].
  revert Hrun. apply (for_each_pending _ J).
  - intros x rest [s1 m1] [s2 m2] (HI1 & Hnd1 & marked & Hsub & Htrack) Hx.
    apply NoDup_cons in Hnd1 as [Hxrest Hnd1].
    destruct (Htrack x) as (cx & Hcx & Hnum); [by left|].
    cbn [fst] in Hcx. pose proof Hx as Hx'.
    rewrite interpolate_step_eq, Hcx in Hx.
    cbn [filled_labels] in Hsub.
    destruct (bool_decide (x ∉ skip)) eqn:Hskip; cbn [andb] in Hsub.
    + destruct (is_numeric_dtype cx) eqn:Hcxn.
      * rewrite <- Hnum in Hsub. cbn [orb] in Hsub.
        assert (I rest (s2, m2)) as HI2.
        { eapply (Hstep x); [done| |exact HI1|exact Hx'].
          left. apply Hsub. by left. }
        injection Hx as <- <-. split_and!; [done..|].
        exists ((x +:+ "_missing") :: marked). split.
        -- intros y Hy. apply Hsub. by right.
        -- intros y Hy. assert (y ≠ x) by by intros ->.
           cbn [fst]. rewrite getitem_setitem_ne by done.
           destruct (decide (y = x +:+ "_missing")) as [->|Hne].
           ++ rewrite getitem_setitem_eq. eexists. split; [done|].
              rewrite (bool_decide_eq_true_2 (_ ∈ _ :: _)) by by left.
              by rewrite orb_true_r.
           ++ rewrite getitem_setitem_ne by done.
              destruct (Htrack y) as (cy & Hcy & Hnumy); [by right|].
              exists cy. split; [done|]. rewrite Hnumy. f_equal.
              apply bool_decide_ext. rewrite elem_of_cons. naive_solver.
      * injection Hx as <- <-. rewrite <- Hnum in Hsub. cbn [orb] in Hsub.
        split_and!; [by eapply (Hstep x); [|right| |]|done|].
        exists marked. split; [done|].
        intros y Hy. apply Htrack. by right.
    + injection Hx as <- <-.
      split_and!; [by eapply (Hstep x); [|right| |]|done|].
      exists marked. split; [done|]. intros y Hy. apply Htrack. by right.
  - split_and!; [done..|]. exists []. split; [done|].
    intros y [cy Hcy]%getitem_is_Some. exists cy. split; [done|].
    cbn [fst]. by rewrite Hcy, orb_false_r.
Qed.

(** C3 (as amended): for a numeric column [c] that is not skipped and whose
    label is not the indicator label [{c'}_missing] of a column [c'] the
    function fills, the function returns a frame in which [{c}_missing] is
    the boolean column that is true exactly at the rows where the entry of
    [c] was missing; the entries of [c] that were not missing are unchanged;
    every missing entry is the median of the column; and the numeric mapper
    records for [c] the median of the column after the fill. *)
Theorem interpolate_fills_median df skip_features c col :
  NoDup (columns df) →
  getitem c df = Some col → is_numeric_dtype col = true →
  c ∉ as_list skip_features →
  (∀ c', c' ∈ filled_columns (as_list skip_features) df →
         c ≠ c' +:+ "_missing") →
  ∃ out mapper filled,
    interpolate_missing_values df skip_features = Some (out, mapper) ∧
    getitem (c +:+ "_missing") out
      = Some (Boolean ((λ v, bool_decide (v = None)) <$> numeric_values col)) ∧
    getitem c out = Some filled ∧
    (∀ i x, numeric_values col !! i = Some (Some x) →
            numeric_values filled !! i = Some (Some x)) ∧
    (∀ i, numeric_values col !! i = Some None →
          numeric_values filled !! i = Some (median col)) ∧
    mapper !! c = Some (median filled).
Proof.
  intros Hnd Hc Hnum Hskip Hname.
  destruct (interpolate_missing_values_total df skip_features)
    as (out & mapper & Hrun).
  exists out, mapper, (fillna (median col) col).
  split; [done|]. unfold interpolate_missing_values in Hrun. cbv zeta in Hrun.
  pose (before := λ st : table * gmap string (option Qc),
                    getitem c st.1 = Some col ∧ st.2 !! c = None).
  pose (after := λ st : table * gmap string (option Qc),
                   getitem (c +:+ "_missing") st.1 = Some (isnull col) ∧
                   getitem c st.1 = Some (fillna (median col) col) ∧
                   st.2 !! c = Some (median (fillna (median col) col))).
  assert (after (out, mapper)) as (Hflags & Hfilled & Hm).
  { pose (I := λ (rest : list string) st,
               if decide (c ∈ rest) then before st else after st).
    change (I [] (out, mapper)). revert Hrun.
    apply interpolate_loop_filled; [done| |].
    - intros x rest s1 m1 s2 m2 Hxrest Hx Hst Hstep. unfold I in *.
      destruct (decide (x = c)) as [->|Hxc].
      + rewrite decide_True in Hst by by left.
        rewrite decide_False by done. destruct Hst as [Hc1 _].
        cbn [fst snd] in *.
        rewrite interpolate_step_eq, bool_decide_eq_true_2, Hc1, Hnum
          in Hstep by done.
        injection Hstep as <- <-. unfold after. cbn [fst snd]. split_and!.
        * rewrite getitem_setitem_ne, getitem_setitem_eq; [done|].
          by apply string_app_neq.
        * by rewrite getitem_setitem_eq.
        * by rewrite lookup_insert_eq.
      + assert (I' : (if decide (c ∈ rest) then before (s1, m1)
                      else after (s1, m1))).
        { destruct (decide (c ∈ x :: rest)) as [Hin|Hnin];
            destruct (decide (c ∈ rest)) as [Hin'|Hnin']; try done.
          - exfalso. apply elem_of_cons in Hin as [?|?]; congruence.
          - exfalso. apply Hnin. by right. }
        clear Hst. destruct Hx as [Hx|[= <- <-]]; [|done].
        pose proof (Hname x Hx) as Hcx.
        destruct (decide (c ∈ rest)).
        * destruct I' as [Hc1 Hm1]. cbn [fst snd] in *. split; cbn [fst snd].
          -- by erewrite interpolate_step_getitem.
          -- by erewrite interpolate_step_mapper.
        * destruct I' as (Ha1 & Ha2 & Ha3). cbn [fst snd] in *.
          unfold after. cbn [fst snd]. split_and!.
          -- eapply interpolate_step_boolean; [|done..].
             by intros ?%string_app_inj_r.
          -- by erewrite interpolate_step_getitem.
          -- by erewrite interpolate_step_mapper.
    - unfold I. rewrite decide_True by by eapply getitem_elem.
      split; [done|apply lookup_empty]. }
  rewrite isnull_numeric in Hflags by done. split_and!; [done..| | |done].
  - intros i x. apply fillna_kept.
  - intros i. apply fillna_filled.
Qed.

Lemma interpolate_fills_median_witness :
  ∃ out mapper filled,
    interpolate_missing_values docs_numeric (Name "col1") = Some (out, mapper) ∧
    getitem ("col3" +:+ "_missing") out
      = Some (Boolean ((λ v, bool_decide (v = None)) <$>
                numeric_values (Float [None; Some (Q2Qc (5 # 2));
                                       Some (Q2Qc (73 # 10))]))) ∧
    getitem "col3" out = Some filled ∧
    (∀ i x, numeric_values (Float [None; Some (Q2Qc (5 # 2));
                                   Some (Q2Qc (73 # 10))]) !! i = Some (Some x) →
            numeric_values filled !! i = Some (Some x)) ∧
    (∀ i, numeric_values (Float [None; Some (Q2Qc (5 # 2));
                                 Some (Q2Qc (73 # 10))]) !! i = Some None →
          numeric_values filled !! i
          = Some (median (Float [None; Some (Q2Qc (5 # 2));
                                 Some (Q2Qc (73 # 10))]))) ∧
    mapper !! "col3" = Some (median filled).
Proof.
  apply (interpolate_fills_median docs_numeric (Name "col1") "col3").
  - by apply (bool_decide_unpack _); vm_compute.
  - reflexivity.
  - reflexivity.
  - by apply (bool_decide_unpack _); vm_compute.
  - apply Forall_forall. by apply (bool_decide_unpack _); vm_compute.
Defined.

(** C3 as stated fails for a numeric column named as the indicator of
    another: the iteration of ["x"] overwrites the column ["x_missing"], so
    its entry 5 is not kept and its own indicator is false at the row where
    its entry was missing. *)
Lemma interpolate_indicator_clash :
  ∃ out mapper,
    getitem "x_missing" clash_numeric = Some (Float [Some (Qc_of_Z 5); None]) ∧
    interpolate_missing_values clash_numeric Unset = Some (out, mapper) ∧
    getitem "x_missing" out = Some (Boolean [false; true]) ∧
    getitem "x_missing_missing" out = Some (Boolean [false; false]).
Proof. eexists _, _. split_and!; vm_compute; reflexivity. Qed.

(** ** The stem of a date column *)

Lemma string_app_cons a (s t : string) : String a s +:+ t = String a (s +:+ t).
Proof. done. Qed.

Lemma string_app_assoc (s t u : string) : (s +:+ t) +:+ u = s +:+ t +:+ u.
Proof. induction s as [|a s IH]; [done|]. by rewrite !string_app_cons, IH. Qed.

Lemma string_app_nil_l (t : string) : "" +:+ t = t.
Proof. done. Qed.

Lemma re_sub_date_unfold s :
  re_sub_date s =
    match match_date s with
    | Some rest => rest
    | None => match s with "" => "" | String c s' => String c (re_sub_date s') end
    end.
Proof. by destruct s. Qed.

Lemma match_date_Some s rest :
  match_date s = Some rest →
  ∃ sfx, (sfx = "Date" ∨ sfx = "date") ∧ (rest = "" ∨ rest = newline) ∧
         s = sfx +:+ rest.
Proof.
  unfold match_date.
  destruct (decide (s = "Date" ∨ s = "date")) as [Hs|_];
    [|destruct (decide (s = "Date" +:+ newline ∨ s = "date" +:+ newline))
        as [Hs|_]]; intros [= <-].
  - exists s. split_and!; [done|by left|]. by destruct Hs as [-> | ->].
  - destruct Hs as [-> | ->]; [exists "Date"|exists "date"]; split_and!; auto.
Qed.

(** The substitution either leaves the name whole or cuts ["Date"] or
    ["date"] out of its end, before a last newline if there is one. *)
Lemma re_sub_date_shape s :
  re_sub_date s = s ∨
  ∃ p sfx rest, (sfx = "Date" ∨ sfx = "date") ∧ (rest = "" ∨ rest = newline) ∧
                s = p +:+ sfx +:+ rest ∧ re_sub_date s = p +:+ rest.
Proof.
  induction s as [|c s IH]; [by left|]. rewrite re_sub_date_unfold.
  destruct (match_date (String c s)) as [rest|] eqn:Hm.
  - right. apply match_date_Some in Hm as (sfx & Hsfx & Hrest & ->).
    exists "", sfx, rest. by rewrite !string_app_nil_l.
  - destruct IH as [->|(p & sfx & rest & Hsfx & Hrest & -> & ->)]; [by left|].
    right. exists (String c p), sfx, rest. by rewrite !string_app_cons.
Qed.

Lemma match_date_long c p sfx :
  sfx = "Date" ∨ sfx = "date" → match_date (String c (p +:+ sfx)) = None.
Proof.
  intros Hsfx. unfold match_date.
  rewrite !decide_False; [done| |].
  - intros Heq. destruct p as [|a p].
    + rewrite string_app_nil_l in Heq.
      destruct Hsfx as [-> | ->], Heq as [Heq|Heq]; vm_compute in Heq; done.
    + assert (String.length (String c (String a p +:+ sfx)) = 5) as Hlen.
      { by destruct Heq as [-> | ->]. }
      rewrite string_app_cons in Hlen. simpl in Hlen.
      rewrite string_length_app in Hlen.
      destruct Hsfx as [-> | ->]; simpl in Hlen; lia.
  - intros Heq.
    assert (String.length (String c (p +:+ sfx)) = 4) as Hlen.
    { by destruct Heq as [-> | ->]. }
    simpl in Hlen. rewrite string_length_app in Hlen.
    destruct Hsfx as [-> | ->]; simpl in Hlen; lia.
Qed.

Lemma re_sub_date_suffix p sfx :
  sfx = "Date" ∨ sfx = "date" → re_sub_date (p +:+ sfx) = p.
Proof.
  intros Hsfx. induction p as [|c p IH].
  - by destruct Hsfx as [-> | ->].
  - rewrite string_app_cons, re_sub_date_unfold, match_date_long by done.
    by rewrite IH.
Qed.

Lemma re_sub_date_other s :
  (∀ p sfx rest, sfx = "Date" ∨ sfx = "date" → rest = "" ∨ rest = newline →
                 s ≠ p +:+ sfx +:+ rest) →
  re_sub_date s = s.
Proof.
  intros Hs. destruct (re_sub_date_shape s)
    as [?|(p & sfx & rest & Hsfx & Hrest & Heq & _)]; [done|].
  by destruct (Hs p sfx rest).
Qed.

(** A derived label is never the label of its own date column. *)
Lemma derived_label_fresh feature attr :
  re_sub_date feature +:+ "_" +:+ attr ≠ feature.
Proof.
  destruct (re_sub_date_shape feature)
    as [->|(p & sfx & rest & Hsfx & Hrest & -> & ->)].
  - intros Heq. by eapply (string_app_neq feature ("_" +:+ attr)).
  - rewrite string_app_assoc. intros Heq%String.app_inj.
    destruct Hsfx as [-> | ->], Hrest as [-> | ->]; done.
Qed.

(** ** Extraction of date features *)

Lemma elem_of_attrs_of time attr :
  attr ∈ attrs_of time ↔ attr ∈ base_attrs ∨ (time = true ∧ attr ∈ time_attrs).
Proof.
  unfold attrs_of. destruct time.
  - rewrite elem_of_app. naive_solver.
  - naive_solver.
Qed.

Section date_features.
Context (parse_datetime : string → option Z).
Context (dt_field : string → Z → Z) (dt_flag : string → Z → bool).
Implicit Types (df : table) (attrs fs : list string).

Lemma attr_loop_columns feature name attrs df df' :
  for_each (attr_step dt_field dt_flag feature name) attrs df = Some df' →
  ∀ n, n ∈ columns df' ↔
       n ∈ columns df ∨ ∃ attr, attr ∈ attrs ∧ n = name +:+ "_" +:+ attr.
Proof.
  revert df. induction attrs as [|attr attrs IH]; intros df; simpl.
  - intros [= <-] n. split; [intros ?; by left|].
    intros [?|(a & Ha & _)]; [done|]. by apply elem_of_nil in Ha.
  - destruct (attr_step _ _ _ _ df attr) as [df1|] eqn:Hstep; simpl; [|done].
    unfold attr_step in Hstep.
    destruct (getitem feature df) as [col|]; simpl in Hstep; [|done].
    destruct (dt_accessor _ _ _ col) as [value|]; simpl in Hstep; [|done].
    injection Hstep as <-.
    intros Hrun n. rewrite (IH _ Hrun), elem_of_columns_setitem.
    split.
    + intros [[->|?]|(a & ? & ->)]; [right|by left|right].
      * exists attr. split; [by left|done].
      * exists a. split; [by right|done].
    + intros [?|(a & [->|?]%elem_of_cons & ->)]; [by left; right|by left; left|].
      right. by exists a.
Qed.

(** The labels after the iteration of a date column: those before and
    the derived ones, but for the column itself when it is dropped. *)
Lemma date_step_columns attrs drop_column df df' feature :
  date_step parse_datetime dt_field dt_flag attrs drop_column df feature
    = Some df' →
  feature ∈ columns df ∧
  ∀ n, n ∈ columns df' ↔
       (n ∈ columns df ∨
        ∃ attr, attr ∈ attrs ∧ n = re_sub_date feature +:+ "_" +:+ attr) ∧
       (drop_column = true → n ≠ feature).
Proof.
  unfold date_step.
  destruct (getitem feature df) as [column|] eqn:Hf; simpl; [|done].
  pose proof (getitem_elem _ _ _ Hf) as Hin. intros Hrun. split; [done|].
  revert Hrun.
  set (conv := if is_datetime64_dtype column then _ else _).
  destruct conv as [df1|] eqn:Hconv; simpl; [|done].
  assert (columns df1 = columns df) as Hcols1.
  { unfold conv in Hconv. destruct (is_datetime64_dtype column).
    - by injection Hconv as <-.
    - simpl in Hconv.
      destruct (astype_datetime64 _ column) as [col'|]; simpl in Hconv; [|done].
      injection Hconv as <-. by apply columns_setitem_in. }
  destruct (for_each _ attrs df1) as [df2|] eqn:Hloop; simpl; [|done].
  pose proof (attr_loop_columns _ _ _ _ _ Hloop) as Hcols2.
  destruct drop_column.
  - intros Hdrop n. rewrite (columns_drop _ _ _ Hdrop), list_elem_of_filter.
    rewrite Hcols2, Hcols1, list_elem_of_singleton. naive_solver.
  - intros [= <-] n. rewrite Hcols2, Hcols1. naive_solver.
Qed.

(** What the whole loop leaves, for date columns whose labels are not
    derived labels of one another. *)
Lemma date_loop_run attrs drop_column fs df out :
  (∀ f g attr, f ∈ fs → g ∈ fs → attr ∈ attrs →
               f ≠ re_sub_date g +:+ "_" +:+ attr) →
  for_each (date_step parse_datetime dt_field dt_flag attrs drop_column) fs df
    = Some out →
  (∀ f attr, f ∈ fs → attr ∈ attrs →
             re_sub_date f +:+ "_" +:+ attr ∈ columns out) ∧
  (∀ n, n ∈ columns out →
        n ∈ columns df ∨
        ∃ f attr, f ∈ fs ∧ attr ∈ attrs ∧ n = re_sub_date f +:+ "_" +:+ attr) ∧
  (∀ f, f ∈ fs → f ∈ columns out ↔ drop_column = false).
Proof.
  intros Hname Hrun. split_and!.
  - intros f attr Hf Hattr.
    destruct (for_each_visit _ f _ _ _ Hf Hrun)
      as (pre & post & df1 & df2 & Hsplit & _ & Hstep & Hpost).
    apply date_step_columns in Hstep as [_ Hstep]. revert Hpost.
    apply (for_each_preserve _
      (λ s, re_sub_date f +:+ "_" +:+ attr ∈ columns s)).
    + intros g dfa dfb Hg Ha [_ Hb]%date_step_columns.
      apply Hb. split; [by left|]. intros _ Heq.
      apply (Hname g f attr); [|done..].
      rewrite Hsplit, elem_of_app, elem_of_cons. auto.
    + apply Hstep. split; [right; eauto|]. intros _. apply derived_label_fresh.
  - intros n. revert Hrun.
    apply (for_each_preserve _
      (λ s, n ∈ columns s → n ∈ columns df ∨
            ∃ f attr, f ∈ fs ∧ attr ∈ attrs ∧
                      n = re_sub_date f +:+ "_" +:+ attr)); [|auto].
    intros g dfa dfb Hg Ha [_ Hb]%date_step_columns [[?|(a & ? & ->)] _]%Hb;
      [auto|right; eauto].
  - intros f Hf.
    destruct (for_each_visit _ f _ _ _ Hf Hrun)
      as (pre & post & df1 & df2 & Hsplit & _ & Hstep & Hpost).
    apply date_step_columns in Hstep as [Hin Hstep].
    destruct drop_column.
    + split; [|done]. intros Hout. exfalso. revert Hpost Hout.
      apply (for_each_preserve _ (λ s, f ∉ columns s)).
      * intros g dfa dfb Hg Ha [_ Hb]%date_step_columns
          [[?|(a & ? & Heq)] _]%Hb; [done|].
        apply (Hname f g a); [done| |done..].
        rewrite Hsplit, elem_of_app, elem_of_cons. auto.
      * intros [_ Hne]%Hstep. by apply Hne.
    + split; [done|]. intros _. revert Hpost.
      apply (for_each_preserve _ (λ s, f ∈ columns s)).
      * intros g dfa dfb Hg Ha [_ Hb]%date_step_columns.
        apply Hb. split; [by left|done].
      * apply Hstep. split; [by left|done].
Qed.

Lemma extract_date_features_run df date_features time drop_column out :
  (∀ f g attr, f ∈ as_list date_features → g ∈ as_list date_features →
               attr ∈ attrs_of time → f ≠ re_sub_date g +:+ "_" +:+ attr) →
  extract_date_features parse_datetime dt_field dt_flag
    df date_features time drop_column = Some out →
  (∀ f attr, f ∈ as_list date_features → attr ∈ attrs_of time →
             re_sub_date f +:+ "_" +:+ attr ∈ columns out) ∧
  (∀ n, n ∈ columns out →
        n ∈ columns df ∨
        ∃ f attr, f ∈ as_list date_features ∧ attr ∈ attrs_of time ∧
                  n = re_sub_date f +:+ "_" +:+ attr) ∧
  (∀ f, f ∈ as_list date_features → f ∈ columns out ↔ drop_column = false).
Proof.
  intros Hname Hrun. apply (date_loop_run (attrs_of time) drop_column); [done|].
  unfold extract_date_features in Hrun. by destruct date_features.
Qed.
End date_features.

(** C4 (as amended): the stem that prefixes the derived columns of a date
    column is its name without a trailing ["Date"] or ["date"] (only the
    case of the first letter is free); a name that does not end that way,
    such as one ending in ["DATE"], is its own stem; and the derived columns
    of every processed column are labelled [{stem}_{attribute}]. *)
Theorem date_stem_strips_suffix
    (parse_datetime : string → option Z)
    (dt_field : string → Z → Z) (dt_flag : string → Z → bool) :
  (∀ p, re_sub_date (p +:+ "Date") = p ∧ re_sub_date (p +:+ "date") = p) ∧
  (∀ s, (∀ p sfx rest, sfx = "Date" ∨ sfx = "date" → rest = "" ∨ rest = newline →
                       s ≠ p +:+ sfx +:+ rest) →
        re_sub_date s = s) ∧
  (∀ df date_features time drop_column out f attr,
     (∀ f g attr, f ∈ as_list date_features → g ∈ as_list date_features →
                  attr ∈ attrs_of time → f ≠ re_sub_date g +:+ "_" +:+ attr) →
     extract_date_features parse_datetime dt_field dt_flag
       df date_features time drop_column = Some out →
     f ∈ as_list date_features → attr ∈ attrs_of time →
     re_sub_date f +:+ "_" +:+ attr ∈ columns out).
Proof.
  split_and!.
  - intros p. split; apply re_sub_date_suffix; auto.
  - apply re_sub_date_other.
  - intros df date_features time drop_column out f attr Hname Hrun Hf Hattr.
    destruct (extract_date_features_run _ _ _ _ _ _ _ _ Hname Hrun) as [H _].
    by apply H.
Qed.

Lemma date_stem_strips_suffix_witness :
  re_sub_date ("Sale" +:+ "Date") = "Sale" ∧
  re_sub_date ("" +:+ "date") = "" ∧
  ∃ out,
    extract_date_features example_parse example_field example_flag
      sale_dates (Name "SaleDate") false true = Some out ∧
    re_sub_date "SaleDate" +:+ "_" +:+ "year" ∈ columns out.
Proof.
  destruct (date_stem_strips_suffix example_parse example_field example_flag)
    as (Hsfx & _ & Hcols).
  split_and!; [apply Hsfx..|].
  eexists. split; [vm_compute; reflexivity|].
  eapply (Hcols sale_dates (Name "SaleDate") false true).
  - intros f g attr ->%list_elem_of_singleton ->%list_elem_of_singleton _ Heq.
    by apply (derived_label_fresh "SaleDate" attr).
  - vm_compute; reflexivity.
  - by left.
  - by left.
Defined.

(** C4 as stated fails for the casing ["DATE"]: the name is its own stem
    and the derived columns are prefixed with all of it. *)
Lemma date_stem_upper_case :
  re_sub_date "SaleDATE" = "SaleDATE" ∧
  ∃ out,
    extract_date_features example_parse example_field example_flag
      upper_dates (Name "SaleDATE") false true = Some out ∧
    "SaleDATE_year" ∈ columns out ∧ "Sale_year" ∉ columns out.
Proof.
  split; [reflexivity|]. eexists. split; [vm_compute; reflexivity|].
  split; by apply (bool_decide_unpack _); vm_compute.
Qed.

(** C5 (as amended): when no processed label is a derived label
    [{stem}_{attribute}] of a processed column, the output holds, for every
    processed column, one column [{stem}_{attribute}] for each of the twelve
    calendar attributes, and for [hour], [minute] and [second] as well
    exactly when [time] is set; the labels of the output are labels of the
    input or such derived labels; and a processed column is in the output
    if and only if [drop] is not set. *)
Theorem extract_date_features_columns
    (parse_datetime : string → option Z)
    (dt_field : string → Z → Z) (dt_flag : string → Z → bool)
    df date_features time drop_column out :
  (∀ f g attr, f ∈ as_list date_features → g ∈ as_list date_features →
               attr ∈ attrs_of time → f ≠ re_sub_date g +:+ "_" +:+ attr) →
  extract_date_features parse_datetime dt_field dt_flag
    df date_features time drop_column = Some out →
  (∀ attr, attr ∈ attrs_of time ↔
           attr ∈ ["year"; "month"; "week"; "day"; "dayofweek"; "dayofyear";
                   "is_month_end"; "is_month_start"; "is_quarter_end";
                   "is_quarter_start"; "is_year_end"; "is_year_start"] ∨
           (time = true ∧ attr ∈ ["hour"; "minute"; "second"])) ∧
  (∀ f attr, f ∈ as_list date_features → attr ∈ attrs_of time →
             re_sub_date f +:+ "_" +:+ attr ∈ columns out) ∧
  (∀ n, n ∈ columns out →
        n ∈ columns df ∨
        ∃ f attr, f ∈ as_list date_features ∧ attr ∈ attrs_of time ∧
                  n = re_sub_date f +:+ "_" +:+ attr) ∧
  (∀ f, f ∈ as_list date_features → f ∈ columns out ↔ drop_column = false).
Proof.
  intros Hname Hrun. split; [apply elem_of_attrs_of|].
  apply (extract_date_features_run _ _ _ _ _ _ _ _ Hname Hrun).
Qed.

Lemma extract_date_features_columns_witness :
  ∃ out,
    extract_date_features example_parse example_field example_flag
      docs_dates (Name "A") false true = Some out ∧
    (∀ attr, attr ∈ attrs_of false ↔
             attr ∈ ["year"; "month"; "week"; "day"; "dayofweek"; "dayofyear";
                     "is_month_end"; "is_month_start"; "is_quarter_end";
                     "is_quarter_start"; "is_year_end"; "is_year_start"] ∨
             (false = true ∧ attr ∈ ["hour"; "minute"; "second"])) ∧
    (∀ f attr, f ∈ as_list (Name "A") → attr ∈ attrs_of false →
               re_sub_date f +:+ "_" +:+ attr ∈ columns out) ∧
    (∀ n, n ∈ columns out →
          n ∈ columns docs_dates ∨
          ∃ f attr, f ∈ as_list (Name "A") ∧ attr ∈ attrs_of false ∧
                    n = re_sub_date f +:+ "_" +:+ attr) ∧
    (∀ f, f ∈ as_list (Name "A") → f ∈ columns out ↔ true = false).
Proof.
  eexists. split; [vm_compute; reflexivity|].
  eapply (extract_date_features_columns example_parse example_field example_flag
            docs_dates (Name "A") false true).
  - intros f g attr ->%list_elem_of_singleton ->%list_elem_of_singleton _ Heq.
    by apply (derived_label_fresh "A" attr).
  - vm_compute; reflexivity.
Defined.

(** C5 as stated fails when a processed column is named as a derived label
    of a later one: with [drop] set, the label ["x_year"] is in the output,
    as the year of the column ["xdate"]. *)
Lemma extract_date_features_label_clash :
  ∃ out,
    extract_date_features example_parse example_field example_flag
      clash_dates (Names ["x_year"; "xdate"]) false true = Some out ∧
    "x_year" ∈ columns out ∧
    getitem "x_year" out = Some (Int [11028%Z]).
Proof.
  eexists. split; [vm_compute; reflexivity|].
  split; [by apply (bool_decide_unpack _); vm_compute|reflexivity].
Qed.

(** ** Categorical conversion *)

Lemma index_of_Some s l i : index_of s l = Some i → l !! i = Some s.
Proof.
  revert i. induction l as [|x l IH]; intros i; simpl; [done|].
  case_decide; [by intros [= <-]; subst|].
  destruct (index_of s l) as [j|]; simpl; [|done].
  intros [= <-]. by apply IH.
Qed.

Lemma index_of_elem s l : s ∈ l → is_Some (index_of s l).
Proof.
  induction l as [|x l IH]; simpl; [by intros ?%elem_of_nil|].
  case_decide; [eauto|]. intros [?|[j Hj]%IH]%elem_of_cons; [done|].
  rewrite Hj. eauto.
Qed.

(** The codes of a converted column decode to the text it was made of. *)
Lemma cat_values_code_of cats (vs : list (option string)) o :
  (∀ s, Some s ∈ vs → s ∈ cats) →
  cat_values (Categorical o cats (code_of cats <$> vs)) = vs.
Proof.
  intros Hin. unfold cat_values. simpl. rewrite <-list_fmap_compose.
  rewrite <-(list_fmap_id vs) at 2. apply Forall_fmap_ext_1, Forall_forall.
  intros [s|] Hs; simpl; [|done].
  destruct (index_of_elem s cats (Hin s Hs)) as [i Hi]. rewrite Hi. simpl.
  rewrite decide_True by lia. rewrite Nat2Z.id. by apply index_of_Some.
Qed.

Lemma astype_category_Text vs :
  ∃ cats codes,
    astype_category (Text vs) = Categorical false cats codes ∧
    NoDup cats ∧
    (∀ s, s ∈ cats ↔ Some s ∈ vs) ∧
    Sorted String.le cats ∧
    cat_values (Categorical false cats codes) = vs.
Proof.
  eexists _, _. split; [done|].
  set (cats := merge_sort String.le (remove_dups (omap id vs))).
  assert (∀ s, s ∈ cats ↔ Some s ∈ vs) as Hcats.
  { intros s. unfold cats.
    rewrite merge_sort_Permutation, elem_of_remove_dups, list_elem_of_omap.
    split; [by intros ([x|] & ? & [= ->])|]. intros ?. by exists (Some s). }
  split_and!; [|done| |].
  - unfold cats. rewrite merge_sort_Permutation. apply NoDup_remove_dups.
  - apply Sorted_merge_sort, _.
  - apply cat_values_code_of. intros s. apply Hcats.
Qed.

(** The positions of a duplicate-free list order its elements. *)
Lemma cat_lt_ordered cats codes :
  NoDup cats → strict_total_on cats (cat_lt (Categorical true cats codes)).
Proof.
  intros Hnd. split_and!.
  - intros a (i & j & Hi & Hj & Hlt).
    pose proof (NoDup_lookup _ _ _ _ Hnd Hi Hj). lia.
  - intros a b c (i & j & Hi & Hj & Hij) (j' & k & Hj' & Hk & Hjk).
    pose proof (NoDup_lookup _ _ _ _ Hnd Hj Hj'). subst j'.
    exists i, k. split_and!; [done..|lia].
  - intros a b [i Hi]%list_elem_of_lookup [j Hj]%list_elem_of_lookup Hne.
    destruct (Nat.lt_total i j) as [?|[->|?]].
    + left. by exists i, j.
    + congruence.
    + right. by exists j, i.
Qed.

Section categorical.
Context (ordinal skip : list string).
Implicit Types (df : table).

Lemma categorical_step_eq df x :
categorical_step ordinal skip df x =
  if bool_decide (x ∉ skip) then
    match getitem x df with
    | None => None
    | Some col =>
        if is_string_dtype col then
          Some (setitem x (if bool_decide (x ∈ ordinal)
                           then as_ordered (astype_category col)
                           else astype_category col) df)
        else Some df
    end
  else Some df.
Proof. unfold categorical_step. by destruct (getitem x df). Qed.

Lemma categorical_step_getitem df df' x c :
x ≠ c → categorical_step ordinal skip df x = Some df' →
getitem c df' = getitem c df.
Proof.
intros Hne. rewrite categorical_step_eq.
case_bool_decide; [|by intros [= <-]].
destruct (getitem x df) as [col|]; [|done].
destruct (is_string_dtype col); intros [= <-]; [|done].
by rewrite getitem_setitem_ne.
Qed.

Lemma categorical_step_total df x :
x ∈ columns df →
∃ df', categorical_step ordinal skip df x = Some df' ∧ columns df' = columns df.
Proof.
intros Hin. destruct (proj2 (getitem_is_Some df x) Hin) as [col Hx].
rewrite categorical_step_eq, Hx.
case_bool_decide; [|eauto]. destruct (is_string_dtype col); [|eauto].
eexists. split; [done|]. by apply columns_setitem_in.
Qed.

Lemma categorical_loop_total df :
∃ out, for_each (categorical_step ordinal skip) (columns df) df = Some out.
Proof.
destruct (for_each_total (categorical_step ordinal skip)
            (λ s, columns s = columns df) (columns df) df)
  as (out & Hrun & _); [|done|eauto].
intros x df1 Hx H1.
destruct (categorical_step_total df1 x) as (df2 & Hstep & Hcols);
  [by rewrite H1|].
exists df2. split; [done|]. by rewrite Hcols.
Qed.

(** What the loop leaves of a text column. *)
Lemma categorical_loop_text df out c vs :
NoDup (columns df) → getitem c df = Some (Text vs) →
for_each (categorical_step ordinal skip) (columns df) df = Some out →
getitem c out =
  Some (if bool_decide (c ∉ skip) then
          if bool_decide (c ∈ ordinal)
          then as_ordered (astype_category (Text vs))
          else astype_category (Text vs)
        else Text vs).
Proof.
intros Hnd Hc Hrun.
apply for_each_split with (c := c) in Hrun
    as (pre & post & df1 & df2 & Hcols & Hpre & Hpost & H1 & H2 & H3);
  [|done|by eapply getitem_elem].
assert (getitem c df1 = Some (Text vs)) as Hc1.
{ revert H1. apply (for_each_preserve _ (λ s, getitem c s = Some (Text vs)));
    [|done].
  intros x dfa dfb Hx Ha Hstep.
  erewrite categorical_step_getitem; [done| |done]. by intros ->. }
set (res := if bool_decide (c ∉ skip) then _ else _).
revert H3. apply (for_each_preserve _ (λ s, getitem c s = Some res)).
- intros x dfa dfb Hx Ha Hstep.
  erewrite categorical_step_getitem; [done| |done]. by intros ->.
- rewrite categorical_step_eq, Hc1 in H2. simpl in H2. unfold res.
  case_bool_decide; injection H2 as <-; [|done].
  by rewrite getitem_setitem_eq.
Qed.
End categorical.

Lemma drop_is_Some labels (df : table) :
  Forall (λ l, l ∈ columns df) labels → is_Some (drop labels df).
Proof. intros Hl. unfold drop. rewrite decide_True by done. eauto. Qed.

Lemma drop_NoDup labels (df df' : table) :
  drop labels df = Some df' → NoDup (columns df) → NoDup (columns df').
Proof.
  intros Hdrop Hnd. rewrite (columns_drop _ _ _ Hdrop). by apply NoDup_filter.
Qed.

(** C6: [convert_to_categorical] returns when the labels to drop are columns
    of the frame.  In its output every text column that is neither dropped
    nor skipped is categorical and holds the same values; it is ordered,
    with a strict total order on its categories, when it is in the ordinal
    set, and unordered, with no order at all, when it is not; and every text
    column that is skipped and not dropped is the text column it was. *)
Theorem convert_to_categorical_types df
    ordinal_categorical_features drop_features skip_features :
  NoDup (columns df) →
  Forall (λ l, l ∈ columns df) (as_list drop_features) →
  ∃ out,
    convert_to_categorical df
      ordinal_categorical_features drop_features skip_features = Some out ∧
    (∀ c vs, getitem c df = Some (Text vs) →
             c ∉ as_list drop_features → c ∉ as_list skip_features →
       ∃ cats codes,
         let col :=
           Categorical (bool_decide (c ∈ as_list ordinal_categorical_features))
             cats codes in
         getitem c out = Some col ∧
         is_categorical_dtype col = true ∧
         cat_values col = vs ∧
         (c ∈ as_list ordinal_categorical_features →
            strict_total_on cats (cat_lt col)) ∧
         (c ∉ as_list ordinal_categorical_features →
            ∀ a b, ¬ cat_lt col a b)) ∧
    (∀ c vs, getitem c df = Some (Text vs) →
             c ∉ as_list drop_features → c ∈ as_list skip_features →
             getitem c out = Some (Text vs)).
Proof.
  intros Hnd Hdrop. unfold convert_to_categorical.
  destruct (drop_is_Some _ _ Hdrop) as [df1 Hdf1]. rewrite Hdf1. simpl.
  pose proof (drop_NoDup _ _ _ Hdf1 Hnd) as Hnd1.
  destruct (categorical_loop_total (as_list ordinal_categorical_features)
              (as_list skip_features) df1) as [out Hrun].
  exists out. split; [done|]. split.
  - intros c vs Hc Hnd_drop Hnskip.
    assert (getitem c df1 = Some (Text vs)) as Hc1.
    { by rewrite (getitem_drop _ _ _ _ Hdf1), decide_False. }
    pose proof (categorical_loop_text _ _ _ _ _ _ Hnd1 Hc1 Hrun) as Hout.
    rewrite bool_decide_eq_true_2 in Hout by done.
    destruct (astype_category_Text vs)
      as (cats & codes & Heq & Hndc & _ & _ & Hvals).
    rewrite Heq in Hout. simpl in Hout.
    exists cats, codes. simpl. case_bool_decide; (split_and!; try done).
    + intros _. by apply cat_lt_ordered.
    + intros _ a b Hlt. exact Hlt.
  - intros c vs Hc Hnd_drop Hskip.
    assert (getitem c df1 = Some (Text vs)) as Hc1.
    { by rewrite (getitem_drop _ _ _ _ Hdf1), decide_False. }
    pose proof (categorical_loop_text _ _ _ _ _ _ Hnd1 Hc1 Hrun) as Hout.
    by rewrite bool_decide_eq_false_2 in Hout by auto.
Qed.

Lemma convert_to_categorical_types_witness :
  ∃ out,
    convert_to_categorical docs_text (Name "col3") (Name "col1") (Name "col2")
      = Some out ∧
    (∀ c vs, getitem c docs_text = Some (Text vs) →
             c ∉ as_list (Name "col1") → c ∉ as_list (Name "col2") →
       ∃ cats codes,
         let col :=
           Categorical (bool_decide (c ∈ as_list (Name "col3"))) cats codes in
         getitem c out = Some col ∧
         is_categorical_dtype col = true ∧
         cat_values col = vs ∧
         (c ∈ as_list (Name "col3") → strict_total_on cats (cat_lt col)) ∧
         (c ∉ as_list (Name "col3") → ∀ a b, ¬ cat_lt col a b)) ∧
    (∀ c vs, getitem c docs_text = Some (Text vs) →
             c ∉ as_list (Name "col1") → c ∈ as_list (Name "col2") →
             getitem c out = Some (Text vs)).
Proof.
  apply (convert_to_categorical_types docs_text
           (Name "col3") (Name "col1") (Name "col2")).
  - by apply (bool_decide_unpack _); vm_compute.
  - by apply (bool_decide_unpack _); vm_compute.
Defined.

(** ** The store-level programs *)

Section store.
Implicit Types (h : gmap nat table) (r : nat) (t : table).

Lemma run_bind {A B} (f : A → prog B) (p : prog A) h :
run (prog_bind f p) h =
  match run p h with
  | (h', Some a) => run (f a) h'
  | (h', None) => (h', None)
  end.
Proof. done. Qed.

Lemma lookup_fresh h : h !! fresh (dom h) = None.
Proof. apply not_elem_of_dom, is_fresh. Qed.

Lemma run_copy_st h r t :
h !! r = Some t →
run (copy_st r) h = (<[fresh (dom h) := t]> h, Some (fresh (dom h))).
Proof. intros Hr. unfold copy_st. rewrite run_bind. unfold run, load. by rewrite Hr. Qed.

Lemma run_columns_st h r t :
h !! r = Some t → run (columns_st r) h = (h, Some (columns t)).
Proof. intros Hr. unfold columns_st. rewrite run_bind. unfold run, load. by rewrite Hr. Qed.

Lemma run_getitem_st h r t name :
h !! r = Some t → run (getitem_st name r) h = (h, getitem name t).
Proof. intros Hr. unfold getitem_st. rewrite run_bind. unfold run, load. by rewrite Hr. Qed.

Lemma run_setitem_st h r t name c :
h !! r = Some t →
run (setitem_st name c r) h = (<[r := setitem name c t]> h, Some ()).
Proof. intros Hr. unfold setitem_st. rewrite run_bind. unfold run, load. by rewrite Hr. Qed.

Lemma run_drop_st h r t labels :
h !! r = Some t →
run (drop_st labels r) h =
  match drop labels t with
  | Some t' => (<[fresh (dom h) := t']> h, Some (fresh (dom h)))
  | None => (h, None)
  end.
Proof.
intros Hr. unfold drop_st, prog_bind, run, load, lift, alloc. cbv beta.
rewrite Hr. by destruct (drop labels t).
Qed.

Lemma run_join_st h r o t t2 :
h !! r = Some t → h !! o = Some t2 →
run (join_st r o) h =
  match join t t2 with
  | Some t' => (<[fresh (dom h) := t']> h, Some (fresh (dom h)))
  | None => (h, None)
  end.
Proof.
intros Hr Ho. unfold join_st, prog_bind, run, load, lift, alloc. cbv beta.
rewrite Hr. cbv beta iota. rewrite Ho. by destruct (join t t2).
Qed.

(** Allocation and the update of a new object keep the objects the call
  started from. *)
Lemma alloc_subseteq h0 h t : h0 ⊆ h → h0 ⊆ <[fresh (dom h) := t]> h.
Proof.
intros Hsub. apply insert_subseteq_r; [|done].
eapply lookup_weaken_None; [apply lookup_fresh|done].
Qed.

Lemma frame_at_alloc h0 h t : h0 ⊆ h → frame_at h0 (<[fresh (dom h) := t]> h) (fresh (dom h)) t.
Proof.
intros Hsub. split; [by rewrite lookup_insert_eq|].
eapply lookup_weaken_None; [apply lookup_fresh|done].
Qed.

Lemma frame_at_update h0 h r t t' :
frame_at h0 h r t → h0 ⊆ h →
h0 ⊆ <[r := t']> h ∧ frame_at h0 (<[r := t']> h) r t'.
Proof.
intros [Hr H0] Hsub. split; [by apply insert_subseteq_r|].
split; [by rewrite lookup_insert_eq|done].
Qed.

(** The loop of a program refines the loop of the function its body
  refines. *)
Lemma for_each_st_refines {S T} h0 (R : gmap nat table → S → T → Prop)
    (body_st : S → string → prog S) (body : T → string → option T) :
  (∀ h s v x, h0 ⊆ h → R h s v → refines h0 R (body_st s x) (body v x) h) →
  ∀ xs h s v, h0 ⊆ h → R h s v →
    refines h0 R (for_each_st body_st xs s) (for_each body xs v) h.
Proof.
  intros Hbody xs. induction xs as [|x xs IH]; intros h s v Hsub HR; simpl.
  - exists h. split; [done|]. by exists s.
  - destruct (Hbody h s v x Hsub HR) as (h1 & Hsub1 & Hstep).
    destruct (body v x) as [v1|]; simpl.
    + destruct Hstep as (s1 & Hrun1 & HR1).
      destruct (IH h1 s1 v1 Hsub1 HR1) as (h2 & Hsub2 & Hrest).
      exists h2. split; [done|]. by rewrite run_bind, Hrun1.
    + exists h1. split; [done|]. by rewrite run_bind, Hstep.
Qed.
End store.

Section refinement.
Context (h0 : gmap nat table).
Implicit Types (h : gmap nat table) (r : nat) (t : table).

Lemma run_alloc h t :
  run (alloc t) h = (<[fresh (dom h) := t]> h, Some (fresh (dom h))).
Proof. done. Qed.

Lemma refines_ret {S T} (R : gmap nat table → S → T → Prop) h (s : S) (v : T) :
h0 ⊆ h → R h s v → refines h0 R (prog_ret s) (Some v) h.
Proof. intros Hsub HR. exists h. split; [done|]. by exists s. Qed.

Lemma refines_raise {S T} (R : gmap nat table → S → T → Prop) h (p : prog S) :
h0 ⊆ h → run p h = (h, None) → refines h0 R p None h.
Proof. intros Hsub Hrun. by exists h. Qed.

Lemma categorical_step_st_refines ordinal skip h r t x :
h0 ⊆ h → frame_at h0 h r t →
refines h0 (frame_at h0) (categorical_step_st ordinal skip r x)
  (categorical_step ordinal skip t x) h.
Proof.
intros Hsub Hfr. pose proof Hfr as [Hr _].
unfold categorical_step_st, categorical_step.
case_bool_decide; [|by apply refines_ret].
destruct (getitem x t) as [col|] eqn:Hx; simpl.
- destruct (is_string_dtype col) eqn:Hstr.
  + destruct (frame_at_update _ _ _ _
      (setitem x (if bool_decide (x ∈ ordinal)
                  then as_ordered (astype_category col)
                  else astype_category col) t) Hfr Hsub) as [Hsub' Hfr'].
    eexists. split; [exact Hsub'|]. exists r. split; [|done].
    rewrite run_bind, (run_getitem_st _ _ _ _ Hr), Hx, Hstr.
    by rewrite run_bind, (run_setitem_st _ _ _ _ _ Hr).
  + exists h. split; [done|]. exists r. split; [|done].
    by rewrite run_bind, (run_getitem_st _ _ _ _ Hr), Hx, Hstr.
- apply refines_raise; [done|].
  by rewrite run_bind, (run_getitem_st _ _ _ _ Hr), Hx.
Qed.

Lemma numericalize_step_st_refines max_categories skip h r t
  (m : gmap string mapping) x :
h0 ⊆ h → frame_at h0 h r t →
refines h0 (λ h s v, frame_at h0 h s.1 v.1 ∧ s.2 = v.2)
  (numericalize_step_st max_categories skip (r, m) x)
  (numericalize_step max_categories skip (t, m) x) h.
Proof.
intros Hsub Hfr. pose proof Hfr as [Hr Hr0].
unfold numericalize_step_st, numericalize_step.
case_bool_decide; [|by apply refines_ret].
destruct (getitem x t) as [col|] eqn:Hx; simpl.
2:{ apply refines_raise; [done|].
    by rewrite run_bind, (run_getitem_st _ _ _ _ Hr), Hx. }
destruct (is_categorical_dtype col) eqn:Hcat.
2:{ exists h. split; [done|]. exists (r, m). split; [|done].
    by rewrite run_bind, (run_getitem_st _ _ _ _ Hr), Hx, Hcat. }
case_decide as Hmax.
- destruct (frame_at_update _ _ _ _ (setitem x (codes_plus_one col) t) Hfr Hsub)
    as [Hsub' Hfr'].
  eexists. split; [exact Hsub'|]. eexists (r, _). split; [|done].
  rewrite run_bind, (run_getitem_st _ _ _ _ Hr), Hx, Hcat.
  rewrite decide_True by done.
  by rewrite run_bind, (run_setitem_st _ _ _ _ _ Hr).
- set (oh := get_dummies col x).
  set (r1 := fresh (dom h)). set (h1 := <[r1 := oh]> h).
  assert (h0 ⊆ h1) as Hsub1 by by apply alloc_subseteq.
  assert (h1 !! r1 = Some oh) as Hr1 by apply lookup_insert_eq.
  assert (h1 !! r = Some t) as Hr'.
  { unfold h1. rewrite lookup_insert_ne; [done|].
    intros Heq. pose proof (lookup_fresh h) as Hf. fold r1 in Hf.
    rewrite Heq in Hf. congruence. }
  unfold refines.
  rewrite run_bind, (run_getitem_st _ _ _ _ Hr), Hx, Hcat.
  rewrite decide_False by done.
  rewrite run_bind. unfold get_dummies_st. rewrite run_alloc.
  fold oh r1 h1.
  rewrite run_bind, (run_drop_st _ _ _ _ Hr').
  destruct (drop [x] t) as [dfd|]; simpl; [|by exists h1].
  set (r2 := fresh (dom h1)). set (h2 := <[r2 := dfd]> h1).
  assert (h0 ⊆ h2) as Hsub2 by by apply alloc_subseteq.
  assert (h2 !! r2 = Some dfd) as Hr2 by apply lookup_insert_eq.
  assert (h2 !! r1 = Some oh) as Hr1'.
  { unfold h2. rewrite lookup_insert_ne; [done|].
    intros Heq. pose proof (lookup_fresh h1) as Hf. fold r2 in Hf.
    rewrite Heq in Hf. congruence. }
  rewrite run_bind, (run_join_st _ _ _ _ _ Hr2 Hr1').
  destruct (join dfd oh) as [dfj|]; simpl; [|by exists h2].
  eexists. split; [by apply alloc_subseteq|].
  eexists (_, _). split; [done|]. split; [|done]. by apply frame_at_alloc.
Qed.

Lemma interpolate_step_st_refines skip h r t
  (m : gmap string (option Qc)) x :
h0 ⊆ h → frame_at h0 h r t →
refines h0 (λ h s v, frame_at h0 h s.1 v.1 ∧ s.2 = v.2)
  (interpolate_step_st skip (r, m) x)
  (interpolate_step skip (t, m) x) h.
Proof.
intros Hsub Hfr. pose proof Hfr as [Hr Hr0].
unfold interpolate_step_st, interpolate_step.
case_bool_decide; [|by apply refines_ret].
destruct (getitem x t) as [col|] eqn:Hx; simpl.
2:{ apply refines_raise; [done|].
    by rewrite run_bind, (run_getitem_st _ _ _ _ Hr), Hx. }
destruct (is_numeric_dtype col) eqn:Hnum.
2:{ exists h. split; [done|]. exists (r, m). split; [|done].
    by rewrite run_bind, (run_getitem_st _ _ _ _ Hr), Hx, Hnum. }
unfold refines.
rewrite run_bind, (run_getitem_st _ _ _ _ Hr), Hx, Hnum.
rewrite run_bind, (run_setitem_st _ _ _ _ _ Hr).
set (t1 := setitem (x +:+ "_missing") (isnull col) t).
destruct (frame_at_update _ _ _ _ t1 Hfr Hsub) as [Hsub1 Hfr1].
pose proof Hfr1 as [Hr1 _].
rewrite run_bind, (run_getitem_st _ _ _ _ Hr1).
destruct (getitem x t1) as [col1|]; simpl; [|by eexists].
rewrite run_bind, (run_setitem_st _ _ _ _ _ Hr1).
set (t2 := setitem x (fillna (median col1) col1) t1).
destruct (frame_at_update _ _ _ _ t2 Hfr1 Hsub1) as [Hsub2 Hfr2].
pose proof Hfr2 as [Hr2 _].
rewrite run_bind, (run_getitem_st _ _ _ _ Hr2).
rewrite insert_insert_eq in *.
destruct (getitem x t2) as [col2|]; simpl; [|by eexists].
eexists. split; [done|]. eexists (_, _). by split.
Qed.
End refinement.

Section refinement_date.
Context (h0 : gmap nat table).
Context (parse_datetime : string → option Z).
Context (dt_field : string → Z → Z) (dt_flag : string → Z → bool).
Implicit Types (h : gmap nat table) (r : nat) (t : table).

Lemma run_lift {A} (o : option A) h : run (lift o) h = (h, o).
Proof. done. Qed.

Lemma attr_step_st_refines feature name h r t attr :
h0 ⊆ h → frame_at h0 h r t →
refines h0 (frame_at h0) (attr_step_st dt_field dt_flag feature name r attr)
  (attr_step dt_field dt_flag feature name t attr) h.
Proof.
intros Hsub Hfr. pose proof Hfr as [Hr _].
unfold refines, attr_step_st, attr_step.
rewrite run_bind, (run_getitem_st _ _ _ _ Hr).
destruct (getitem feature t) as [col|]; simpl; [|by exists h].
rewrite run_bind, run_lift.
destruct (dt_accessor dt_field dt_flag attr col) as [value|]; simpl;
  [|by exists h].
rewrite run_bind, (run_setitem_st _ _ _ _ _ Hr).
destruct (frame_at_update _ _ _ _ (setitem (name +:+ "_" +:+ attr) value t)
            Hfr Hsub) as [Hsub' Hfr'].
eexists. split; [exact Hsub'|]. by exists r.
Qed.

Lemma date_step_st_refines attrs drop_column h r t x :
h0 ⊆ h → frame_at h0 h r t →
refines h0 (frame_at h0)
  (date_step_st parse_datetime dt_field dt_flag attrs drop_column r x)
  (date_step parse_datetime dt_field dt_flag attrs drop_column t x) h.
Proof.
intros Hsub Hfr. pose proof Hfr as [Hr _].
unfold date_step_st, date_step.
set (loop_st := for_each_st _ attrs).
set (loop := for_each _ attrs).
assert (∀ h1 t1, h0 ⊆ h1 → frame_at h0 h1 r t1 →
          refines h0 (frame_at h0)
            (df ⇐ loop_st r;;
             if drop_column then drop_st [x] df else prog_ret df)
            (df ← loop t1; if drop_column then drop [x] df else Some df) h1)
  as Hrest.
{ intros h1 t1 Hsub1 Hfr1.
  destruct (for_each_st_refines h0 (frame_at h0)
              (attr_step_st dt_field dt_flag x (re_sub_date x))
              (attr_step dt_field dt_flag x (re_sub_date x))
              (λ h s v a Hs HR, attr_step_st_refines x (re_sub_date x) h s v a Hs HR)
              attrs h1 r t1 Hsub1 Hfr1) as (h2 & Hsub2 & Hloop).
  fold loop_st loop in Hloop. unfold refines. rewrite run_bind.
  destruct (loop t1) as [t2|]; simpl.
  - destruct Hloop as (r2 & -> & Hfr2). pose proof Hfr2 as [Hr2 _].
    destruct drop_column.
    + rewrite (run_drop_st _ _ _ _ Hr2).
      destruct (drop [x] t2) as [t3|]; [|by exists h2].
      eexists. split; [by apply alloc_subseteq|].
      eexists. split; [done|]. by apply frame_at_alloc.
    + exists h2. split; [done|]. by exists r2.
  - rewrite Hloop. by exists h2. }
unfold refines. rewrite run_bind, (run_getitem_st _ _ _ _ Hr).
destruct (getitem x t) as [column|] eqn:Hx; simpl; [|by exists h].
rewrite run_bind.
destruct (is_datetime64_dtype column).
- apply Hrest; done.
- rewrite run_bind, (run_getitem_st _ _ _ _ Hr), Hx.
  rewrite run_bind, run_lift.
  destruct (astype_datetime64 parse_datetime column) as [col|]; simpl;
    [|by exists h].
  rewrite (run_setitem_st _ _ _ _ _ Hr).
  destruct (frame_at_update _ _ _ _ (setitem x col t) Hfr Hsub)
    as [Hsub' Hfr'].
  by apply Hrest.
Qed.
End refinement_date.

(** *** The four functions *)

Section refinement_functions.
Implicit Types (h : gmap nat table) (r : nat) (t : table).

Lemma convert_to_categorical_st_refines h r t ordinal drop_features skip :
h !! r = Some t →
refines h (frame_at h)
  (convert_to_categorical_st r ordinal drop_features skip)
  (convert_to_categorical t ordinal drop_features skip) h.
Proof.
intros Hr. unfold convert_to_categorical_st, convert_to_categorical, refines.
rewrite run_bind, (run_copy_st _ _ _ Hr).
set (r1 := fresh (dom h)). set (h1 := <[r1 := t]> h).
assert (h ⊆ h1) as Hsub1 by by apply alloc_subseteq.
assert (h1 !! r1 = Some t) as Hr1 by apply lookup_insert_eq.
rewrite run_bind, (run_drop_st _ _ _ _ Hr1).
destruct (drop (as_list drop_features) t) as [t1|]; simpl; [|by exists h1].
set (r2 := fresh (dom h1)). set (h2 := <[r2 := t1]> h1).
assert (h ⊆ h2) as Hsub2 by by apply alloc_subseteq.
assert (frame_at h h2 r2 t1) as Hfr2 by by apply frame_at_alloc.
rewrite run_bind, (run_columns_st _ _ _ (proj1 Hfr2)).
apply (for_each_st_refines h (frame_at h)); [|done..].
intros h' s v x Hs HR. by apply categorical_step_st_refines.
Qed.

Lemma numericalize_categories_st_refines h r t max_categories skip :
h !! r = Some t →
refines h (λ h' s v, frame_at h h' s.1 v.1 ∧ s.2 = v.2)
  (numericalize_categories_st r max_categories skip)
  (numericalize_categories t max_categories skip) h.
Proof.
intros Hr. unfold numericalize_categories_st, numericalize_categories, refines.
rewrite run_bind, (run_copy_st _ _ _ Hr).
set (r1 := fresh (dom h)). set (h1 := <[r1 := t]> h).
assert (h ⊆ h1) as Hsub1 by by apply alloc_subseteq.
assert (frame_at h h1 r1 t) as Hfr1 by by apply frame_at_alloc.
rewrite run_bind, (run_columns_st _ _ _ (proj1 Hfr1)).
apply (for_each_st_refines h
         (λ h' (s : nat * gmap string mapping) (v : table * gmap string mapping),
            frame_at h h' s.1 v.1 ∧ s.2 = v.2)); [|done..].
intros h' [s m] [v m'] x Hs [HR Hm]. simpl in *. subst m'.
by apply numericalize_step_st_refines.
Qed.

Lemma interpolate_missing_values_st_refines h r t skip :
h !! r = Some t →
refines h (λ h' s v, frame_at h h' s.1 v.1 ∧ s.2 = v.2)
  (interpolate_missing_values_st r skip)
  (interpolate_missing_values t skip) h.
Proof.
intros Hr.
unfold interpolate_missing_values_st, interpolate_missing_values, refines.
rewrite run_bind, (run_copy_st _ _ _ Hr).
set (r1 := fresh (dom h)). set (h1 := <[r1 := t]> h).
assert (h ⊆ h1) as Hsub1 by by apply alloc_subseteq.
assert (frame_at h h1 r1 t) as Hfr1 by by apply frame_at_alloc.
rewrite run_bind, (run_columns_st _ _ _ (proj1 Hfr1)).
apply (for_each_st_refines h
         (λ h' (s : nat * gmap string (option Qc))
             (v : table * gmap string (option Qc)),
            frame_at h h' s.1 v.1 ∧ s.2 = v.2)); [|done..].
intros h' [s m] [v m'] x Hs [HR Hm]. simpl in *. subst m'.
by apply interpolate_step_st_refines.
Qed.

Lemma extract_date_features_st_refines parse_datetime dt_field dt_flag
  h r t date_features time drop_column :
h !! r = Some t →
refines h (frame_at h)
  (extract_date_features_st parse_datetime dt_field dt_flag
     r date_features time drop_column)
  (extract_date_features parse_datetime dt_field dt_flag
     t date_features time drop_column) h.
Proof.
intros Hr. unfold extract_date_features_st, extract_date_features, refines.
rewrite run_bind, (run_copy_st _ _ _ Hr).
set (r1 := fresh (dom h)). set (h1 := <[r1 := t]> h).
assert (h ⊆ h1) as Hsub1 by by apply alloc_subseteq.
assert (frame_at h h1 r1 t) as Hfr1 by by apply frame_at_alloc.
rewrite run_bind, run_lift.
destruct date_features as [|f|fs]; cbn -[for_each for_each_st];
  [by exists h1|..].
all: apply (for_each_st_refines h (frame_at h)); [|done..].
all: intros h' s v x Hs HR; by apply date_step_st_refines.
Qed.

(** A program that refines a function from the store it starts on leaves its
  input as it was and returns a new object. *)
Lemma refines_leaves_input {S T} (R : gmap nat table → S → T → Prop)
  (ref_of : S → nat) (p : prog S) (o : option T) h r t :
(∀ h' s v, R h' s v → h !! ref_of s = None ∧ is_Some (h' !! ref_of s)) →
refines h R p o h → h !! r = Some t → leaves_input p ref_of h r t.
Proof.
intros HR (h' & Hsub & Hrun) Hr. unfold leaves_input.
destruct o as [v|].
- destruct Hrun as (s & -> & Hs). simpl. split.
  + by eapply lookup_weaken.
  + intros a [= <-]. eauto.
- rewrite Hrun. simpl. split; [by eapply lookup_weaken|done].
Qed.
End refinement_functions.

(** C8: each of the four functions works on a copy: after the call, whether
    it returns or raises, the frame object it was given is the frame it was,
    and the object it returns is a new one. *)
Theorem input_frame_unchanged
    (parse_datetime : string → option Z)
    (dt_field : string → Z → Z) (dt_flag : string → Z → bool)
    (h : gmap nat table) (data_frame : nat) (t : table) :
  h !! data_frame = Some t →
  (∀ ordinal_categorical_features drop_features skip_features,
     leaves_input
       (convert_to_categorical_st data_frame
          ordinal_categorical_features drop_features skip_features)
       id h data_frame t) ∧
  (∀ max_categories skip_features,
     leaves_input
       (numericalize_categories_st data_frame max_categories skip_features)
       fst h data_frame t) ∧
  (∀ skip_features,
     leaves_input (interpolate_missing_values_st data_frame skip_features)
       fst h data_frame t) ∧
  (∀ date_features time drop_column,
     leaves_input
       (extract_date_features_st parse_datetime dt_field dt_flag
          data_frame date_features time drop_column)
       id h data_frame t).
Proof.
  intros Hr. split_and!; intros.
  - eapply refines_leaves_input;
      [|by apply convert_to_categorical_st_refines|done].
    intros h' s v [Hs H0]. eauto.
  - eapply refines_leaves_input;
      [|by apply numericalize_categories_st_refines|done].
    intros h' s v [[Hs H0] _]. eauto.
  - eapply refines_leaves_input;
      [|by apply interpolate_missing_values_st_refines|done].
    intros h' s v [[Hs H0] _]. eauto.
  - eapply refines_leaves_input;
      [|by apply extract_date_features_st_refines|done].
    intros h' s v [Hs H0]. eauto.
Qed.

Lemma input_frame_unchanged_witness :
  (∀ ordinal_categorical_features drop_features skip_features,
     leaves_input
       (convert_to_categorical_st 0
          ordinal_categorical_features drop_features skip_features)
       id {[0 := docs_text]} 0 docs_text) ∧
  (∀ max_categories skip_features,
     leaves_input (numericalize_categories_st 0 max_categories skip_features)
       fst {[0 := docs_text]} 0 docs_text) ∧
  (∀ skip_features,
     leaves_input (interpolate_missing_values_st 0 skip_features)
       fst {[0 := docs_text]} 0 docs_text) ∧
  (∀ date_features time drop_column,
     leaves_input
       (extract_date_features_st example_parse example_field example_flag
          0 date_features time drop_column)
       id {[0 := docs_text]} 0 docs_text).
Proof.
  apply (input_frame_unchanged example_parse example_field example_flag
           {[0 := docs_text]} 0 docs_text).
  reflexivity.
Defined.

(** C9: when the drop set names a label that is not a column of the frame,
    [convert_to_categorical] raises: no frame is returned, and the store
    holds, besides what it held, only the copy of the input, on which no
    conversion was applied. *)
Theorem drop_absent_column_raises (h : gmap nat table) (data_frame : nat)
    (t : table) ordinal_categorical_features drop_features skip_features l :
  h !! data_frame = Some t →
  l ∈ as_list drop_features → l ∉ columns t →
  convert_to_categorical t
    ordinal_categorical_features drop_features skip_features = None ∧
  run (convert_to_categorical_st data_frame
         ordinal_categorical_features drop_features skip_features) h
  = (<[fresh (dom h) := t]> h, None).
Proof.
  intros Hr Hl Hnot.
  assert (drop (as_list drop_features) t = None) as Hdrop.
  { unfold drop. rewrite decide_False; [done|].
    intros Hall. rewrite Forall_forall in Hall. by apply Hnot, Hall. }
  split.
  - unfold convert_to_categorical. by rewrite Hdrop.
  - unfold convert_to_categorical_st.
    rewrite run_bind, (run_copy_st _ _ _ Hr).
    rewrite run_bind, (run_drop_st _ _ t); [|apply lookup_insert_eq].
    by rewrite Hdrop.
Qed.

Lemma drop_absent_column_raises_witness :
  convert_to_categorical docs_text Unset (Name "col4") Unset = None ∧
  run (convert_to_categorical_st 0 Unset (Name "col4") Unset) {[0 := docs_text]}
  = (<[fresh (dom ({[0 := docs_text]} : gmap nat table)) := docs_text]>
       {[0 := docs_text]}, None).
Proof.
  apply (drop_absent_column_raises {[0 := docs_text]} 0 docs_text
           Unset (Name "col4") Unset "col4").
  - reflexivity.
  - by left.
  - by apply (bool_decide_unpack _); vm_compute.
Defined.

(** ** Rows *)

Section rows.
Context (n : nat).
Implicit Types (df : table) (c : column).

Lemma has_rows_getitem df x c :
has_rows n df → getitem x df = Some c → col_length c = n.
Proof.
intros Hrows Hx%getitem_Some_elem. unfold has_rows in Hrows.
rewrite Forall_forall in Hrows. apply (Hrows _ Hx).
Qed.

Lemma has_rows_setitem df x c :
has_rows n df → col_length c = n → has_rows n (setitem x c df).
Proof.
intros Hrows Hc. apply Forall_forall. intros nc [->|Hin]%elem_of_setitem.
- done.
- unfold has_rows in Hrows. rewrite Forall_forall in Hrows. by apply Hrows.
Qed.

Lemma has_rows_drop labels df df' :
has_rows n df → drop labels df = Some df' → has_rows n df'.
Proof.
intros Hrows [-> _]%drop_Some. unfold has_rows in *.
rewrite Forall_forall in *. intros nc [_ Hin]%list_elem_of_filter. auto.
Qed.

Lemma has_rows_join df other df' :
has_rows n df → has_rows n other → join df other = Some df' → has_rows n df'.
Proof. intros Hrows Hother [-> _]%join_Some. by apply Forall_app. Qed.

Lemma col_length_astype_category c :
col_length (astype_category c) = col_length c.
Proof. destruct c; try done. simpl. by rewrite length_fmap. Qed.

Lemma col_length_as_ordered c : col_length (as_ordered c) = col_length c.
Proof. by destruct c. Qed.

Lemma col_length_codes_plus_one c :
is_categorical_dtype c = true → col_length (codes_plus_one c) = col_length c.
Proof. destruct c; try done. intros _. simpl. by rewrite length_fmap. Qed.

Lemma has_rows_get_dummies c prefix :
is_categorical_dtype c = true → col_length c = n →
has_rows n (get_dummies c prefix).
Proof.
destruct c; try done. intros _ Hlen. simpl in Hlen.
apply Forall_forall. intros nc (k & cat & -> & _)%elem_of_lookup_imap.
simpl. unfold indicator. by rewrite length_fmap.
Qed.

Lemma col_length_isnull c : col_length (isnull c) = col_length c.
Proof. destruct c; simpl; by rewrite length_fmap. Qed.

Lemma col_length_fillna value c : col_length (fillna value c) = col_length c.
Proof. destruct c; try done. simpl. by rewrite length_fmap. Qed.

Lemma col_length_astype_datetime64 parse_datetime c c' :
astype_datetime64 parse_datetime c = Some c' → col_length c' = col_length c.
Proof.
destruct c; try done. simpl.
destruct (mapM _ values) as [ts|] eqn:Hts; simpl; [|done].
intros [= <-]. simpl. symmetry. by eapply length_mapM.
Qed.

Lemma col_length_dt_accessor dt_field dt_flag attr c c' :
dt_accessor dt_field dt_flag attr c = Some c' → col_length c' = col_length c.
Proof.
destruct c; try done. simpl. intros [= <-].
destruct (is_flag attr); simpl; [by rewrite length_fmap|].
destruct (mapM _ values) as [ts|] eqn:Hts; simpl; rewrite length_fmap; [|done].
symmetry. by eapply length_mapM.
Qed.

Lemma categorical_step_rows ordinal skip df df' x :
has_rows n df → categorical_step ordinal skip df x = Some df' →
has_rows n df'.
Proof.
intros Hrows. rewrite categorical_step_eq.
case_bool_decide; [|by intros [= <-]].
destruct (getitem x df) as [col|] eqn:Hx; [|done].
destruct (is_string_dtype col); intros [= <-]; [|done].
apply has_rows_setitem; [done|].
pose proof (has_rows_getitem _ _ _ Hrows Hx).
case_bool_decide;
  by rewrite ?col_length_as_ordered, col_length_astype_category.
Qed.

Lemma numericalize_step_rows max_categories skip df df' x
  (m m' : gmap string mapping) :
has_rows n df →
numericalize_step max_categories skip (df, m) x = Some (df', m') →
has_rows n df'.
Proof.
intros Hrows. unfold numericalize_step.
case_bool_decide; [|by intros [= <- <-]].
destruct (getitem x df) as [col|] eqn:Hx; simpl; [|done].
pose proof (has_rows_getitem _ _ _ Hrows Hx) as Hlen.
destruct (is_categorical_dtype col) eqn:Hcat; [|by intros [= <- <-]].
case_decide.
- intros [= <- <-]. apply has_rows_setitem; [done|].
  by rewrite col_length_codes_plus_one.
- destruct (drop [x] df) as [df1|] eqn:Hdrop; simpl; [|done].
  destruct (join df1 _) as [df2|] eqn:Hjoin; simpl; [|done].
  intros [= <- <-]. eapply has_rows_join; [| |done].
  + by eapply has_rows_drop.
  + by apply has_rows_get_dummies.
Qed.

Lemma interpolate_step_rows skip df df' x
  (m m' : gmap string (option Qc)) :
has_rows n df → interpolate_step skip (df, m) x = Some (df', m') →
has_rows n df'.
Proof.
intros Hrows. rewrite interpolate_step_eq.
case_bool_decide; [|by intros [= <- <-]].
destruct (getitem x df) as [col|] eqn:Hx; [|done].
pose proof (has_rows_getitem _ _ _ Hrows Hx) as Hlen.
destruct (is_numeric_dtype col); intros [= <- <-]; [|done].
apply has_rows_setitem; [apply has_rows_setitem; [done|]|].
- by rewrite col_length_isnull.
- by rewrite col_length_fillna.
Qed.

Lemma attr_step_rows dt_field dt_flag feature name df df' attr :
has_rows n df →
attr_step dt_field dt_flag feature name df attr = Some df' →
has_rows n df'.
Proof.
intros Hrows. unfold attr_step.
destruct (getitem feature df) as [col|] eqn:Hx; simpl; [|done].
destruct (dt_accessor _ _ _ col) as [value|] eqn:Hv; simpl; [|done].
intros [= <-]. apply has_rows_setitem; [done|].
rewrite (col_length_dt_accessor _ _ _ _ _ Hv).
by eapply has_rows_getitem.
Qed.

Lemma date_step_rows parse_datetime dt_field dt_flag attrs drop_column
  df df' x :
has_rows n df →
date_step parse_datetime dt_field dt_flag attrs drop_column df x = Some df' →
has_rows n df'.
Proof.
intros Hrows. unfold date_step.
destruct (getitem x df) as [column|] eqn:Hx; simpl; [|done].
pose proof (has_rows_getitem _ _ _ Hrows Hx) as Hlen.
set (conv := if is_datetime64_dtype column then _ else _).
destruct conv as [df1|] eqn:Hconv; simpl; [|done].
assert (has_rows n df1) as Hrows1.
{ unfold conv in Hconv. destruct (is_datetime64_dtype column).
  - by injection Hconv as <-.
  - simpl in Hconv.
    destruct (astype_datetime64 _ column) as [col'|] eqn:Hc; simpl in Hconv;
      [|done].
    injection Hconv as <-. apply has_rows_setitem; [done|].
    by rewrite (col_length_astype_datetime64 _ _ _ Hc). }
destruct (for_each _ attrs df1) as [df2|] eqn:Hloop; simpl; [|done].
assert (has_rows n df2) as Hrows2.
{ revert Hloop. apply (for_each_preserve _ (has_rows n)); [|done].
  intros a dfa dfb _ Ha Hstep. by eapply attr_step_rows. }
destruct drop_column; [|by intros [= <-]].
by apply has_rows_drop.
Qed.
End rows.

(** ** Reordering the rows *)

Section permute.
Context {A : Type}.
Implicit Types (σ : list nat) (l k : list A).

Lemma permute_fmap {B} (f : A → B) σ l : permute σ (f <$> l) = f <$> permute σ l.
Proof.
unfold permute. induction σ as [|i σ IH]; simpl; [done|].
rewrite list_lookup_fmap. destruct (l !! i); simpl; [f_equal|]; apply IH.
Qed.

Lemma permute_seq_app pre l :
omap (λ i, (pre ++ l) !! i) (seq (length pre) (length l)) = l.
Proof.
revert pre. induction l as [|x l IH]; intros pre; simpl; [done|].
rewrite list_lookup_middle by done. simpl. f_equal.
specialize (IH (pre ++ [x])). rewrite length_app, Nat.add_1_r in IH.
by rewrite <-(assoc_L (++)) in IH.
Qed.

Lemma permute_seq l : permute (seq 0 (length l)) l = l.
Proof. apply (permute_seq_app [] l). Qed.

Lemma permute_Permutation σ l : σ ≡ₚ seq 0 (length l) → permute σ l ≡ₚ l.
Proof.
intros Hσ. pose proof (permute_seq l) as Hid. unfold permute in *.
by rewrite Hσ, Hid.
Qed.

Lemma length_permute σ l :
σ ≡ₚ seq 0 (length l) → length (permute σ l) = length l.
Proof. intros Hσ. by rewrite (permute_Permutation σ l Hσ). Qed.

Lemma Forall2_permute {B} (R : A → B → Prop) σ l (k : list B) :
Forall2 R l k → Forall2 R (permute σ l) (permute σ k).
Proof.
intros HR. unfold permute. induction σ as [|i σ IH]; simpl; [done|].
destruct (l !! i) as [x|] eqn:Hl.
- destruct (Forall2_lookup_l _ _ _ _ _ HR Hl) as (y & -> & Hxy). simpl.
  by constructor.
- apply lookup_ge_None in Hl. rewrite (Forall2_length _ _ _ HR) in Hl.
  apply lookup_ge_None in Hl. by rewrite Hl.
Qed.

Lemma mapM_permute {B} (f : A → option B) σ l :
σ ≡ₚ seq 0 (length l) →
mapM f (permute σ l) = permute σ <$> mapM f l.
Proof.
intros Hσ. destruct (mapM f l) as [k|] eqn:Hk; simpl.
- apply mapM_Some. apply Forall2_permute. by apply mapM_Some.
- apply mapM_None. apply mapM_None in Hk.
  rewrite Exists_exists in *. destruct Hk as (x & Hx & Hfx).
  exists x. split; [|done]. by rewrite (permute_Permutation σ l Hσ).
Qed.
End permute.

Lemma median_of_Permutation (l1 l2 : list Qc) :
  l1 ≡ₚ l2 → median_of l1 = median_of l2.
Proof.
  intros Hp. unfold median_of.
  assert (merge_sort Qcle l1 = merge_sort Qcle l2) as ->; [|done].
  apply (StronglySorted_unique Qcle); [apply merge_sort_sorted..|].
  by rewrite !merge_sort_Permutation.
Qed.

Lemma categories_Permutation (l1 l2 : list string) :
  l1 ≡ₚ l2 →
  merge_sort String.le (remove_dups l1) = merge_sort String.le (remove_dups l2).
Proof.
  intros Hp. apply (Sorted_unique String.le).
  - apply Sorted_merge_sort, _.
  - apply Sorted_merge_sort, _.
  - rewrite !merge_sort_Permutation.
    apply NoDup_Permutation; [apply NoDup_remove_dups..|].
    intros x. by rewrite !elem_of_remove_dups, Hp.
Qed.

Lemma permute_nil {A} (σ : list nat) : permute σ (@nil A) = [].
Proof. unfold permute. induction σ as [|i σ IH]; simpl; [done|apply IH]. Qed.

Section permute_col.
Context (σ : list nat).
Implicit Types (c : column) (df : table).

Lemma is_string_dtype_permute c :
is_string_dtype (permute_col σ c) = is_string_dtype c.
Proof. by destruct c. Qed.

Lemma is_numeric_dtype_permute c :
is_numeric_dtype (permute_col σ c) = is_numeric_dtype c.
Proof. by destruct c. Qed.

Lemma is_categorical_dtype_permute c :
is_categorical_dtype (permute_col σ c) = is_categorical_dtype c.
Proof. by destruct c. Qed.

Lemma is_datetime64_dtype_permute c :
is_datetime64_dtype (permute_col σ c) = is_datetime64_dtype c.
Proof. by destruct c. Qed.

Lemma cat_categories_permute c :
cat_categories (permute_col σ c) = cat_categories c.
Proof. by destruct c. Qed.

Lemma as_ordered_permute c :
as_ordered (permute_col σ c) = permute_col σ (as_ordered c).
Proof. by destruct c. Qed.

Lemma codes_plus_one_permute c :
is_categorical_dtype c = true →
codes_plus_one (permute_col σ c) = permute_col σ (codes_plus_one c).
Proof.
destruct c; try done. intros _. unfold codes_plus_one. simpl.
by rewrite permute_fmap.
Qed.

Lemma get_dummies_permute c prefix :
is_categorical_dtype c = true →
get_dummies (permute_col σ c) prefix = permute_rows σ (get_dummies c prefix).
Proof.
destruct c; try done. intros _. unfold get_dummies, permute_rows. simpl.
rewrite fmap_imap. apply imap_ext. intros k cat _. simpl.
unfold indicator. by rewrite permute_fmap.
Qed.

Lemma isnull_permute c : isnull (permute_col σ c) = permute_col σ (isnull c).
Proof. destruct c; unfold isnull; simpl; by rewrite permute_fmap. Qed.

Lemma fillna_permute value c :
fillna value (permute_col σ c) = permute_col σ (fillna value c).
Proof. destruct c; try done. simpl. by rewrite permute_fmap. Qed.

Lemma numeric_values_permute c :
numeric_values (permute_col σ c) = permute σ (numeric_values c).
Proof.
destruct c; simpl; by rewrite ?permute_fmap, ?permute_nil.
Qed.

Lemma columns_permute_rows df : columns (permute_rows σ df) = columns df.
Proof.
unfold columns, permute_rows. rewrite <-list_fmap_compose.
by apply list_fmap_ext.
Qed.

Lemma getitem_permute_rows df x :
getitem x (permute_rows σ df) = permute_col σ <$> getitem x df.
Proof.
induction df as [|[n0 c0] df IH]; simpl; [done|]. by case_decide.
Qed.

Lemma setitem_permute_rows df x c :
setitem x (permute_col σ c) (permute_rows σ df)
= permute_rows σ (setitem x c df).
Proof.
induction df as [|[n0 c0] df IH]; simpl; [done|].
case_decide; simpl; [done|]. f_equal. apply IH.
Qed.

Lemma drop_permute_rows labels df :
drop labels (permute_rows σ df) = permute_rows σ <$> drop labels df.
Proof.
unfold drop. rewrite columns_permute_rows.
case_decide as Hall; [|done]. clear Hall. simpl.
f_equal. induction df as [|[n0 c0] df IH]; [done|].
unfold permute_rows in *. rewrite fmap_cons, !filter_cons. simpl.
case_decide; simpl; [f_equal|]; apply IH.
Qed.

Lemma join_permute_rows df other :
join (permute_rows σ df) (permute_rows σ other)
= permute_rows σ <$> join df other.
Proof.
unfold join. rewrite !columns_permute_rows. case_decide; [|done]. simpl.
unfold permute_rows. by rewrite fmap_app.
Qed.
End permute_col.

Section permute_col_perm.
Context (σ : list nat).
Implicit Types (c : column).

Lemma astype_category_permute c :
σ ≡ₚ seq 0 (col_length c) →
astype_category (permute_col σ c) = permute_col σ (astype_category c).
Proof.
destruct c; try done. simpl. intros Hσ.
rewrite (categories_Permutation (omap id (permute σ values)) (omap id values)).
- by rewrite permute_fmap.
- by rewrite (permute_Permutation σ values Hσ).
Qed.

Lemma median_permute c :
σ ≡ₚ seq 0 (col_length c) → median (permute_col σ c) = median c.
Proof.
intros Hσ. unfold median. rewrite numeric_values_permute.
apply median_of_Permutation.
destruct c; simpl in *; rewrite ?permute_nil; try done.
all: rewrite permute_Permutation; [done|by rewrite ?length_fmap].
Qed.

Lemma astype_datetime64_permute parse_datetime c :
σ ≡ₚ seq 0 (col_length c) →
astype_datetime64 parse_datetime (permute_col σ c)
= permute_col σ <$> astype_datetime64 parse_datetime c.
Proof.
destruct c; try done. simpl. intros Hσ.
rewrite (mapM_permute _ σ values Hσ). by destruct (mapM _ values).
Qed.

Lemma dt_accessor_permute dt_field dt_flag attr c :
σ ≡ₚ seq 0 (col_length c) →
dt_accessor dt_field dt_flag attr (permute_col σ c)
= permute_col σ <$> dt_accessor dt_field dt_flag attr c.
Proof.
destruct c; try done. simpl. intros Hσ. f_equal.
destruct (is_flag attr); simpl; [by rewrite permute_fmap|].
rewrite (mapM_permute _ σ values Hσ).
destruct (mapM _ values); simpl; by rewrite permute_fmap.
Qed.
End permute_col_perm.

Lemma for_each_equivariant {S : Type} (g : S → S) (I : S → Prop)
    (body : S → string → option S) xs s :
  (∀ s x, I s → body (g s) x = g <$> body s x) →
  (∀ s x s', I s → body s x = Some s' → I s') →
  I s → for_each body xs (g s) = g <$> for_each body xs s.
Proof.
  intros Hg HI. revert s. induction xs as [|x xs IH]; intros s Hs; simpl; [done|].
  rewrite Hg by done. destruct (body s x) as [s'|] eqn:Hb; simpl; [|done].
  apply IH. by eapply HI.
Qed.

Section equivariance.
Context (n : nat) (σ : list nat) (Hσ : σ ≡ₚ seq 0 n).
Implicit Types (df : table).

Lemma categorical_step_permute ordinal skip df x :
has_rows n df →
categorical_step ordinal skip (permute_rows σ df) x
= permute_rows σ <$> categorical_step ordinal skip df x.
Proof.
intros Hrows. rewrite !categorical_step_eq, getitem_permute_rows.
case_bool_decide; [|done].
destruct (getitem x df) as [col|] eqn:Hx; simpl; [|done].
pose proof (has_rows_getitem _ _ _ _ Hrows Hx) as Hlen.
rewrite is_string_dtype_permute. destruct (is_string_dtype col); [|done].
simpl. f_equal. rewrite <-setitem_permute_rows. f_equal.
rewrite astype_category_permute by by rewrite Hlen.
case_bool_decide; [by rewrite as_ordered_permute|done].
Qed.

Lemma numericalize_step_permute max_categories skip df
  (m : gmap string mapping) x :
has_rows n df →
numericalize_step max_categories skip (permute_rows σ df, m) x
= (λ s, (permute_rows σ s.1, s.2))
    <$> numericalize_step max_categories skip (df, m) x.
Proof.
intros Hrows. unfold numericalize_step. rewrite getitem_permute_rows.
case_bool_decide; [|done].
destruct (getitem x df) as [col|] eqn:Hx; simpl; [|done].
rewrite is_categorical_dtype_permute, cat_categories_permute.
destruct (is_categorical_dtype col) eqn:Hcat; [|done].
case_decide.
- simpl. by rewrite codes_plus_one_permute, setitem_permute_rows.
- rewrite get_dummies_permute, drop_permute_rows by done.
  destruct (drop [x] df) as [df1|]; simpl; [|done].
  rewrite join_permute_rows. by destruct (join df1 _).
Qed.

Lemma interpolate_step_permute skip df (m : gmap string (option Qc)) x :
has_rows n df →
interpolate_step skip (permute_rows σ df, m) x
= (λ s, (permute_rows σ s.1, s.2)) <$> interpolate_step skip (df, m) x.
Proof.
intros Hrows. rewrite !interpolate_step_eq, getitem_permute_rows.
case_bool_decide; [|done].
destruct (getitem x df) as [col|] eqn:Hx; simpl; [|done].
pose proof (has_rows_getitem _ _ _ _ Hrows Hx) as Hlen.
rewrite is_numeric_dtype_permute. destruct (is_numeric_dtype col); [|done].
simpl. rewrite median_permute by by rewrite Hlen.
rewrite isnull_permute, fillna_permute, !setitem_permute_rows.
by rewrite median_permute by by rewrite col_length_fillna, Hlen.
Qed.

Lemma attr_step_permute dt_field dt_flag feature name df attr :
has_rows n df →
attr_step dt_field dt_flag feature name (permute_rows σ df) attr
= permute_rows σ <$> attr_step dt_field dt_flag feature name df attr.
Proof.
intros Hrows. unfold attr_step. rewrite getitem_permute_rows.
destruct (getitem feature df) as [col|] eqn:Hx; simpl; [|done].
pose proof (has_rows_getitem _ _ _ _ Hrows Hx) as Hlen.
rewrite dt_accessor_permute by by rewrite Hlen.
destruct (dt_accessor _ _ _ col); simpl; [|done].
by rewrite setitem_permute_rows.
Qed.

Lemma date_step_permute parse_datetime dt_field dt_flag attrs drop_column df x :
has_rows n df →
date_step parse_datetime dt_field dt_flag attrs drop_column
  (permute_rows σ df) x
= permute_rows σ
    <$> date_step parse_datetime dt_field dt_flag attrs drop_column df x.
Proof.
intros Hrows.
assert (∀ df1, has_rows n df1 →
  (df2 ← for_each (attr_step dt_field dt_flag x (re_sub_date x)) attrs
           (permute_rows σ df1);
   if drop_column then drop [x] df2 else Some df2)
  = permute_rows σ <$>
      (df2 ← for_each (attr_step dt_field dt_flag x (re_sub_date x)) attrs df1;
       if drop_column then drop [x] df2 else Some df2)) as Htail.
{ intros df1 Hrows1.
  rewrite (for_each_equivariant (permute_rows σ) (has_rows n)); [|..|done].
  - destruct (for_each _ attrs df1) as [df2|]; simpl; [|done].
    destruct drop_column; [|done]. apply drop_permute_rows.
  - intros s a Hs. by apply attr_step_permute.
  - intros s a s' Hs Hstep. by eapply attr_step_rows. }
unfold date_step. rewrite getitem_permute_rows.
destruct (getitem x df) as [col0|] eqn:Hx; simpl; [|done].
pose proof (has_rows_getitem _ _ _ _ Hrows Hx) as Hlen.
rewrite is_datetime64_dtype_permute.
destruct (is_datetime64_dtype col0); simpl.
- by apply Htail.
- rewrite astype_datetime64_permute by by rewrite Hlen.
  destruct (astype_datetime64 _ col0) as [col'|] eqn:Hc; simpl; [|done].
  rewrite setitem_permute_rows. apply Htail.
  apply has_rows_setitem; [done|].
  by rewrite (col_length_astype_datetime64 _ _ _ Hc).
Qed.
End equivariance.

(** ** The row index

    On a frame whose index labels are distinct the join on the index is
    the join by position. *)

Lemma join_rows_unique (index : list Z) :
  NoDup index →
  Indexed.join_rows index = (λ i, (i, i)) <$> seq 0 (length index).
Proof. intros Hnd. unfold Indexed.join_rows. by rewrite decide_True. Qed.

Lemma permute_col_seq (c : column) :
  permute_col (seq 0 (col_length c)) c = c.
Proof. destruct c; simpl; by rewrite permute_seq. Qed.

Lemma permute_rows_seq n (df : table) :
  has_rows n df → permute_rows (seq 0 n) df = df.
Proof.
  unfold has_rows, permute_rows. induction 1 as [|[x c] df Hc _ IH]; [done|].
  rewrite fmap_cons, IH. simpl in *. rewrite <- Hc at 1.
  by rewrite permute_col_seq.
Qed.

Lemma join_unique (index : list Z) (df other : table) :
  NoDup index →
  has_rows (length index) df → has_rows (length index) other →
  Indexed.join index df other = (λ t, (index, t)) <$> join df other.
Proof.
  intros Hnd Hdf Hother. unfold Indexed.join, join.
  case_decide; [|done]. cbv zeta. rewrite join_rows_unique by done.
  rewrite <- !list_fmap_compose.
  change (fst ∘ (λ i : nat, (i, i))) with (@id nat).
  change (snd ∘ (λ i : nat, (i, i))) with (@id nat).
  rewrite list_fmap_id, permute_seq, !permute_rows_seq by done. done.
Qed.

Section unique_index.
Context (index : list Z) (Hindex : NoDup index).
Context (max_categories : Z) (skip : list string).

Lemma numericalize_step_unique (df : table) (m : gmap string mapping) x :
has_rows (length index) df →
Indexed.numericalize_step max_categories skip ((index, df), m) x
= (λ s, ((index, s.1), s.2)) <$> numericalize_step max_categories skip (df, m) x.
Proof.
intros Hrows. unfold Indexed.numericalize_step, numericalize_step.
case_bool_decide; [|done].
destruct (getitem x df) as [col|] eqn:Hx; [|done]. cbn [mbind option_bind].
destruct (is_categorical_dtype col) eqn:Hcat; [|done].
case_decide; [done|].
destruct (drop [x] df) as [df1|] eqn:Hdrop; [|done]. cbn [mbind option_bind].
rewrite join_unique; [|done|by eapply has_rows_drop|].
- by destruct (join df1 _).
- apply has_rows_get_dummies; [done|]. by eapply has_rows_getitem.
Qed.

End unique_index.

Lemma numericalize_categories_unique (index : list Z) (df : table)
    max_categories skip_features :
  NoDup index → has_rows (length index) df →
  Indexed.numericalize_categories (index, df) max_categories skip_features
  = (λ s, ((index, s.1), s.2))
      <$> numericalize_categories df max_categories skip_features.
Proof.
  intros Hindex Hrows.
  unfold Indexed.numericalize_categories, numericalize_categories. cbv zeta.
  cbn [fst snd].
  assert (∀ xs s m,
    has_rows (length index) s →
    for_each (Indexed.numericalize_step max_categories (as_list skip_features))
      xs ((index, s), m)
    = (λ s, ((index, s.1), s.2))
        <$> for_each (numericalize_step max_categories (as_list skip_features))
              xs (s, m)) as Hloop; [|by apply Hloop].
  induction xs as [|x xs IH]; intros s m Hs; [done|]. cbn [for_each].
  rewrite numericalize_step_unique by done.
  destruct (numericalize_step _ _ (s, m) x) as [[s1 m1]|] eqn:Hstep; [|done].
  cbn [mbind option_bind fmap option_fmap option_map fst snd].
  apply IH. by eapply numericalize_step_rows.
Qed.

(** Reordering the rows keeps the row count and the distinctness of the
    index labels. *)
Lemma col_length_permute_col σ (c : column) :
  σ ≡ₚ seq 0 (col_length c) → col_length (permute_col σ c) = col_length c.
Proof. intros Hσ. destruct c; simpl in *; by apply length_permute. Qed.

Lemma has_rows_permute_rows n σ (df : table) :
  σ ≡ₚ seq 0 n → has_rows n df → has_rows n (permute_rows σ df).
Proof.
  intros Hσ Hrows. unfold has_rows, permute_rows in *.
  apply Forall_fmap. eapply Forall_impl; [exact Hrows|].
  intros [x c] Hc. simpl in *. rewrite col_length_permute_col; [done|].
  by rewrite Hc.
Qed.

Lemma NoDup_permute σ (index : list Z) :
  σ ≡ₚ seq 0 (length index) → NoDup index → NoDup (permute σ index).
Proof. intros Hσ Hnd. by rewrite (permute_Permutation σ index Hσ). Qed.
(** ** The rows *)

(** C7 (as amended): on a frame whose index labels are distinct, each of
    the four functions keeps the rows of its input: every column of the
    frame it returns has the row count of the input, the index is the
    index of the input, and the function commutes with every reordering of
    the rows (the output for the reordered input is the reordered output,
    and the one call raises exactly when the other does), so that row [i] of
    the output is made of row [i] of the input. *)
Theorem rows_preserved
    (parse_datetime : string → option Z)
    (dt_field : string → Z → Z) (dt_flag : string → Z → bool)
    (n : nat) (σ : list nat) (index : list Z) (df : table) :
  has_rows n df → length index = n → NoDup index → σ ≡ₚ seq 0 n →
  (∀ ordinal_categorical_features drop_features skip_features,
     (∀ out, convert_to_categorical df
               ordinal_categorical_features drop_features skip_features
             = Some out → has_rows n out) ∧
     convert_to_categorical (permute_rows σ df)
       ordinal_categorical_features drop_features skip_features
     = permute_rows σ <$>
         convert_to_categorical df
           ordinal_categorical_features drop_features skip_features) ∧
  (∀ max_categories skip_features,
     (∀ out mapper,
        Indexed.numericalize_categories (index, df) max_categories skip_features
        = Some (out, mapper) → out.1 = index ∧ has_rows n out.2) ∧
     Indexed.numericalize_categories (permute_frame σ (index, df))
       max_categories skip_features
     = (λ s, (permute_frame σ s.1, s.2)) <$>
         Indexed.numericalize_categories (index, df)
           max_categories skip_features) ∧
  (∀ skip_features,
     (∀ out mapper, interpolate_missing_values df skip_features
                    = Some (out, mapper) → has_rows n out) ∧
     interpolate_missing_values (permute_rows σ df) skip_features
     = (λ s, (permute_rows σ s.1, s.2)) <$>
         interpolate_missing_values df skip_features) ∧
  (∀ date_features time drop_column,
     (∀ out, extract_date_features parse_datetime dt_field dt_flag
               df date_features time drop_column
             = Some out → has_rows n out) ∧
     extract_date_features parse_datetime dt_field dt_flag
       (permute_rows σ df) date_features time drop_column
     = permute_rows σ <$>
         extract_date_features parse_datetime dt_field dt_flag
           df date_features time drop_column).
Proof.
  intros Hrows Hlen Hindex Hσ. split_and!.
  - intros ordinal drop_features skip. unfold convert_to_categorical. split.
    + intros out.
      destruct (drop _ df) as [df1|] eqn:Hdrop; simpl; [|done].
      apply (for_each_preserve _ (has_rows n)); [|by eapply has_rows_drop].
      intros x dfa dfb _ Ha Hstep. by eapply categorical_step_rows.
    + rewrite drop_permute_rows.
      destruct (drop _ df) as [df1|] eqn:Hdrop; simpl; [|done].
      rewrite columns_permute_rows.
      apply (for_each_equivariant (permute_rows σ) (has_rows n)).
      * intros s x Hs. by eapply categorical_step_permute.
      * intros s x s' Hs Hstep. by eapply categorical_step_rows.
      * by eapply has_rows_drop.
  - intros max_categories skip.
    assert (has_rows (length index) df) as Hrows' by by rewrite Hlen.
    assert (σ ≡ₚ seq 0 (length index)) as Hσ' by by rewrite Hlen.
    unfold permute_frame. cbn [fst snd].
    rewrite (numericalize_categories_unique (permute σ index));
      [|by apply NoDup_permute
       |rewrite length_permute by done; by apply has_rows_permute_rows].
    rewrite !(numericalize_categories_unique index) by done.
    split.
    + intros [index' out] mapper.
      destruct (numericalize_categories df _ _) as [[out0 m0]|] eqn:Hrun;
        [|done].
      intros [= <- <- <-]. split; [done|]. revert Hrun.
      unfold numericalize_categories.
      apply (for_each_preserve _ (λ s, has_rows n s.1)); [|done].
      intros x [dfa ma] [dfb mb] _ Ha Hstep.
      by eapply numericalize_step_rows.
    + assert (numericalize_categories (permute_rows σ df) max_categories skip
              = (λ s, (permute_rows σ s.1, s.2)) <$>
                  numericalize_categories df max_categories skip) as ->.
      { unfold numericalize_categories. rewrite columns_permute_rows.
        apply (for_each_equivariant (λ s, (permute_rows σ s.1, s.2))
                 (λ s, has_rows n s.1) _ _ (df, ∅)); [| |done].
        * intros [s m] x Hs. by eapply numericalize_step_permute.
        * intros [s m] x [s' m'] Hs Hstep. by eapply numericalize_step_rows. }
      by destruct (numericalize_categories df _ _) as [[out0 m0]|].
  - intros skip. unfold interpolate_missing_values. split.
    + intros out mapper.
      apply (for_each_preserve _ (λ s, has_rows n s.1)); [|done].
      intros x [dfa ma] [dfb mb] _ Ha Hstep.
      by eapply interpolate_step_rows.
    + rewrite columns_permute_rows.
      apply (for_each_equivariant (λ s, (permute_rows σ s.1, s.2))
               (λ s, has_rows n s.1) _ _ (df, ∅)); [| |done].
      * intros [s m] x Hs. by eapply interpolate_step_permute.
      * intros [s m] x [s' m'] Hs Hstep. by eapply interpolate_step_rows.
  - intros date_features time drop_column. unfold extract_date_features.
    destruct date_features as [|f|fs]; cbn -[for_each]; [done|..].
    all: split;
      [intros out; apply (for_each_preserve _ (has_rows n)); [|done];
       intros x dfa dfb _ Ha Hstep; by eapply date_step_rows
      |apply (for_each_equivariant (permute_rows σ) (has_rows n)); [| |done];
       [intros s x Hs; by eapply date_step_permute
       |intros s x s' Hs Hstep; by eapply date_step_rows]].
Qed.


Lemma rows_preserved_witness :
  (∀ ordinal_categorical_features drop_features skip_features,
     (∀ out, convert_to_categorical mixed_frame
               ordinal_categorical_features drop_features skip_features
             = Some out → has_rows 3 out) ∧
     convert_to_categorical (permute_rows [2; 0; 1] mixed_frame)
       ordinal_categorical_features drop_features skip_features
     = permute_rows [2; 0; 1] <$>
         convert_to_categorical mixed_frame
           ordinal_categorical_features drop_features skip_features) ∧
  (∀ max_categories skip_features,
     (∀ out mapper,
        Indexed.numericalize_categories ([0; 1; 2]%Z, mixed_frame)
          max_categories skip_features
        = Some (out, mapper) → out.1 = [0; 1; 2]%Z ∧ has_rows 3 out.2) ∧
     Indexed.numericalize_categories
       (permute_frame [2; 0; 1] ([0; 1; 2]%Z, mixed_frame))
       max_categories skip_features
     = (λ s, (permute_frame [2; 0; 1] s.1, s.2)) <$>
         Indexed.numericalize_categories ([0; 1; 2]%Z, mixed_frame)
           max_categories skip_features) ∧
  (∀ skip_features,
     (∀ out mapper, interpolate_missing_values mixed_frame skip_features
                    = Some (out, mapper) → has_rows 3 out) ∧
     interpolate_missing_values (permute_rows [2; 0; 1] mixed_frame)
       skip_features
     = (λ s, (permute_rows [2; 0; 1] s.1, s.2)) <$>
         interpolate_missing_values mixed_frame skip_features) ∧
  (∀ date_features time drop_column,
     (∀ out, extract_date_features example_parse example_field example_flag
               mixed_frame date_features time drop_column
             = Some out → has_rows 3 out) ∧
     extract_date_features example_parse example_field example_flag
       (permute_rows [2; 0; 1] mixed_frame) date_features time drop_column
     = permute_rows [2; 0; 1] <$>
         extract_date_features example_parse example_field example_flag
           mixed_frame date_features time drop_column).
Proof.
  apply (rows_preserved example_parse example_field example_flag
           3 [2; 0; 1] [0; 1; 2]%Z mixed_frame).
  - by repeat constructor.
  - reflexivity.
  - by apply (bool_decide_unpack _); vm_compute.
  - apply (Permutation_cons_append [0; 1] 2).
Defined.

(** C7 as stated fails on a frame with a repeated index label: the join
    of the indicator columns matches every row with every row of the same
    label, and the frame of two rows comes back with four. *)
Lemma numericalize_repeated_index_rows :
  ∃ out mapper,
    has_rows 2 two_rows ∧
    Indexed.numericalize_categories ([7; 7]%Z, two_rows) 2 Unset
    = Some (out, mapper) ∧
    out.1 = [7; 7; 7; 7]%Z ∧
    getitem "n" out.2 = Some (Int [10; 10; 20; 20]%Z) ∧
    getitem "c_a" out.2 = Some (Int [1; 0; 1; 0]%Z) ∧
    has_rows 4 out.2.
Proof.
  eexists _, _. split_and!; [by repeat constructor|vm_compute; reflexivity|..].
  - reflexivity.
  - reflexivity.
  - reflexivity.
  - by repeat constructor.
Qed.

(** ** The one-hot branch on a frame with its index *)

(** C2 (as amended): on a frame whose index labels are distinct, a
    categorical column that is not skipped and has at most [max_categories]
    categories is replaced by one 0/1 indicator column per category, named
    [{column}_{category}]; the mapper records the marker ['one-hot'] for it;
    the original column is dropped, and no column of its label is in the
    output unless its label is the indicator label [{c'}_{k}] of a category
    [k] of another column [c'] that is expanded; and at every row the
    indicator columns sum to 1 when the entry is not missing and to 0 when
    it is. *)
Theorem numericalize_one_hot index df max_categories skip_features out mapper
    c o cats codes :
  wf_table df → NoDup index → has_rows (length index) df →
  getitem c df = Some (Categorical o cats codes) →
  c ∉ as_list skip_features →
  (Z.of_nat (length cats) ≤ max_categories)%Z →
  Indexed.numericalize_categories (index, df) max_categories skip_features
  = Some (out, mapper) →
  out.1 = index ∧
  (∀ k cat, cats !! k = Some cat →
     getitem (c +:+ "_" +:+ cat) out.2 = Some (Int (indicator k codes))) ∧
  mapper !! c = Some OneHot ∧
  ((∀ c' col' k,
      getitem c' df = Some col' → is_categorical_dtype col' = true →
      c' ∉ as_list skip_features →
      (Z.of_nat (length (cat_categories col')) ≤ max_categories)%Z →
      k ∈ cat_categories col' → c ≠ c' +:+ "_" +:+ k) →
   c ∉ columns out.2) ∧
  (∀ i code, codes !! i = Some code →
     one_hot_row_sum out.2 c cats i
     = if decide (code = (-1)%Z) then 0%Z else 1%Z).
Proof.
  intros Hwf Hindex Hrows Hc Hskip Hmax.
  rewrite numericalize_categories_unique by done.
  destruct (numericalize_categories df _ _) as [[out0 m0]|] eqn:Hrun; [|done].
  intros [= <- <-]. cbn [fst snd]. split; [done|].
  pose proof (wf_table_column _ _ _ Hwf Hc) as (Hndc & _ & Hcodes).
  destruct (numericalize_one_hot_run _ _ _ _ _ _ (Categorical o cats codes)
              (proj1 Hwf) Hndc Hc eq_refl Hskip Hmax Hrun) as (Hcols & Hm & Hdropped).
  simpl in Hcols. split_and!; [done..|].
  intros i code Hi. unfold one_hot_row_sum.
  set (g := λ n : nat, if decide (code = Z.of_nat n) then 1%Z else 0%Z).
  rewrite <-imap_const, (imap_ext _ (λ k _, g k)).
  - rewrite (imap_seq_0 cats g). unfold g. rewrite zsum_indicator.
    rewrite Forall_lookup in Hcodes. specialize (Hcodes _ _ Hi). simpl in Hcodes.
    repeat case_decide; lia.
  - intros k cat Hk. simpl. rewrite (Hcols _ _ Hk). unfold indicator, g.
    by rewrite list_lookup_fmap, Hi.
Qed.

Lemma numericalize_one_hot_witness :
  ∃ out mapper,
    Indexed.numericalize_categories ([0; 1; 2]%Z, docs_categorical) 3 Unset
    = Some (out, mapper) ∧
    out.1 = [0; 1; 2]%Z ∧
    (∀ k cat, ["High"; "Low"; "Medium"] !! k = Some cat →
       getitem ("col3" +:+ "_" +:+ cat) out.2
       = Some (Int (indicator k [1; 2; 0]%Z))) ∧
    mapper !! "col3" = Some OneHot ∧
    ((∀ c' col' k,
        getitem c' docs_categorical = Some col' →
        is_categorical_dtype col' = true → c' ∉ as_list Unset →
        (Z.of_nat (length (cat_categories col')) ≤ 3)%Z →
        k ∈ cat_categories col' → "col3" ≠ c' +:+ "_" +:+ k) →
     "col3" ∉ columns out.2) ∧
    (∀ i code, [1; 2; 0]%Z !! i = Some code →
       one_hot_row_sum out.2 "col3" ["High"; "Low"; "Medium"] i
       = if decide (code = (-1)%Z) then 0%Z else 1%Z).
Proof.
  eexists _, _. split; [vm_compute; reflexivity|].
  eapply (numericalize_one_hot [0; 1; 2]%Z docs_categorical 3 Unset);
    [solve_wf_table | by apply (bool_decide_unpack _); vm_compute
    | by repeat constructor | reflexivity | apply not_elem_of_nil | simpl; lia
    | vm_compute; reflexivity].
Defined.

(** C2 as stated fails at a row whose entry is missing, where every
    indicator column is 0, and for a column labelled as an indicator column
    of a column expanded after it: the output holds a column of its label. *)
Lemma numericalize_one_hot_missing_row :
  (∃ out mapper,
     Indexed.numericalize_categories ([0; 1]%Z, gaps_categorical) 1 Unset
     = Some (out, mapper) ∧
     getitem "c_a" out.2 = Some (Int [1; 0]%Z) ∧
     one_hot_row_sum out.2 "c" ["a"] 1 ≠ 1%Z) ∧
  (∃ out mapper,
     Indexed.numericalize_categories ([0; 1]%Z, clash_one_hot) 1 Unset
     = Some (out, mapper) ∧
     mapper !! "x_y" = Some OneHot ∧
     getitem "x_y" out.2 = Some (Int [1; 0]%Z)).
Proof.
  split; eexists _, _.
  - split_and!; [vm_compute; reflexivity..|]. by vm_compute.
  - split_and!; vm_compute; reflexivity.
Qed.

(** * Further properties of the four functions *)

Ltac by_computation := by apply (bool_decide_unpack _); vm_compute.

Ltac no_indicator_label :=
  apply Forall_forall; by_computation.

(** ** Categorical conversion: labels, untouched columns, repetition *)

(** Dropping no label gives the frame back. *)
Lemma drop_nil (df : table) : drop [] df = Some df.
Proof.
  unfold drop. rewrite decide_True by constructor. f_equal.
  induction df as [|nc df IH]; [done|].
  rewrite filter_cons_True by apply not_elem_of_nil. by f_equal.
Qed.

(** A loop whose body changes nothing changes nothing. *)
Lemma for_each_fixed {S : Type} (body : S → string → option S) xs s :
  (∀ x, x ∈ xs → body s x = Some s) → for_each body xs s = Some s.
Proof.
  induction xs as [|x xs IH]; intros Hfix; simpl; [done|].
  rewrite Hfix by left. simpl. apply IH. intros y Hy. apply Hfix. by right.
Qed.

Lemma categorical_step_columns ordinal skip (df df' : table) x :
  categorical_step ordinal skip df x = Some df' → columns df' = columns df.
Proof.
  rewrite categorical_step_eq. case_bool_decide; [|by intros [= <-]].
  destruct (getitem x df) as [col|] eqn:Hx; [|done].
  destruct (is_string_dtype col); intros [= <-]; [|done].
  apply columns_setitem_in. by eapply getitem_elem.
Qed.

(** Once the column of a label is no text column, it stays what it is. *)
Lemma categorical_step_settled ordinal skip (df df' : table) x c col :
  getitem c df = Some col → is_string_dtype col = false →
  categorical_step ordinal skip df x = Some df' →
  getitem c df' = Some col.
Proof.
  intros Hc Hcol Hstep. destruct (decide (x = c)) as [->|Hne].
  - rewrite categorical_step_eq, Hc, Hcol in Hstep.
    by case_bool_decide; injection Hstep as <-.
  - by erewrite categorical_step_getitem.
Qed.

Lemma categorical_step_skipped ordinal skip (df df' : table) x c :
  c ∈ skip → categorical_step ordinal skip df x = Some df' →
  getitem c df' = getitem c df.
Proof.
  intros Hc Hstep. destruct (decide (x = c)) as [->|Hne].
  - rewrite categorical_step_eq, bool_decide_eq_false_2 in Hstep by tauto.
    by injection Hstep as <-.
  - by erewrite categorical_step_getitem.
Qed.

Lemma is_string_dtype_astype_category col :
  is_string_dtype (astype_category col) = false.
Proof. by destruct col. Qed.

Lemma is_string_dtype_as_ordered col :
  is_string_dtype (as_ordered col) = is_string_dtype col.
Proof. by destruct col. Qed.

(** After the iteration of a label that is not skipped, its column is no
    text column. *)
Lemma categorical_step_converts ordinal skip (df df' : table) x :
  x ∉ skip → categorical_step ordinal skip df x = Some df' →
  ∃ col, getitem x df' = Some col ∧ is_string_dtype col = false.
Proof.
  intros Hx. rewrite categorical_step_eq, bool_decide_eq_true_2 by done.
  destruct (getitem x df) as [col|] eqn:Hcol; [|done].
  destruct (is_string_dtype col) eqn:Hs; intros [= <-]; [|by exists col].
  rewrite getitem_setitem_eq. eexists; split; [done|].
  case_bool_decide;
    by rewrite ?is_string_dtype_as_ordered, is_string_dtype_astype_category.
Qed.

Lemma categorical_loop_converts ordinal skip xs (df out : table) x :
  x ∈ xs → x ∉ skip →
  for_each (categorical_step ordinal skip) xs df = Some out →
  ∃ col, getitem x out = Some col ∧ is_string_dtype col = false.
Proof.
  intros Hx Hskip Hrun.
  apply for_each_visit with (c := x) in Hrun
    as (pre & post & s1 & s2 & _ & _ & Hstep & Hpost); [|done].
  apply categorical_step_converts in Hstep as (col & Hcol & Hs); [|done].
  exists col. split; [|done]. revert Hpost.
  apply (for_each_preserve _ (λ s, getitem x s = Some col)); [|done].
  intros y sa sb _ Ha Hy. by eapply categorical_step_settled.
Qed.

(** X1: the labels of the output of [convert_to_categorical] are the labels
    of the input that are not dropped, in the order of the input: a dropped
    column is absent and no column is added or moved. *)
Theorem convert_to_categorical_columns df
    ordinal_categorical_features drop_features skip_features out :
  convert_to_categorical df
    ordinal_categorical_features drop_features skip_features = Some out →
  columns out = filter (λ c, c ∉ as_list drop_features) (columns df).
Proof.
  unfold convert_to_categorical. cbv zeta.
  destruct (drop _ df) as [df'|] eqn:Hdrop; [|done]. simpl.
  rewrite <- (columns_drop _ _ _ Hdrop). generalize (columns df') at 1.
  intros xs. apply (for_each_preserve _ (λ s, columns s = columns df')); [|done].
  intros x s1 s2 _ <-. apply categorical_step_columns.
Qed.

Lemma convert_to_categorical_columns_witness :
  ∃ out,
    convert_to_categorical docs_text Unset (Name "col1") (Name "col2")
      = Some out ∧
    columns out = filter (λ c, c ∉ as_list (Name "col1")) (columns docs_text).
Proof.
  eexists. split; [reflexivity|].
  apply (convert_to_categorical_columns docs_text
           Unset (Name "col1") (Name "col2")).
  reflexivity.
Defined.

(** X2: [convert_to_categorical] changes text columns only: a column that
    is not dropped and holds no text (numbers, booleans, timestamps or
    categories) is in the output as it was, whatever the ordinal and skip
    sets say about it. *)
Theorem convert_to_categorical_keeps_other_types df
    ordinal_categorical_features drop_features skip_features out c col :
  getitem c df = Some col → is_string_dtype col = false →
  c ∉ as_list drop_features →
  convert_to_categorical df
    ordinal_categorical_features drop_features skip_features = Some out →
  getitem c out = Some col.
Proof.
  intros Hc Hcol Hdrop. unfold convert_to_categorical. cbv zeta.
  destruct (drop _ df) as [df'|] eqn:Hdf'; [|done]. simpl.
  apply (for_each_preserve _ (λ s, getitem c s = Some col)).
  - intros x s1 s2 _ Hs1. by apply categorical_step_settled.
  - by rewrite (getitem_drop _ _ _ _ Hdf'), decide_False.
Qed.

Lemma convert_to_categorical_keeps_other_types_witness :
  ∃ out,
    convert_to_categorical docs_text (Name "col1") Unset Unset = Some out ∧
    getitem "col1" out = Some (Int [1; 2; 3]%Z).
Proof.
  eexists. split; [reflexivity|].
  apply (convert_to_categorical_keeps_other_types docs_text
           (Name "col1") Unset Unset);
    [reflexivity | reflexivity | apply not_elem_of_nil | reflexivity].
Defined.

(** X3: converting again changes nothing: the output of
    [convert_to_categorical] is returned as it is by a second call with the
    same skip set, whatever ordinal set the second call is given; a column
    converted without an order is not given one by converting again. *)
Theorem convert_to_categorical_again df
    ordinal_categorical_features drop_features skip_features out :
  convert_to_categorical df
    ordinal_categorical_features drop_features skip_features = Some out →
  ∀ ordinal_categorical_features',
    convert_to_categorical out
      ordinal_categorical_features' Unset skip_features = Some out.
Proof.
  intros Hrun ordinal'. unfold convert_to_categorical in *. cbv zeta in *.
  destruct (drop _ df) as [df'|] eqn:Hdf'; [|done]. simpl in Hrun.
  assert (columns out = columns df') as Hcols.
  { revert Hrun. generalize (columns df') at 1. intros xs.
    apply (for_each_preserve _ (λ s, columns s = columns df')); [|done].
    intros x s1 s2 _ <-. apply categorical_step_columns. }
  change (as_list Unset) with (@nil string). rewrite drop_nil. simpl. apply for_each_fixed. intros x Hx. rewrite categorical_step_eq.
  case_bool_decide as Hskip; [|done].
  rewrite Hcols in Hx.
  destruct (categorical_loop_converts _ _ _ _ _ x Hx Hskip Hrun)
    as (col & -> & ->). done.
Qed.

Lemma convert_to_categorical_again_witness :
  ∃ out,
    convert_to_categorical docs_text Unset (Name "col1") (Name "col2")
      = Some out ∧
    ∀ ordinal_categorical_features',
      convert_to_categorical out ordinal_categorical_features' Unset
        (Name "col2") = Some out.
Proof.
  eexists. split; [reflexivity|].
  apply (convert_to_categorical_again docs_text
           Unset (Name "col1") (Name "col2")).
  reflexivity.
Defined.

(** ** Categorical conversion: the categories and their codes *)

Lemma code_of_range cats v :
  (-1 ≤ code_of cats v < Z.of_nat (length cats))%Z ∨
  (code_of cats v = (-1)%Z).
Proof.
  destruct v as [s|]; simpl; [|by right].
  destruct (index_of s cats) as [i|] eqn:Hi; simpl; [|by right].
  apply index_of_Some, lookup_lt_Some in Hi. left. lia.
Qed.

Lemma code_of_bounds cats vs :
  Forall (λ k : Z, (-1 ≤ k)%Z ∧ ((k < Z.of_nat (length cats))%Z ∨ k = (-1)%Z))
    (code_of cats <$> vs).
Proof.
  apply Forall_fmap, Forall_forall. intros v _. simpl.
  destruct (code_of_range cats v) as [?|Heq]; [lia|]. rewrite Heq. lia.
Qed.

(** The converted column of a text column of the frame. *)
Lemma convert_to_categorical_text df
    ordinal_categorical_features drop_features skip_features out c vs :
  NoDup (columns df) → getitem c df = Some (Text vs) →
  c ∉ as_list drop_features → c ∉ as_list skip_features →
  convert_to_categorical df
    ordinal_categorical_features drop_features skip_features = Some out →
  NoDup (columns out) ∧
  getitem c out =
    Some (Categorical (bool_decide (c ∈ as_list ordinal_categorical_features))
            (merge_sort String.le (remove_dups (omap id vs)))
            (code_of (merge_sort String.le (remove_dups (omap id vs))) <$> vs)).
Proof.
  intros Hnd Hc Hdrop Hskip Hrun.
  unfold convert_to_categorical in Hrun. cbv zeta in Hrun.
  destruct (drop _ df) as [df'|] eqn:Hdf'; [|done]. simpl in Hrun. split.
  { revert Hrun. generalize (columns df') at 1. intros xs.
    apply (for_each_preserve _ (λ s, NoDup (columns s)));
      [|by eapply drop_NoDup].
    intros x s1 s2 _ Hs1 Hstep. by rewrite (categorical_step_columns _ _ _ _ _ Hstep). }
  eapply categorical_loop_text in Hrun;
    [|by eapply drop_NoDup
     |by rewrite (getitem_drop _ _ _ _ Hdf'), decide_False].
  rewrite Hrun, bool_decide_eq_true_2 by done.
  destruct (bool_decide (c ∈ as_list ordinal_categorical_features));
    reflexivity.
Qed.

(** X4: the categories of a converted text column are the values the
    column holds, each once, in increasing order of the strings (character
    by character, by character code); every code is [-1] or the position
    of a category, and there is one code per row. *)
Theorem convert_to_categorical_categories df
    ordinal_categorical_features drop_features skip_features out c vs :
  NoDup (columns df) → getitem c df = Some (Text vs) →
  c ∉ as_list drop_features → c ∉ as_list skip_features →
  convert_to_categorical df
    ordinal_categorical_features drop_features skip_features = Some out →
  ∃ o cats codes,
    getitem c out = Some (Categorical o cats codes) ∧
    NoDup cats ∧ Sorted String.le cats ∧
    (∀ s, s ∈ cats ↔ Some s ∈ vs) ∧
    length codes = length vs ∧
    Forall (λ k, k = (-1)%Z ∨ (0 ≤ k < Z.of_nat (length cats))%Z) codes.
Proof.
  intros Hnd Hc Hdrop Hskip Hrun.
  destruct (convert_to_categorical_text _ _ _ _ _ _ _ Hnd Hc Hdrop Hskip Hrun)
    as [_ Hout].
  destruct (astype_category_Text vs) as (cats & codes & Heq & ? & ? & ? & _).
  simpl in Heq. injection Heq as <- <-.
  eexists _, _, _. split; [exact Hout|]. split_and!; try done.
  - by rewrite length_fmap.
  - eapply Forall_impl; [apply code_of_bounds|]. simpl. lia.
Qed.

Lemma convert_to_categorical_categories_witness :
  ∃ out,
    convert_to_categorical docs_text (Name "col3") Unset Unset = Some out ∧
    ∃ o cats codes,
      getitem "col3" out = Some (Categorical o cats codes) ∧
      NoDup cats ∧ Sorted String.le cats ∧
      (∀ s, s ∈ cats ↔ Some s ∈ [Some "Low"; Some "Medium"; Some "High"]) ∧
      length codes = length [Some "Low"; Some "Medium"; Some "High"] ∧
      Forall (λ k, k = (-1)%Z ∨ (0 ≤ k < Z.of_nat (length cats))%Z) codes.
Proof.
  eexists. split; [reflexivity|].
  apply (convert_to_categorical_categories docs_text (Name "col3") Unset Unset);
    [by_computation | reflexivity | apply not_elem_of_nil
    | apply not_elem_of_nil | reflexivity].
Defined.

(** ** Numericalization: untouched columns, the mapper, repetition *)

Section numericalize_more.
Context (max_categories : Z) (skip : list string).
Implicit Types (df : table) (m : gmap string mapping).

Lemma numericalize_step_eq df m x :
  numericalize_step max_categories skip (df, m) x =
    if bool_decide (x ∉ skip) then
      match getitem x df with
      | None => None
      | Some col =>
          if is_categorical_dtype col then
            if decide (max_categories < Z.of_nat (length (cat_categories col)))%Z
            then Some (setitem x (codes_plus_one col) df,
                       <[x := Coded (enumerate (cat_categories col))]> m)
            else
              df1 ← drop [x] df;
              df2 ← join df1 (get_dummies col x);
              Some (df2, <[x := OneHot]> m)
          else Some (df, m)
      end
    else Some (df, m).
Proof.
  unfold numericalize_step. case_bool_decide; [|done].
  by destruct (getitem x df).
Qed.

(** An iteration leaves a column that is skipped or holds no categories,
    and the mapper entry of its label, as they are. *)
Lemma numericalize_step_kept df m df' m' x c col :
  getitem c df = Some col →
  c ∈ skip ∨ is_categorical_dtype col = false →
  numericalize_step max_categories skip (df, m) x = Some (df', m') →
  getitem c df' = Some col ∧ m' !! c = m !! c.
Proof.
  intros Hc Hkept Hstep. destruct (decide (x = c)) as [->|Hne].
  - rewrite numericalize_step_eq, Hc in Hstep.
    destruct Hkept as [Hskip|Hcat]; [|rewrite Hcat in Hstep].
    + rewrite bool_decide_eq_false_2 in Hstep by tauto.
      by injection Hstep as <- <-.
    + by case_bool_decide; injection Hstep as <- <-.
  - split; [by eapply numericalize_step_getitem
           |by eapply numericalize_step_mapper].
Qed.

Lemma get_dummies_Int col prefix n c :
  getitem n (get_dummies col prefix) = Some c → is_categorical_dtype c = false.
Proof.
  intros Hn%getitem_Some_elem. unfold get_dummies in Hn.
  apply list_elem_of_lookup in Hn as [i Hi]. rewrite list_lookup_imap in Hi.
  destruct (cat_categories col !! i); by simplify_eq/=.
Qed.

(** After the iteration of a label that is not skipped, no column of that
    label holds categories. *)
Lemma numericalize_step_converts df m df' m' x col :
  x ∉ skip →
  numericalize_step max_categories skip (df, m) x = Some (df', m') →
  getitem x df' = Some col → is_categorical_dtype col = false.
Proof.
  intros Hx. rewrite numericalize_step_eq, bool_decide_eq_true_2 by done.
  destruct (getitem x df) as [colx|] eqn:Hcolx; [|done].
  destruct (is_categorical_dtype colx) eqn:Hcat.
  - case_decide.
    + intros [= <- <-]. rewrite getitem_setitem_eq. by intros [= <-].
    + destruct (drop [x] df) as [df1|] eqn:Hdrop; simpl; [|done].
      destruct (join df1 _) as [df2|] eqn:Hjoin; simpl; [|done].
      intros [= <- <-]. apply join_Some in Hjoin as [-> _].
      rewrite getitem_app, (getitem_drop _ _ _ _ Hdrop).
      rewrite decide_True by by left. apply get_dummies_Int.
  - intros [= <- <-]. rewrite Hcolx. by intros [= <-].
Qed.

(** A column that holds categories after an iteration held them before. *)
Lemma numericalize_step_categorical df m df' m' x c col :
  x ≠ c →
  numericalize_step max_categories skip (df, m) x = Some (df', m') →
  getitem c df' = Some col → is_categorical_dtype col = true →
  getitem c df = Some col.
Proof.
  intros Hne. rewrite numericalize_step_eq.
  case_bool_decide; [|by intros [= <- <-]].
  destruct (getitem x df) as [colx|] eqn:Hcolx; [|done].
  destruct (is_categorical_dtype colx); [|by intros [= <- <-]].
  case_decide.
  - intros [= <- <-]. by rewrite getitem_setitem_ne.
  - destruct (drop [x] df) as [df1|] eqn:Hdrop; simpl; [|done].
    destruct (join df1 _) as [df2|] eqn:Hjoin; simpl; [|done].
    intros [= <- <-]. apply join_Some in Hjoin as [-> _].
    rewrite getitem_app, (getitem_drop _ _ _ _ Hdrop).
    rewrite decide_False by by intros ->%list_elem_of_singleton.
    destruct (getitem c df); [done|].
    intros Hd%get_dummies_Int. congruence.
Qed.

(** Once no column of a label that is not skipped holds categories, none
    does after an iteration. *)
Lemma numericalize_step_settled df m df' m' x c :
  c ∉ skip →
  (∀ col, getitem c df = Some col → is_categorical_dtype col = false) →
  numericalize_step max_categories skip (df, m) x = Some (df', m') →
  ∀ col, getitem c df' = Some col → is_categorical_dtype col = false.
Proof.
  intros Hskip Hc Hstep col Hcol. destruct (decide (x = c)) as [->|Hne].
  - by eapply numericalize_step_converts.
  - destruct (is_categorical_dtype col) eqn:Hcat; [|done].
    rewrite <- Hcat. apply Hc. by eapply numericalize_step_categorical.
Qed.

Lemma numericalize_loop_converts xs df m df' m' c col :
  c ∉ skip → c ∈ xs ∨ c ∉ columns df →
  for_each (numericalize_step max_categories skip) xs (df, m) = Some (df', m') →
  getitem c df' = Some col → is_categorical_dtype col = false.
Proof.
  intros Hskip Hc Hrun.
  pose (P := λ s : table * gmap string mapping,
               ∀ col, getitem c s.1 = Some col → is_categorical_dtype col = false).
  assert (∀ ys s s', P s →
            for_each (numericalize_step max_categories skip) ys s = Some s' →
            P s') as Hkeep.
  { intros ys s s' Hs. apply (for_each_preserve _ P); [|done].
    intros x [dfa ma] [dfb mb] _ Ha Hstep. unfold P in *. simpl in *.
    by eapply numericalize_step_settled. }
  revert col. change (P (df', m')). destruct Hc as [Hc|Hc].
  - apply for_each_visit with (c := c) in Hrun
      as (pre & post & [df1 m1] & [df2 m2] & _ & _ & Hstep & Hpost); [|done].
    apply (Hkeep post (df2, m2)); [|done]. intros col.
    by apply (numericalize_step_converts _ _ _ _ _ col Hskip Hstep).
  - apply (Hkeep _ _ _) in Hrun; [done|]. intros col Hcol; simpl in *.
    by apply getitem_elem in Hcol.
Qed.
End numericalize_more.

(** A column that is skipped, or holds no categories, passes through the
    loop unchanged. *)
Lemma numericalize_kept_run df max_categories skip_features out mapper c col :
  getitem c df = Some col →
  c ∈ as_list skip_features ∨ is_categorical_dtype col = false →
  numericalize_categories df max_categories skip_features = Some (out, mapper) →
  getitem c out = Some col.
Proof.
  intros Hc Hkept. unfold numericalize_categories. cbv zeta.
  apply (for_each_preserve _ (λ s, getitem c s.1 = Some col)); [|done].
  intros x [dfa ma] [dfb mb] _ Ha Hstep. simpl in *.
  by destruct (numericalize_step_kept _ _ _ _ _ _ _ _ _ Ha Hkept Hstep).
Qed.

(** X5: on a frame whose index labels are distinct, a column that is
    skipped, or holds no categories, passes through
    [numericalize_categories] unchanged, row by row, and the index of the
    output is that of the input. *)
Theorem numericalize_keeps_other_columns index df max_categories skip_features
    out mapper c col :
  NoDup index → has_rows (length index) df →
  getitem c df = Some col →
  c ∈ as_list skip_features ∨ is_categorical_dtype col = false →
  Indexed.numericalize_categories (index, df) max_categories skip_features
  = Some (out, mapper) →
  out.1 = index ∧ getitem c out.2 = Some col.
Proof.
  intros Hindex Hrows Hc Hkept.
  rewrite numericalize_categories_unique by done.
  destruct (numericalize_categories df _ _) as [[out0 m0]|] eqn:Hrun; [|done].
  intros [= <- <-]. cbn [fst snd]. split; [done|].
  by eapply numericalize_kept_run.
Qed.

Lemma numericalize_keeps_other_columns_witness :
  ∃ out mapper,
    Indexed.numericalize_categories ([0; 1; 2]%Z, docs_categorical) 2
      (Name "col3") = Some (out, mapper) ∧
    out.1 = [0; 1; 2]%Z ∧
    getitem "col3" out.2
      = Some (Categorical false ["High"; "Low"; "Medium"] [1; 2; 0]%Z).
Proof.
  eexists _, _. split; [vm_compute; reflexivity|].
  eapply (numericalize_keeps_other_columns [0; 1; 2]%Z docs_categorical 2
            (Name "col3"));
    [by_computation | by repeat constructor | reflexivity
    | left; apply list_elem_of_singleton; reflexivity
    | vm_compute; reflexivity].
Defined.

(** The mapper has no entry for a column that is skipped or holds no
    categories. *)
Lemma numericalize_mapper_kept df max_categories skip_features out mapper c col :
  getitem c df = Some col →
  c ∈ as_list skip_features ∨ is_categorical_dtype col = false →
  numericalize_categories df max_categories skip_features = Some (out, mapper) →
  mapper !! c = None.
Proof.
  intros Hc Hkept. unfold numericalize_categories. cbv zeta.
  apply (for_each_preserve _ (λ s, getitem c s.1 = Some col ∧ s.2 !! c = None));
    [|split; [done|apply lookup_empty]].
  intros x [dfa ma] [dfb mb] _ [Ha Hm] Hstep. simpl in *.
  destruct (numericalize_step_kept _ _ _ _ _ _ _ _ _ Ha Hkept Hstep)
    as [? Hmb].
  by rewrite Hmb.
Qed.

(** X6: the category mapper is determined by the input frame: it holds
    an entry for exactly the categorical columns that are not skipped, the
    dictionary of the categories by position for a column with more than
    [max_categories] categories and the marker ['one-hot'] for the others. *)
Theorem numericalize_mapper_entries df max_categories skip_features
    out mapper c :
  NoDup (columns df) →
  numericalize_categories df max_categories skip_features = Some (out, mapper) →
  mapper !! c =
    match getitem c df with
    | Some col =>
        if bool_decide (c ∉ as_list skip_features) && is_categorical_dtype col
        then Some (if decide (max_categories
                              < Z.of_nat (length (cat_categories col)))%Z
                   then Coded (enumerate (cat_categories col))
                   else OneHot)
        else None
    | None => None
    end.
Proof.
  intros Hnd Hrun. destruct (getitem c df) as [col|] eqn:Hc.
  - case_bool_decide as Hskip; simpl;
      [destruct (is_categorical_dtype col) eqn:Hcat|].
    + unfold numericalize_categories in Hrun. cbv zeta in Hrun.
      apply for_each_split with (c := c) in Hrun
        as (pre & post & [df1 m1] & [df2 m2] & Hcols & Hpre & Hpost
            & H1 & H2 & H3); [|done|by eapply getitem_elem].
      assert (getitem c df1 = Some col) as Hc1.
      { revert H1.
        apply (for_each_preserve _ (λ s, getitem c s.1 = Some col)); [|done].
        intros x [dfa ma] [dfb mb] Hx Ha Hstep. simpl in *.
        eapply numericalize_step_getitem; [|done..]. by intros ->. }
      rewrite numericalize_step_eq, bool_decide_eq_true_2, Hc1, Hcat in H2
        by done.
      assert (m2 !! c =
                Some (if decide (max_categories
                                 < Z.of_nat (length (cat_categories col)))%Z
                      then Coded (enumerate (cat_categories col))
                      else OneHot)) as Hm2.
      { case_decide.
        - injection H2 as <- <-. by rewrite lookup_insert_eq.
        - destruct (drop [c] df1) as [dfd|]; simpl in H2; [|done].
          destruct (join dfd _) as [dfj|]; simpl in H2; [|done].
          injection H2 as <- <-. by rewrite lookup_insert_eq. }
      revert H3. rewrite <- Hm2.
      apply (for_each_preserve _ (λ s, s.2 !! c = m2 !! c)); [|done].
      intros x [dfa ma] [dfb mb] Hx Ha Hstep. simpl in *.
      rewrite <- Ha. eapply numericalize_step_mapper; [|done]. by intros ->.
    + eapply numericalize_mapper_kept; [done| |done]. by right.
    + eapply numericalize_mapper_kept; [done| |done].
      left. by destruct (decide (c ∈ as_list skip_features)).
  - revert Hrun. unfold numericalize_categories. cbv zeta.
    apply (for_each_preserve _ (λ s, s.2 !! c = None));
      [|apply lookup_empty].
    intros x [dfa ma] [dfb mb] Hx Ha Hstep. simpl in *.
    rewrite <- Ha. eapply numericalize_step_mapper; [|done].
    intros ->. by apply getitem_None in Hc.
Qed.

Lemma numericalize_mapper_entries_witness :
  ∃ out mapper,
    numericalize_categories docs_categorical 2 Unset = Some (out, mapper) ∧
    mapper !! "col3"
      = Some (Coded (enumerate ["High"; "Low"; "Medium"])).
Proof.
  eexists _, _. split; [vm_compute; reflexivity|].
  eapply (numericalize_mapper_entries docs_categorical 2 Unset);
    [by_computation | vm_compute; reflexivity].
Defined.

(** The labels stay distinct: an iteration replaces a column in place,
    or drops it and adds the indicator columns of its categories, which are
    distinct and new. *)
Lemma numericalize_step_NoDup max_categories skip (df df' : table)
    (m m' : gmap string mapping) x :
  NoDup (columns df) →
  (∀ col, getitem x df = Some col → NoDup (cat_categories col)) →
  numericalize_step max_categories skip (df, m) x = Some (df', m') →
  NoDup (columns df').
Proof.
  intros Hnd Hcats. rewrite numericalize_step_eq.
  case_bool_decide; [|by intros [= <- <-]].
  destruct (getitem x df) as [col|] eqn:Hx; [|done].
  destruct (is_categorical_dtype col); [|by intros [= <- <-]].
  case_decide.
  - intros [= <- <-]. by apply NoDup_columns_setitem.
  - destruct (drop [x] df) as [df1|] eqn:Hdrop; simpl; [|done].
    destruct (join df1 _) as [df2|] eqn:Hjoin; simpl; [|done].
    intros [= <- <-]. apply join_Some in Hjoin as [-> Hfresh].
    rewrite columns_app. apply NoDup_app. split_and!.
    + by eapply drop_NoDup.
    + intros y Hy Hy'. rewrite Forall_forall in Hfresh.
      by apply (Hfresh y).
    + rewrite columns_get_dummies. apply NoDup_fmap_2; [|by apply Hcats].
      intros a b Hab. by do 2 apply String.app_inj in Hab.
Qed.

Lemma numericalize_NoDup df max_categories skip_features out mapper :
  wf_table df →
  numericalize_categories df max_categories skip_features = Some (out, mapper) →
  NoDup (columns out).
Proof.
  intros Hwf Hrun. unfold numericalize_categories in Hrun. cbv zeta in Hrun.
  pose (I := λ (rest : list string) (st : table * gmap string mapping),
    NoDup rest ∧ NoDup (columns st.1) ∧
    ∀ y, y ∈ rest → y ∈ columns df ∧ getitem y st.1 = getitem y df).
  assert (I [] (out, mapper)) as (_ & ? & _); [|done].
  revert Hrun. apply (for_each_pending _ I).
  - intros x rest [dfa ma] [dfb mb] (Hndr & Hnda & Hget) Hstep.
    apply NoDup_cons in Hndr as [Hxrest Hndr]. cbn [fst] in *.
    split_and!; [done| |].
    + eapply numericalize_step_NoDup; [done| |done].
      intros col Hcol. destruct (Hget x) as [_ Hx]; [by left|].
      rewrite Hx in Hcol.
      pose proof (wf_table_column _ _ _ Hwf Hcol) as Hwfc.
      destruct col; try by constructor. apply Hwfc.
    + intros y Hy. destruct (Hget y) as [Hin Hy']; [by right|].
      split; [done|]. rewrite <- Hy'.
      apply getitem_is_Some in Hin as [coly Hcoly]. rewrite Hcoly in Hy'.
      rewrite Hy'. eapply numericalize_step_getitem; [|done..].
      by intros ->.
  - split_and!; [apply Hwf..|]. by intros y Hy.
Qed.

(** X7: on a frame with distinct labels and well-formed categorical
    columns, after [numericalize_categories] no column outside the skip set
    holds categories, so that a second call with the same skip set, whatever
    its threshold, returns the frame as it is, with an empty mapper. *)
Theorem numericalize_categories_again df max_categories skip_features
    out mapper :
  wf_table df →
  numericalize_categories df max_categories skip_features = Some (out, mapper) →
  NoDup (columns out) ∧
  (∀ c col, (c, col) ∈ out → c ∉ as_list skip_features →
            is_categorical_dtype col = false) ∧
  ∀ max_categories',
    numericalize_categories out max_categories' skip_features = Some (out, ∅).
Proof.
  intros Hwf Hrun.
  pose proof (numericalize_NoDup _ _ _ _ _ Hwf Hrun) as Hnd.
  assert (∀ c col, getitem c out = Some col → c ∉ as_list skip_features →
                   is_categorical_dtype col = false) as Hout.
  { intros c col Hc Hskip. unfold numericalize_categories in Hrun.
    eapply numericalize_loop_converts; [exact Hskip| |exact Hrun|exact Hc].
    destruct (decide (c ∈ columns df)); tauto. }
  split_and!; [done| |].
  - intros c col Hin. apply Hout. by apply getitem_NoDup.
  - intros max'. unfold numericalize_categories. cbv zeta.
    apply for_each_fixed. intros x Hx. rewrite numericalize_step_eq.
    case_bool_decide as Hskip; [|done].
    apply getitem_is_Some in Hx as [col Hcol].
    by rewrite Hcol, (Hout _ _ Hcol Hskip).
Qed.

Lemma numericalize_categories_again_witness :
  ∃ out mapper,
    numericalize_categories docs_categorical 2 (Name "col1")
      = Some (out, mapper) ∧
    NoDup (columns out) ∧
    (∀ c col, (c, col) ∈ out → c ∉ as_list (Name "col1") →
              is_categorical_dtype col = false) ∧
    ∀ max_categories',
      numericalize_categories out max_categories' (Name "col1")
      = Some (out, ∅).
Proof.
  eexists _, _. split; [vm_compute; reflexivity|].
  eapply (numericalize_categories_again docs_categorical 2 (Name "col1"));
    [solve_wf_table | vm_compute; reflexivity].
Defined.

(** X8: when every categorical column that is not skipped has more than
    [max_categories] categories, the output has the labels of the input, in
    the same order: no column is added, removed or moved. *)
Theorem numericalize_codes_keep_labels df max_categories skip_features
    out mapper :
  (∀ c col, getitem c df = Some col → is_categorical_dtype col = true →
            c ∉ as_list skip_features →
            (max_categories < Z.of_nat (length (cat_categories col)))%Z) →
  numericalize_categories df max_categories skip_features = Some (out, mapper) →
  columns out = columns df.
Proof.
  intros Hmax. unfold numericalize_categories. cbv zeta.
  generalize (columns df) at 1. intros xs.
  apply (for_each_preserve _
    (λ s, columns s.1 = columns df ∧
          ∀ c col, getitem c s.1 = Some col → is_categorical_dtype col = true →
                   getitem c df = Some col)); [|done].
  intros x [dfa ma] [dfb mb] _ [Hcols Hcat]. simpl in Hcols, Hcat.
  rewrite numericalize_step_eq. case_bool_decide; [|by intros [= <- <-]].
  destruct (getitem x dfa) as [colx|] eqn:Hx; [|done].
  destruct (is_categorical_dtype colx) eqn:Hcatx; [|by intros [= <- <-]].
  rewrite decide_True by eauto. intros [= <- <-]. cbn [fst snd]. split.
  - rewrite columns_setitem_in; [done|]. by eapply getitem_elem.
  - intros c col. destruct (decide (x = c)) as [->|Hne].
    + rewrite getitem_setitem_eq. by intros [= <-].
    + rewrite getitem_setitem_ne by done. apply Hcat.
Qed.

Lemma numericalize_codes_keep_labels_witness :
  ∃ out mapper,
    numericalize_categories docs_categorical 0 Unset = Some (out, mapper) ∧
    columns out = columns docs_categorical.
Proof.
  eexists _, _. split; [vm_compute; reflexivity|].
  eapply (numericalize_codes_keep_labels docs_categorical 0 Unset);
    [|vm_compute; reflexivity].
  intros c col Hc Hcat _. apply getitem_Some_elem in Hc. revert Hcat.
  repeat (apply elem_of_cons in Hc as [[= -> ->]|Hc];
          [simpl; intros; first [discriminate|lia]|]).
  by apply elem_of_nil in Hc.
Defined.

(** X9: the expansion of a column fails on a label clash: when a
    categorical column [c] with at most [max_categories] categories, not
    skipped, has a category [k], and the frame holds a column labelled
    [{c}_{k}] that is skipped or holds no categories, the join of the
    indicator columns raises and [numericalize_categories] returns nothing. *)
Theorem numericalize_one_hot_clash_raises df max_categories skip_features
    c col k col' :
  NoDup (columns df) →
  getitem c df = Some col → is_categorical_dtype col = true →
  c ∉ as_list skip_features →
  (Z.of_nat (length (cat_categories col)) ≤ max_categories)%Z →
  k ∈ cat_categories col →
  getitem (c +:+ "_" +:+ k) df = Some col' →
  c +:+ "_" +:+ k ∈ as_list skip_features ∨ is_categorical_dtype col' = false →
  numericalize_categories df max_categories skip_features = None.
Proof.
  intros Hnd Hc Hcat Hskip Hmax Hk Hck Hkept.
  destruct (numericalize_categories _ _ _) as [[out mapper]|] eqn:Hrun; [|done].
  exfalso. unfold numericalize_categories in Hrun. cbv zeta in Hrun.
  apply for_each_split with (c := c) in Hrun
    as (pre & post & [df1 m1] & [df2 m2] & Hcols & Hpre & Hpost
        & H1 & H2 & _); [|done|by eapply getitem_elem].
  assert (getitem c df1 = Some col ∧
          getitem (c +:+ "_" +:+ k) df1 = Some col') as [Hc1 Hck1].
  { revert H1.
    apply (for_each_preserve _
      (λ s, getitem c s.1 = Some col ∧
            getitem (c +:+ "_" +:+ k) s.1 = Some col')); [|done].
    intros x [dfa ma] [dfb mb] Hx [Ha Hb] Hstep. simpl in *. split.
    - eapply numericalize_step_getitem; [|done..]. by intros ->.
    - by destruct (numericalize_step_kept _ _ _ _ _ _ _ _ _ Hb Hkept Hstep). }
  eapply numericalize_one_hot_step in H2 as (dfd & Hdrop & Hjoin & _);
    [|done..].
  apply join_Some in Hjoin as [_ Hfresh].
  rewrite Forall_forall in Hfresh.
  apply (Hfresh (c +:+ "_" +:+ k)).
  - rewrite columns_get_dummies. apply list_elem_of_fmap. eauto.
  - eapply getitem_elem. rewrite (getitem_drop _ _ _ _ Hdrop).
    rewrite decide_False; [done|].
    intros Heq%list_elem_of_singleton.
    by apply (string_app_neq c ("_" +:+ k)).
Qed.

Lemma numericalize_one_hot_clash_raises_witness :
  numericalize_categories clash_categorical 1 Unset = None.
Proof.
  apply (numericalize_one_hot_clash_raises clash_categorical 1 Unset
           "c" (Categorical false ["a"] [0]%Z) "a" (Int [7]%Z));
    [by_computation | reflexivity | reflexivity | apply not_elem_of_nil
    | simpl; lia | by left | reflexivity | by right].
Defined.

(** ** Conversion followed by numericalization *)

Lemma length_categories (vs : list (option string)) :
  length (merge_sort String.le (remove_dups (omap id vs))) ≤ length vs.
Proof.
  rewrite merge_sort_Permutation.
  assert (length (omap id vs) ≤ length vs) as Hvs.
  { induction vs as [|[v|] vs IH]; [done|apply le_n_S, IH|apply le_S, IH]. }
  revert Hvs. generalize (omap id vs). intros l.
  assert (length (remove_dups l) ≤ length l); [|lia].
  induction l as [|x l IH]; simpl; [done|].
  destruct (decide_rel _ x l); simpl; lia.
Qed.

(** The decoding of an output code: the entry the dictionary holds for the
    code minus one. *)
Lemma decode_codes cats (vs : list (option string)) :
  (∀ s, Some s ∈ vs → s ∈ cats) →
  (λ y, enumerate cats !! (y - 1)%Z) <$> (Z.succ <$> (code_of cats <$> vs)) = vs.
Proof.
  intros Hvs. rewrite <- (cat_values_code_of cats vs false Hvs) at 2.
  unfold cat_values. simpl. rewrite <- list_fmap_compose.
  apply list_fmap_ext. intros i k _. simpl.
  rewrite lookup_enumerate. by replace (Z.succ k - 1)%Z with k by lia.
Qed.

(** The conversion keeps the row count. *)
Lemma convert_to_categorical_rows n df
    ordinal_categorical_features drop_features skip_features out :
  has_rows n df →
  convert_to_categorical df
    ordinal_categorical_features drop_features skip_features = Some out →
  has_rows n out.
Proof.
  intros Hrows. unfold convert_to_categorical. cbv zeta.
  destruct (drop _ df) as [df1|] eqn:Hdrop; simpl; [|done].
  apply (for_each_preserve _ (has_rows n)); [|by eapply has_rows_drop].
  intros x dfa dfb _ Ha Hstep. by eapply categorical_step_rows.
Qed.

(** X10: conversion followed by numericalization can be undone with the
    mapper.  On a frame whose labels, and whose index labels, are distinct,
    a text column that neither call skips, with more than [max_categories]
    distinct values, ends as a column of integers; looking up each of them,
    minus one, in the dictionary the mapper holds for the column gives back
    the text column, row by row, a missing entry for the code 0. *)
Theorem text_codes_round_trip index df
    ordinal_categorical_features drop_features skip_features
    max_categories skip_features' converted out mapper c vs :
  NoDup (columns df) → NoDup index → has_rows (length index) df →
  getitem c df = Some (Text vs) →
  c ∉ as_list drop_features → c ∉ as_list skip_features →
  c ∉ as_list skip_features' →
  (Z.of_nat (length vs) < 2 ^ 63)%Z →
  (max_categories < Z.of_nat (length (remove_dups (omap id vs))))%Z →
  convert_to_categorical df
    ordinal_categorical_features drop_features skip_features = Some converted →
  Indexed.numericalize_categories (index, converted)
    max_categories skip_features' = Some (out, mapper) →
  ∃ ys dict,
    out.1 = index ∧
    getitem c out.2 = Some (Int ys) ∧
    mapper !! c = Some (Coded dict) ∧
    (λ y, dict !! (y - 1)%Z) <$> ys = vs.
Proof.
  intros Hnd Hindex Hrows Hc Hdrop Hskip Hskip' Hlen Hmax Hconv.
  rewrite numericalize_categories_unique;
    [|done|by eapply convert_to_categorical_rows].
  destruct (numericalize_categories converted _ _) as [[out0 m0]|] eqn:Hnum;
    [|done].
  intros [= <- <-]. cbn [fst snd].
  destruct (convert_to_categorical_text _ _ _ _ _ _ _ Hnd Hc Hdrop Hskip Hconv)
    as [Hnd' Hcol].
  destruct (astype_category_Text vs) as (cats & codes & Heq & Hcats & Hin & _).
  simpl in Heq. injection Heq as Hcats_eq Hcodes_eq.
  rewrite Hcats_eq in Hcol.
  assert (length cats ≤ length vs) as Hle.
  { rewrite <- Hcats_eq. apply length_categories. }
  eapply numericalize_codes_run in Hnum as [Hout Hm];
    [|done|exact Hcol|done|done|].
  2:{ simpl. rewrite <- Hcats_eq, merge_sort_Permutation. done. }
  rewrite codes_plus_one_wf in Hout.
  2:{ split_and!; [done|lia|].
      eapply Forall_impl; [apply code_of_bounds|]. simpl. lia. }
  eexists _, _. split_and!; [done|exact Hout|exact Hm|]. simpl.
  apply decode_codes. intros s. apply Hin.
Qed.

Lemma text_codes_round_trip_witness :
  ∃ converted out mapper,
    convert_to_categorical docs_text Unset Unset (Name "col2") = Some converted ∧
    Indexed.numericalize_categories ([0; 1; 2]%Z, converted) 0 Unset
    = Some (out, mapper) ∧
    ∃ ys dict,
      out.1 = [0; 1; 2]%Z ∧
      getitem "col3" out.2 = Some (Int ys) ∧
      mapper !! "col3" = Some (Coded dict) ∧
      (λ y, dict !! (y - 1)%Z) <$> ys
      = [Some "Low"; Some "Medium"; Some "High"].
Proof.
  eexists _, _, _. split; [reflexivity|].
  split; [vm_compute; reflexivity|].
  eapply (text_codes_round_trip [0; 1; 2]%Z docs_text
            Unset Unset (Name "col2") 0 Unset);
    [by_computation | by_computation | by repeat constructor | reflexivity
    | apply not_elem_of_nil | by_computation | apply not_elem_of_nil
    | by vm_compute | by vm_compute | reflexivity | vm_compute; reflexivity].
Defined.

(** ** Interpolation: untouched columns, labels, edge cases *)

(** The columns the function leaves for a numeric column that is not
    skipped and whose label is no indicator label. *)
Lemma interpolate_run df skip_features out mapper c col :
  NoDup (columns df) →
  getitem c df = Some col → is_numeric_dtype col = true →
  c ∉ as_list skip_features →
  (∀ c', c' ∈ columns df → c ≠ c' +:+ "_missing") →
  interpolate_missing_values df skip_features = Some (out, mapper) →
  getitem (c +:+ "_missing") out = Some (isnull col) ∧
  getitem c out = Some (fillna (median col) col) ∧
  mapper !! c = Some (median (fillna (median col) col)).
Proof.
  intros Hnd Hc Hnum Hskip Hname Hrun.
  unfold interpolate_missing_values in Hrun.
  apply for_each_split with (c := c) in Hrun
      as (pre & post & [df1 m1] & [df2 m2] & Hcols & Hpre & Hpost & H1 & H2 & H3);
    [|done|by eapply getitem_elem].
  assert (∀ x, x ∈ pre ∨ x ∈ post → x ≠ c ∧ c ≠ x +:+ "_missing") as Hother.
  { intros x Hx. split; [intros ->; tauto|].
    apply Hname. rewrite Hcols, elem_of_app, elem_of_cons. tauto. }
  assert (getitem c df1 = Some col) as Hc1.
  { revert H1. apply (for_each_preserve _ (λ s, getitem c s.1 = Some col)); [|done].
    intros x [dfa ma] [dfb mb] Hx Ha Hstep. simpl in *.
    destruct (Hother x) as [? ?]; [by left|].
    by erewrite interpolate_step_getitem. }
  rewrite interpolate_step_eq, bool_decide_eq_true_2, Hc1, Hnum in H2 by done.
  injection H2 as <- <-. revert H3.
  apply (for_each_preserve _
    (λ s, getitem (c +:+ "_missing") s.1 = Some (isnull col) ∧
          getitem c s.1 = Some (fillna (median col) col) ∧
          s.2 !! c = Some (median (fillna (median col) col)))).
  - intros x [dfa ma] [dfb mb] Hx (Ha1 & Ha2 & Ha3) Hstep. simpl in *.
    destruct (Hother x) as [? ?]; [by right|]. split_and!.
    + eapply interpolate_step_boolean; [|done..].
      by intros ?%string_app_inj_r.
    + by erewrite interpolate_step_getitem.
    + by erewrite interpolate_step_mapper.
  - simpl. split_and!.
    + rewrite getitem_setitem_ne, getitem_setitem_eq; [done|].
      by apply string_app_neq.
    + by rewrite getitem_setitem_eq.
    + by rewrite lookup_insert_eq.
Qed.

(** X11: a column that is skipped, or is not numeric, and whose label is
    not the indicator label [{c'}_missing] of a column of the frame, passes
    through [interpolate_missing_values] unchanged, and the numeric mapper
    has no entry for it. *)
Theorem interpolate_keeps_other_columns df skip_features out mapper c col :
  getitem c df = Some col →
  c ∈ as_list skip_features ∨ is_numeric_dtype col = false →
  (∀ c', c' ∈ columns df → c ≠ c' +:+ "_missing") →
  interpolate_missing_values df skip_features = Some (out, mapper) →
  getitem c out = Some col ∧ mapper !! c = None.
Proof.
  intros Hc Hkept Hname. unfold interpolate_missing_values. cbv zeta.
  apply (for_each_preserve _ (λ s, getitem c s.1 = Some col ∧ s.2 !! c = None));
    [|split; [done|apply lookup_empty]].
  intros x [dfa ma] [dfb mb] Hx [Ha Hm] Hstep. cbn [fst snd] in *.
  destruct (decide (x = c)) as [->|Hne].
  - rewrite interpolate_step_eq, Ha in Hstep.
    destruct Hkept as [Hskip|Hnum].
    + rewrite bool_decide_eq_false_2 in Hstep by tauto.
      by injection Hstep as <- <-.
    + rewrite Hnum in Hstep. by case_bool_decide; injection Hstep as <- <-.
  - split.
    + erewrite interpolate_step_getitem; [done..| |done]; auto.
    + by erewrite interpolate_step_mapper.
Qed.

Lemma interpolate_keeps_other_columns_witness :
  ∃ out mapper,
    interpolate_missing_values docs_numeric Unset = Some (out, mapper) ∧
    getitem "col2" out = Some (Text [Some "a"; Some "b"; Some "a"]) ∧
    mapper !! "col2" = None.
Proof.
  eexists _, _. split; [vm_compute; reflexivity|].
  eapply (interpolate_keeps_other_columns docs_numeric Unset);
    [reflexivity | by right | no_indicator_label | vm_compute; reflexivity].
Defined.

Lemma fillna_complete value col :
  None ∉ numeric_values col → is_numeric_dtype col = true →
  fillna value col = col.
Proof.
  destruct col as [| | vs | | |]; try done. simpl. intros Hvs _. f_equal.
  induction vs as [|[v|] vs IH]; simpl; [done| |].
  - f_equal. apply IH. intros ?. apply Hvs. by right.
  - destruct Hvs. by left.
Qed.

Lemma isnull_complete col :
  None ∉ numeric_values col → is_numeric_dtype col = true →
  isnull col = Boolean (replicate (col_length col) false).
Proof.
  intros Hvs Hnum. rewrite isnull_numeric by done. f_equal.
  assert (length (numeric_values col) = col_length col) as <-.
  { destruct col; try done; simpl; by rewrite length_fmap. }
  revert Hvs. generalize (numeric_values col). intros vs Hvs.
  induction vs as [|[v|] vs IH]; simpl; [done| |].
  - f_equal. apply IH. intros ?. apply Hvs. by right.
  - destruct Hvs. by left.
Qed.

(** X12: a numeric column without a missing entry (every integer and
    boolean column is one) is in the output as it was, with an indicator
    column that is false at every row. *)
Theorem interpolate_complete_column df skip_features out mapper c col :
  NoDup (columns df) →
  getitem c df = Some col → is_numeric_dtype col = true →
  c ∉ as_list skip_features →
  (∀ c', c' ∈ columns df → c ≠ c' +:+ "_missing") →
  None ∉ numeric_values col →
  interpolate_missing_values df skip_features = Some (out, mapper) →
  getitem c out = Some col ∧
  getitem (c +:+ "_missing") out
    = Some (Boolean (replicate (col_length col) false)).
Proof.
  intros Hnd Hc Hnum Hskip Hname Hvs Hrun.
  destruct (interpolate_run _ _ _ _ _ _ Hnd Hc Hnum Hskip Hname Hrun)
    as (Hflags & Hfilled & _).
  by rewrite Hfilled, Hflags, fillna_complete, isnull_complete.
Qed.

Lemma interpolate_complete_column_witness :
  ∃ out mapper,
    interpolate_missing_values docs_text Unset = Some (out, mapper) ∧
    getitem "col1" out = Some (Int [1; 2; 3]%Z) ∧
    getitem ("col1" +:+ "_missing") out
      = Some (Boolean (replicate (col_length (Int [1; 2; 3]%Z)) false)).
Proof.
  eexists _, _. split; [vm_compute; reflexivity|].
  eapply (interpolate_complete_column docs_text Unset);
    [by_computation | reflexivity | reflexivity | apply not_elem_of_nil
    | no_indicator_label | | vm_compute; reflexivity].
  simpl. intros Hin.
  repeat (apply elem_of_cons in Hin as [Hin|Hin]; [discriminate|]).
  by apply elem_of_nil in Hin.
Defined.






(** The labels after the loop over the columns [rest] that are still as
    the state holds them: the labels of the state, then one indicator
    label for every numeric column of [rest] that is not skipped. *)
Lemma interpolate_loop_labels skip (rest : table) :
  ∀ (s : table) (m : gmap string (option Qc)) out mapper,
  NoDup (columns rest) →
  (∀ nc, nc ∈ rest → getitem nc.1 s = Some nc.2) →
  (∀ nc, nc ∈ rest → nc.1 +:+ "_missing" ∉ columns s) →
  (∀ nc nc', nc ∈ rest → nc' ∈ rest → nc.1 ≠ nc'.1 +:+ "_missing") →
  for_each (interpolate_step skip) (columns rest) (s, m) = Some (out, mapper) →
  columns out =
    columns s ++
    omap (λ nc, if bool_decide (nc.1 ∉ skip) && is_numeric_dtype nc.2
                then Some (nc.1 +:+ "_missing") else None) rest.
Proof.
  induction rest as [|[x col] rest IH]; intros s m out mapper Hnd Hget Hnew Hne.
  - simpl. intros [= <- <-]. by rewrite app_nil_r.
  - change (columns ((x, col) :: rest)) with (x :: columns rest) in *.
    apply NoDup_cons in Hnd as [Hx Hnd]. cbn [for_each].
    pose proof (Hget (x, col) ltac:(by left)) as Hxs. cbn [fst snd] in Hxs.
    rewrite interpolate_step_eq, Hxs.
    assert (∀ nc, nc ∈ rest → nc.1 ≠ x) as Hrest.
    { intros nc Hnc Heq. apply Hx, list_elem_of_fmap. by exists nc. }
    cbn [omap list_omap fst snd].
    destruct (bool_decide (x ∉ skip) && is_numeric_dtype col) eqn:Hproc.
    + apply andb_true_iff in Hproc as [-> ->]. cbn [mbind option_bind].
      intros Hrun. apply IH in Hrun; [| done | | |].
      * rewrite Hrun, columns_setitem_in, columns_setitem_notin.
        -- by rewrite <- app_assoc.
        -- apply (Hnew (x, col)). by left.
        -- apply elem_of_columns_setitem. right.
           eapply getitem_elem, (Hget (x, col)). by left.
      * intros nc Hnc. rewrite !getitem_setitem_ne.
        -- apply Hget. by right.
        -- intros Heq. eapply (Hne nc (x, col)); [by right|by left|done].
        -- intros Heq. by eapply Hrest.
      * intros nc Hnc. rewrite columns_setitem_in, columns_setitem_notin.
        -- rewrite not_elem_of_app, list_elem_of_singleton. split.
           ++ apply Hnew. by right.
           ++ intros Heq%string_app_inj_r. by eapply Hrest.
        -- apply (Hnew (x, col)). by left.
        -- apply elem_of_columns_setitem. right.
           eapply getitem_elem, (Hget (x, col)). by left.
      * intros nc nc' ? ?. apply Hne; by right.
    + assert ((if bool_decide (x ∉ skip)
               then if is_numeric_dtype col
                    then Some (setitem x (fillna (median col) col)
                                 (setitem (x +:+ "_missing") (isnull col) s),
                               <[x := median (fillna (median col) col)]> m)
                    else Some (s, m)
               else Some (s, m)) = Some (s, m)) as ->.
      { destruct (bool_decide (x ∉ skip)), (is_numeric_dtype col); done. }
      cbn [mbind option_bind]. intros Hrun. apply IH in Hrun; [done..| | |].
      * intros nc Hnc. apply Hget. by right.
      * intros nc Hnc. apply Hnew. by right.
      * intros nc nc' ? ?. apply Hne; by right.
Qed.

(** X15: when no label of the frame is the indicator label [{c}_missing]
    of a column of the frame, the output holds the columns of the input
    under their labels, in their order, followed by one indicator column
    [{c}_missing] for every numeric column [c] that is not skipped, in the
    order of these columns; a column that is skipped or not numeric gets no
    indicator. *)
Theorem interpolate_labels df skip_features out mapper :
  NoDup (columns df) →
  (∀ c c', c ∈ columns df → c' ∈ columns df → c ≠ c' +:+ "_missing") →
  interpolate_missing_values df skip_features = Some (out, mapper) →
  columns out =
    columns df ++
    omap (λ nc, if bool_decide (nc.1 ∉ as_list skip_features)
                   && is_numeric_dtype nc.2
                then Some (nc.1 +:+ "_missing") else None) df.
Proof.
  intros Hnd Hne Hrun. unfold interpolate_missing_values in Hrun.
  apply interpolate_loop_labels in Hrun; [done..| | |].
  - intros [x col] Hin. by apply getitem_NoDup.
  - intros [x col] Hin Hx. simpl in Hx.
    eapply (Hne _ x); [exact Hx| |done].
    apply list_elem_of_fmap. by exists (x, col).
  - intros [x col] [x' col'] Hin Hin'. simpl.
    apply Hne; apply list_elem_of_fmap; [by exists (x, col)|by exists (x', col')].
Qed.

Lemma interpolate_labels_witness :
  ∃ out mapper,
    interpolate_missing_values docs_numeric (Name "col3") = Some (out, mapper) ∧
    columns out =
      columns docs_numeric ++
      omap (λ nc, if bool_decide (nc.1 ∉ as_list (Name "col3"))
                     && is_numeric_dtype nc.2
                  then Some (nc.1 +:+ "_missing") else None) docs_numeric.
Proof.
  eexists _, _. split; [vm_compute; reflexivity|].
  eapply (interpolate_labels docs_numeric (Name "col3"));
    [by_computation | | vm_compute; reflexivity].
  assert (Forall (λ c, Forall (λ c', c ≠ c' +:+ "_missing")
                         (columns docs_numeric)) (columns docs_numeric)) as H
    by by_computation.
  intros c c' Hc Hc'. rewrite Forall_forall in H.
  specialize (H c Hc). rewrite Forall_forall in H. by apply H.
Defined.

(** ** Date features: errors and values *)

Lemma string_app_inj_l (s t u : string) : s +:+ t = s +:+ u → t = u.
Proof.
  induction s as [|a s IH]; [done|].
  rewrite !string_app_cons. intros [= ?]. auto.
Qed.

Lemma NoDup_attrs_of time : NoDup (attrs_of time).
Proof. destruct time; by apply (bool_decide_unpack _); vm_compute. Qed.

Section date_features_more.
Context (parse_datetime : string → option Z).
Context (dt_field : string → Z → Z) (dt_flag : string → Z → bool).
Implicit Types (df : table) (attrs fs : list string).

Lemma as_datetime64_Datetime col dcol :
  as_datetime64 parse_datetime col = Some dcol → ∃ ts, dcol = Datetime ts.
Proof.
  unfold as_datetime64. destruct col as [vs| | | | |ts]; try done.
  - simpl. destruct (mapM _ vs) as [ts|]; [|done]. intros [= <-]. eauto.
  - intros [= <-]. eauto.
Qed.

(** The attribute loop on a timestamp column: it returns, every derived
    column holds its attribute of the column, the other columns are as
    they were. *)
Lemma attr_loop_values feature name ts attrs df :
  getitem feature df = Some (Datetime ts) →
  (∀ attr, attr ∈ attrs → name +:+ "_" +:+ attr ≠ feature) →
  NoDup attrs →
  ∃ df', for_each (attr_step dt_field dt_flag feature name) attrs df = Some df' ∧
    (∀ attr, attr ∈ attrs →
       getitem (name +:+ "_" +:+ attr) df'
       = dt_accessor dt_field dt_flag attr (Datetime ts)) ∧
    (∀ c, (∀ attr, attr ∈ attrs → c ≠ name +:+ "_" +:+ attr) →
          getitem c df' = getitem c df).
Proof.
  revert df. induction attrs as [|a attrs IH]; intros df Hf Hfresh Hnd.
  - exists df. split; [done|]. split; [|done].
    intros attr Hin. by apply elem_of_nil in Hin.
  - apply NoDup_cons in Hnd as [Ha Hnd]. cbn [for_each].
    destruct (dt_accessor dt_field dt_flag a (Datetime ts)) as [value|] eqn:Hv;
      [|done].
    assert (attr_step dt_field dt_flag feature name df a
            = Some (setitem (name +:+ "_" +:+ a) value df)) as ->.
    { unfold attr_step. rewrite Hf. cbn [mbind option_bind].
      by rewrite Hv. }
    cbn [mbind option_bind].
    destruct (IH (setitem (name +:+ "_" +:+ a) value df))
      as (df' & Hrun & Hvals & Hrest).
    { rewrite getitem_setitem_ne; [done|]. apply Hfresh. by left. }
    { intros attr ?. apply Hfresh. by right. }
    { done. }
    exists df'. split; [done|]. split.
    + intros attr [->|Hin]%elem_of_cons; [|by apply Hvals].
      rewrite Hrest, getitem_setitem_eq; [done|].
      intros attr Hin Heq%string_app_inj_l%string_app_inj_l. congruence.
    + intros c Hc. rewrite Hrest, getitem_setitem_ne; [done| |].
      * intros Heq. by apply (Hc a); [left|].
      * intros attr ?. apply Hc. by right.
Qed.

(** The iteration of a date column that is, or can be coerced to, a
    timestamp column. *)
Lemma date_step_values attrs drop_column df f col dcol :
  NoDup attrs →
  getitem f df = Some col → as_datetime64 parse_datetime col = Some dcol →
  ∃ df',
    date_step parse_datetime dt_field dt_flag attrs drop_column df f = Some df' ∧
    (∀ attr, attr ∈ attrs →
       getitem (re_sub_date f +:+ "_" +:+ attr) df'
       = dt_accessor dt_field dt_flag attr dcol) ∧
    getitem f df' = (if drop_column then None else Some dcol) ∧
    (∀ c, c ≠ f → (∀ attr, attr ∈ attrs → c ≠ re_sub_date f +:+ "_" +:+ attr) →
          getitem c df' = getitem c df).
Proof.
  intros Hnd Hf Hdt.
  destruct (as_datetime64_Datetime _ _ Hdt) as [ts ->].
  set (df1 := if is_datetime64_dtype col then df else setitem f (Datetime ts) df).
  assert (getitem f df1 = Some (Datetime ts)) as Hf1.
  { unfold df1, as_datetime64 in *. destruct (is_datetime64_dtype col).
    - by injection Hdt as ->.
    - by rewrite getitem_setitem_eq. }
  assert (∀ c, c ≠ f → getitem c df1 = getitem c df) as Hdf1.
  { intros c Hc. unfold df1. destruct (is_datetime64_dtype col); [done|].
    by rewrite getitem_setitem_ne. }
  destruct (attr_loop_values f (re_sub_date f) ts attrs df1 Hf1)
    as (df2 & Hloop & Hvals & Hrest); [|done|].
  { intros attr _. apply derived_label_fresh. }
  assert (getitem f df2 = Some (Datetime ts)) as Hf2.
  { rewrite Hrest; [done|]. intros attr _ Heq.
    by apply (derived_label_fresh f attr). }
  destruct (drop_is_Some [f] df2) as [df3 Hdrop].
  { apply Forall_singleton. by eapply getitem_elem. }
  exists (if drop_column then df3 else df2). split.
  - unfold date_step. rewrite Hf. cbn [mbind option_bind].
    unfold as_datetime64 in Hdt. unfold df1 in Hloop.
    destruct (is_datetime64_dtype col);
      [|rewrite Hdt]; cbn [mbind option_bind];
      rewrite Hloop; cbn [mbind option_bind]; by destruct drop_column.
  - destruct drop_column.
    + split_and!.
      * intros attr Hin. rewrite (getitem_drop _ _ _ _ Hdrop), decide_False.
        -- by apply Hvals.
        -- intros Heq%list_elem_of_singleton.
           by apply (derived_label_fresh f attr).
      * rewrite (getitem_drop _ _ _ _ Hdrop), decide_True; [done|by left].
      * intros c Hc Hder. rewrite (getitem_drop _ _ _ _ Hdrop), decide_False.
        -- rewrite Hrest by done. by apply Hdf1.
        -- by intros Heq%list_elem_of_singleton.
    + split_and!; [done..|].
      intros c Hc Hder. rewrite Hrest by done. by apply Hdf1.
Qed.

(** An iteration that returns has read a column that is, or was coerced
    to, a timestamp column. *)
Lemma date_step_Some attrs drop_column df df' f :
  date_step parse_datetime dt_field dt_flag attrs drop_column df f = Some df' →
  ∃ col dcol,
    getitem f df = Some col ∧ as_datetime64 parse_datetime col = Some dcol.
Proof.
  unfold date_step, as_datetime64.
  destruct (getitem f df) as [col|]; cbn [mbind option_bind]; [|done].
  intros Hstep. exists col.
  destruct (is_datetime64_dtype col); [by eexists|].
  destruct (astype_datetime64 parse_datetime col) as [dcol|];
    [by eexists|done].
Qed.

(** An iteration leaves the columns alone that are neither the date
    column nor labelled as one of its derived columns. *)
Lemma date_step_getitem attrs drop_column df df' f c :
  NoDup attrs →
  c ≠ f → (∀ attr, attr ∈ attrs → c ≠ re_sub_date f +:+ "_" +:+ attr) →
  date_step parse_datetime dt_field dt_flag attrs drop_column df f = Some df' →
  getitem c df' = getitem c df.
Proof.
  intros Hnd Hc Hder Hstep.
  destruct (date_step_Some _ _ _ _ _ Hstep) as (col & dcol & Hf & Hdt).
  destruct (date_step_values attrs drop_column df f col dcol Hnd Hf Hdt)
    as (df'' & Hstep' & _ & _ & Hrest).
  rewrite Hstep in Hstep'. injection Hstep' as <-. by apply Hrest.
Qed.

(** The whole loop over date columns that are, or can be coerced to,
    timestamp columns, and whose labels and derived labels do not clash. *)
Lemma date_loop_values attrs drop_column fs :
  NoDup attrs → ∀ df,
  NoDup fs →
  (∀ f, f ∈ fs → ∃ col, getitem f df = Some col ∧
                        is_Some (as_datetime64 parse_datetime col)) →
  (∀ f g attr, f ∈ fs → g ∈ fs → attr ∈ attrs →
               f ≠ re_sub_date g +:+ "_" +:+ attr) →
  (∀ f g a b, f ∈ fs → g ∈ fs → f ≠ g → a ∈ attrs → b ∈ attrs →
              re_sub_date f +:+ "_" +:+ a ≠ re_sub_date g +:+ "_" +:+ b) →
  ∃ out,
    for_each (date_step parse_datetime dt_field dt_flag attrs drop_column) fs df
      = Some out ∧
    (∀ f col dcol attr,
       f ∈ fs → getitem f df = Some col →
       as_datetime64 parse_datetime col = Some dcol → attr ∈ attrs →
       getitem (re_sub_date f +:+ "_" +:+ attr) out
       = dt_accessor dt_field dt_flag attr dcol) ∧
    (∀ f col dcol,
       f ∈ fs → getitem f df = Some col →
       as_datetime64 parse_datetime col = Some dcol →
       getitem f out = if drop_column then None else Some dcol) ∧
    (∀ c, c ∉ fs →
          (∀ f attr, f ∈ fs → attr ∈ attrs →
                     c ≠ re_sub_date f +:+ "_" +:+ attr) →
          getitem c out = getitem c df).
Proof.
  intros Hattrs. induction fs as [|g fs IH]; intros df Hnd Hcols Hlab Hder.
  - exists df. split; [done|]. split_and!; [| |done].
    + intros f ? ? ? Hf. by apply elem_of_nil in Hf.
    + intros f ? ? Hf. by apply elem_of_nil in Hf.
  - apply NoDup_cons in Hnd as [Hg Hnd].
    destruct (Hcols g) as (colg & Hcolg & [dcolg Hdtg]); [by left|].
    destruct (date_step_values attrs drop_column df g colg dcolg Hattrs Hcolg Hdtg)
      as (df1 & Hstep & Hvals1 & Hkept1 & Hrest1).
    assert (∀ f, f ∈ fs → getitem f df1 = getitem f df) as Hsame.
    { intros f Hf. apply Hrest1; [by intros ->|].
      intros attr Hattr. apply Hlab; [by right|by left|done]. }
    destruct (IH df1) as (out & Hrun & Hvals & Hkept & Hrest); [done| | | |].
    { intros f Hf. rewrite Hsame by done. apply Hcols. by right. }
    { intros f f' attr ? ?. apply Hlab; by right. }
    { intros f f' a b ? ?. apply Hder; by right. }
    exists out. split; [by cbn [for_each]; rewrite Hstep|].
    assert (∀ c, c ∉ fs →
              (∀ f attr, f ∈ fs → attr ∈ attrs →
                         c ≠ re_sub_date f +:+ "_" +:+ attr) →
              getitem c out = getitem c df1) as Hrest' by done.
    split_and!.
    + intros f col dcol attr [->|Hf]%elem_of_cons Hcol Hdt Hattr.
      * assert (dcol = dcolg) as -> by congruence.
        rewrite Hrest'; [by apply Hvals1| |].
        -- intros Hin. by eapply (Hlab _ g attr); [right|left| |].
        -- intros f a Hf Ha. apply Hder; [by left|by right| |done..].
           by intros ->.
      * eapply Hvals; [done| |done..]. by rewrite Hsame.
    + intros f col dcol [->|Hf]%elem_of_cons Hcol Hdt.
      * assert (dcol = dcolg) as -> by congruence.
        rewrite Hrest'; [done|done|].
        intros f a Hf Ha. apply Hlab; [by left|by right|done].
      * eapply Hkept; [done| |done]. by rewrite Hsame.
    + intros c [Hcg Hc]%not_elem_of_cons Hcder.
      rewrite Hrest'; [|done|].
      * apply Hrest1; [done|]. intros attr ?. apply Hcder; [by left|done].
      * intros f a ? ?. apply Hcder; [by right|done].
Qed.
End date_features_more.

Section date_features_errors.
Context (parse_datetime : string → option Z).
Context (dt_field : string → Z → Z) (dt_flag : string → Z → bool).
Implicit Types (df : table) (attrs fs : list string).

Lemma astype_datetime64_unparsable vs s :
  Some s ∈ vs → parse_datetime s = None →
  astype_datetime64 parse_datetime (Text vs) = None.
Proof.
  intros Hs Hparse. unfold astype_datetime64.
  rewrite (proj2 (mapM_None _ vs)); [done|].
  apply Exists_exists. exists (Some s). split; [done|]. by rewrite Hparse.
Qed.

Lemma date_loop_missing attrs drop_column f fs :
  NoDup attrs → ∀ df,
  f ∈ fs → f ∉ columns df →
  (∀ g attr, g ∈ fs → attr ∈ attrs → f ≠ re_sub_date g +:+ "_" +:+ attr) →
  for_each (date_step parse_datetime dt_field dt_flag attrs drop_column) fs df
    = None.
Proof.
  intros Hattrs. induction fs as [|g fs IH]; intros df Hf Hdf Hder.
  - by apply elem_of_nil in Hf.
  - cbn [for_each].
    destruct (date_step _ _ _ _ _ df g) as [df1|] eqn:Hstep; [|done].
    cbn [mbind option_bind].
    destruct (date_step_Some _ _ _ _ _ _ _ _ Hstep) as (col & _ & Hg & _).
    assert (g ≠ f) as Hgf.
    { intros ->. by apply getitem_elem in Hg. }
    apply IH.
    + apply elem_of_cons in Hf as [?|?]; [congruence|done].
    + apply getitem_None. erewrite date_step_getitem; [|done| | |done].
      * by apply getitem_None.
      * congruence.
      * intros attr ?. apply Hder; [by left|done].
    + intros g' attr ? ?. apply Hder; [by right|done].
Qed.

Lemma date_loop_unparsable attrs drop_column f vs s fs :
  NoDup attrs → Some s ∈ vs → parse_datetime s = None → ∀ df,
  f ∈ fs → getitem f df = Some (Text vs) →
  (∀ g attr, g ∈ fs → attr ∈ attrs → f ≠ re_sub_date g +:+ "_" +:+ attr) →
  for_each (date_step parse_datetime dt_field dt_flag attrs drop_column) fs df
    = None.
Proof.
  intros Hattrs Hs Hparse. induction fs as [|g fs IH]; intros df Hf Hdf Hder.
  - by apply elem_of_nil in Hf.
  - cbn [for_each].
    destruct (date_step _ _ _ _ _ df g) as [df1|] eqn:Hstep; [|done].
    cbn [mbind option_bind].
    destruct (date_step_Some _ _ _ _ _ _ _ _ Hstep) as (col & dcol & Hg & Hdt).
    assert (g ≠ f) as Hgf.
    { intros ->. rewrite Hdf in Hg. injection Hg as <-.
      change (as_datetime64 parse_datetime (Text vs))
        with (astype_datetime64 parse_datetime (Text vs)) in Hdt.
      by rewrite (astype_datetime64_unparsable vs s) in Hdt. }
    apply IH.
    + apply elem_of_cons in Hf as [?|?]; [congruence|done].
    + erewrite date_step_getitem; [done..| | |done].
      * congruence.
      * intros attr ?. apply Hder; [by left|done].
    + intros g' attr ? ?. apply Hder; [by right|done].
Qed.
End date_features_errors.

(** X16: a date feature that names no column of the frame, and no column
    derived from another date feature of the call, makes
    [extract_date_features] raise: nothing is returned. *)
Theorem extract_date_features_missing_column_raises
    (parse_datetime : string → option Z)
    (dt_field : string → Z → Z) (dt_flag : string → Z → bool)
    df date_features time drop_column f :
  f ∈ as_list date_features → f ∉ columns df →
  (∀ g attr, g ∈ as_list date_features → attr ∈ attrs_of time →
             f ≠ re_sub_date g +:+ "_" +:+ attr) →
  extract_date_features parse_datetime dt_field dt_flag
    df date_features time drop_column = None.
Proof.
  intros Hf Hdf Hder. unfold extract_date_features. cbv zeta.
  destruct date_features as [|g|gs]; [done|..]; cbn [mbind option_bind];
    by apply (date_loop_missing parse_datetime dt_field dt_flag _ _ f);
      [apply NoDup_attrs_of|..].
Qed.

Lemma extract_date_features_missing_column_raises_witness :
  extract_date_features example_parse example_field example_flag
    docs_dates (Names ["A"; "B"]) false true = None.
Proof.
  apply (extract_date_features_missing_column_raises
           example_parse example_field example_flag
           docs_dates (Names ["A"; "B"]) false true "B").
  - by right; left.
  - by_computation.
  - assert (Forall (λ g, Forall (λ attr, "B" ≠ re_sub_date g +:+ "_" +:+ attr)
                           (attrs_of false)) ["A"; "B"]) as H
      by by_computation.
    intros g attr Hg Hattr. rewrite Forall_forall in H.
    specialize (H g Hg). rewrite Forall_forall in H. by apply H.
Defined.

(** X17: a text date column with an entry that does not parse as a
    timestamp makes [extract_date_features] raise: the coercion fails and
    nothing is returned, whatever the other date features are. *)
Theorem extract_date_features_unparsable_raises
    (parse_datetime : string → option Z)
    (dt_field : string → Z → Z) (dt_flag : string → Z → bool)
    df date_features time drop_column f vs s :
  f ∈ as_list date_features → getitem f df = Some (Text vs) →
  Some s ∈ vs → parse_datetime s = None →
  (∀ g attr, g ∈ as_list date_features → attr ∈ attrs_of time →
             f ≠ re_sub_date g +:+ "_" +:+ attr) →
  extract_date_features parse_datetime dt_field dt_flag
    df date_features time drop_column = None.
Proof.
  intros Hf Hdf Hs Hparse Hder. unfold extract_date_features. cbv zeta.
  destruct date_features as [|g|gs]; [done|..]; cbn [mbind option_bind];
    by eapply date_loop_unparsable; [apply NoDup_attrs_of|..].
Qed.

Lemma extract_date_features_unparsable_raises_witness :
  extract_date_features example_parse example_field example_flag
    bad_dates (Name "A") false true = None.
Proof.
  apply (extract_date_features_unparsable_raises
           example_parse example_field example_flag
           bad_dates (Name "A") false true "A"
           [Some "3/11/2000"; Some "soon"] "soon").
  - by left.
  - reflexivity.
  - by right; left.
  - reflexivity.
  - assert (Forall (λ g, Forall (λ attr, "A" ≠ re_sub_date g +:+ "_" +:+ attr)
                           (attrs_of false)) ["A"]) as H
      by by_computation.
    intros g attr Hg Hattr. rewrite Forall_forall in H.
    specialize (H g Hg). rewrite Forall_forall in H. by apply H.
Defined.

(** X18: for date columns that are, or can be coerced to, timestamp
    columns, named once each, with labels and derived labels that do not
    clash, [extract_date_features] returns, and every derived column
    [{stem}_{attribute}] holds the attribute, read through the [dt]
    accessor, of the timestamps of its date column, row by row. *)
Theorem extract_date_features_values
    (parse_datetime : string → option Z)
    (dt_field : string → Z → Z) (dt_flag : string → Z → bool)
    df date_features time drop_column :
  date_features ≠ Unset → NoDup (as_list date_features) →
  (∀ f, f ∈ as_list date_features →
        ∃ col, getitem f df = Some col ∧
               is_Some (as_datetime64 parse_datetime col)) →
  (∀ f g attr, f ∈ as_list date_features → g ∈ as_list date_features →
               attr ∈ attrs_of time → f ≠ re_sub_date g +:+ "_" +:+ attr) →
  (∀ f g a b, f ∈ as_list date_features → g ∈ as_list date_features → f ≠ g →
              a ∈ attrs_of time → b ∈ attrs_of time →
              re_sub_date f +:+ "_" +:+ a ≠ re_sub_date g +:+ "_" +:+ b) →
  ∃ out,
    extract_date_features parse_datetime dt_field dt_flag
      df date_features time drop_column = Some out ∧
    ∀ f col dcol attr,
      f ∈ as_list date_features → getitem f df = Some col →
      as_datetime64 parse_datetime col = Some dcol → attr ∈ attrs_of time →
      getitem (re_sub_date f +:+ "_" +:+ attr) out
      = dt_accessor dt_field dt_flag attr dcol.
Proof.
  intros Hset Hnd Hcols Hlab Hder.
  destruct (date_loop_values parse_datetime dt_field dt_flag
              (attrs_of time) drop_column (as_list date_features)
              (NoDup_attrs_of time) df Hnd Hcols Hlab Hder)
    as (out & Hrun & Hvals & _).
  exists out. split; [|exact Hvals].
  unfold extract_date_features. cbv zeta.
  by destruct date_features.
Qed.

Lemma extract_date_features_values_witness :
  ∃ out,
    extract_date_features example_parse example_field example_flag
      docs_dates (Name "A") true true = Some out ∧
    ∀ f col dcol attr,
      f ∈ as_list (Name "A") → getitem f docs_dates = Some col →
      as_datetime64 example_parse col = Some dcol → attr ∈ attrs_of true →
      getitem (re_sub_date f +:+ "_" +:+ attr) out
      = dt_accessor example_field example_flag attr dcol.
Proof.
  apply (extract_date_features_values
           example_parse example_field example_flag
           docs_dates (Name "A") true true).
  - done.
  - by_computation.
  - intros f ->%list_elem_of_singleton. eexists. split; [reflexivity|].
    by eexists.
  - assert (Forall (λ attr, "A" ≠ re_sub_date "A" +:+ "_" +:+ attr)
              (attrs_of true)) as H by by_computation.
    intros f g attr ->%list_elem_of_singleton ->%list_elem_of_singleton Hattr.
    rewrite Forall_forall in H. by apply H.
  - by intros f g a b ->%list_elem_of_singleton ->%list_elem_of_singleton.
Defined.

(** X19: what [extract_date_features] leaves of the columns of the input:
    a processed column is absent when [drop] is set and is otherwise kept
    as a timestamp column (coerced, when it was text); a column that is
    neither processed nor labelled as a derived column is unchanged. *)
Theorem extract_date_features_other_columns
    (parse_datetime : string → option Z)
    (dt_field : string → Z → Z) (dt_flag : string → Z → bool)
    df date_features time drop_column out :
  NoDup (as_list date_features) →
  (∀ f g attr, f ∈ as_list date_features → g ∈ as_list date_features →
               attr ∈ attrs_of time → f ≠ re_sub_date g +:+ "_" +:+ attr) →
  extract_date_features parse_datetime dt_field dt_flag
    df date_features time drop_column = Some out →
  (∀ f col, f ∈ as_list date_features → getitem f df = Some col →
            if drop_column then getitem f out = None
            else ∃ ts, getitem f out = Some (Datetime ts) ∧
                       as_datetime64 parse_datetime col = Some (Datetime ts)) ∧
  (∀ c, c ∉ as_list date_features →
        (∀ f attr, f ∈ as_list date_features → attr ∈ attrs_of time →
                   c ≠ re_sub_date f +:+ "_" +:+ attr) →
        getitem c out = getitem c df).
Proof.
  intros Hnd Hlab Hrun.
  assert (for_each (date_step parse_datetime dt_field dt_flag
                      (attrs_of time) drop_column)
            (as_list date_features) df = Some out) as Hloop.
  { unfold extract_date_features in Hrun. cbv zeta in Hrun.
    by destruct date_features. }
  clear Hrun. revert df Hloop Hnd Hlab.
  induction (as_list date_features) as [|g fs IH]; intros df Hloop Hnd Hlab.
  - injection Hloop as <-. split; [|done].
    intros f col Hf. by apply elem_of_nil in Hf.
  - cbn [for_each] in Hloop.
    destruct (date_step _ _ _ _ _ df g) as [df1|] eqn:Hstep; [|done].
    cbn [mbind option_bind] in Hloop.
    apply NoDup_cons in Hnd as [Hg Hnd].
    destruct (date_step_Some _ _ _ _ _ _ _ _ Hstep) as (colg & dcolg & Hcolg & Hdtg).
    destruct (date_step_values parse_datetime dt_field dt_flag
                (attrs_of time) drop_column df g colg dcolg
                (NoDup_attrs_of time) Hcolg Hdtg)
      as (df1' & Hstep' & _ & Hkept1 & Hrest1).
    rewrite Hstep in Hstep'. injection Hstep' as <-.
    destruct (IH df1 Hloop Hnd) as [Hkept Hrest].
    { intros f f' attr ? ?. apply Hlab; by right. }
    assert (∀ f, f ∈ fs → getitem f df1 = getitem f df) as Hsame.
    { intros f Hf. apply Hrest1; [by intros ->|].
      intros attr Hattr. apply Hlab; [by right|by left|done]. }
    split.
    + intros f col [->|Hf]%elem_of_cons Hcol.
      * assert (col = colg) as -> by congruence.
        rewrite Hrest, Hkept1; [|done|].
        -- destruct drop_column; [done|].
           destruct (as_datetime64_Datetime _ _ _ Hdtg) as [ts ->]. eauto.
        -- intros f a ? ?. apply Hlab; [by left|by right|done].
      * apply Hkept; [done|]. by rewrite Hsame.
    + intros c [Hcg Hc]%not_elem_of_cons Hcder.
      rewrite Hrest; [|done|].
      * apply Hrest1; [done|]. intros attr ?. apply Hcder; [by left|done].
      * intros f a ? ?. apply Hcder; [by right|done].
Qed.

Lemma extract_date_features_other_columns_witness :
  ∃ out,
    extract_date_features example_parse example_field example_flag
      docs_dates (Name "A") false false = Some out ∧
    (∀ f col, f ∈ as_list (Name "A") → getitem f docs_dates = Some col →
              if false then getitem f out = None
              else ∃ ts, getitem f out = Some (Datetime ts) ∧
                         as_datetime64 example_parse col = Some (Datetime ts)) ∧
    (∀ c, c ∉ as_list (Name "A") →
          (∀ f attr, f ∈ as_list (Name "A") → attr ∈ attrs_of false →
                     c ≠ re_sub_date f +:+ "_" +:+ attr) →
          getitem c out = getitem c docs_dates).
Proof.
  eexists. split; [reflexivity|].
  apply (extract_date_features_other_columns
           example_parse example_field example_flag
           docs_dates (Name "A") false false).
  - by_computation.
  - assert (Forall (λ attr, "A" ≠ re_sub_date "A" +:+ "_" +:+ attr)
              (attrs_of false)) as H by by_computation.
    intros f g attr ->%list_elem_of_singleton ->%list_elem_of_singleton Hattr.
    rewrite Forall_forall in H. by apply H.
  - reflexivity.
Defined.

(** X20: two date columns with the same stem share their derived labels,
    and the later one wins: when [f] and [g] are processed in this order,
    every derived column holds the attribute of the timestamps of [g]. *)
Theorem extract_date_features_shared_stem
    (parse_datetime : string → option Z)
    (dt_field : string → Z → Z) (dt_flag : string → Z → bool)
    df time drop_column f g colf colg dcolf dcolg :
  f ≠ g → re_sub_date f = re_sub_date g →
  getitem f df = Some colf → as_datetime64 parse_datetime colf = Some dcolf →
  getitem g df = Some colg → as_datetime64 parse_datetime colg = Some dcolg →
  (∀ attr, attr ∈ attrs_of time → g ≠ re_sub_date f +:+ "_" +:+ attr) →
  ∃ out,
    extract_date_features parse_datetime dt_field dt_flag
      df (Names [f; g]) time drop_column = Some out ∧
    ∀ attr, attr ∈ attrs_of time →
      getitem (re_sub_date f +:+ "_" +:+ attr) out
      = dt_accessor dt_field dt_flag attr dcolg.
Proof.
  intros Hfg Hstem Hf Hdtf Hg Hdtg Hlab.
  destruct (date_step_values parse_datetime dt_field dt_flag
              (attrs_of time) drop_column df f colf dcolf
              (NoDup_attrs_of time) Hf Hdtf)
    as (df1 & Hstep1 & _ & _ & Hrest1).
  assert (getitem g df1 = Some colg) as Hg1.
  { rewrite Hrest1; [done|congruence|done]. }
  destruct (date_step_values parse_datetime dt_field dt_flag
              (attrs_of time) drop_column df1 g colg dcolg
              (NoDup_attrs_of time) Hg1 Hdtg)
    as (out & Hstep2 & Hvals & _).
  exists out. split.
  - unfold extract_date_features. cbv zeta. cbn [mbind option_bind as_list].
    cbn [for_each]. rewrite Hstep1. cbn [mbind option_bind].
    rewrite Hstep2. done.
  - intros attr Hattr. rewrite Hstem. by apply Hvals.
Qed.

Lemma extract_date_features_shared_stem_witness :
  ∃ out,
    extract_date_features example_parse example_field example_flag
      stem_dates (Names ["Sale"; "SaleDate"]) false true = Some out ∧
    ∀ attr, attr ∈ attrs_of false →
      getitem (re_sub_date "Sale" +:+ "_" +:+ attr) out
      = dt_accessor example_field example_flag attr (Datetime [Some 11028%Z]).
Proof.
  apply (extract_date_features_shared_stem
           example_parse example_field example_flag
           stem_dates false true "Sale" "SaleDate"
           (Datetime [Some 11027%Z]) (Datetime [Some 11028%Z])
           (Datetime [Some 11027%Z]) (Datetime [Some 11028%Z]));
    [done | reflexivity | reflexivity | reflexivity | reflexivity
    | reflexivity | ].
  assert (Forall (λ attr, "SaleDate" ≠ re_sub_date "Sale" +:+ "_" +:+ attr)
            (attrs_of false)) as H by by_computation.
  intros attr Hattr. rewrite Forall_forall in H. by apply H.
Defined.

(** ** The selectors *)

Lemma for_each_ext {S : Type} (body body' : S → string → option S) xs s :
  (∀ x s1, x ∈ xs → body s1 x = body' s1 x) →
  for_each body xs s = for_each body' xs s.
Proof.
  revert s. induction xs as [|x xs IH]; intros s Hext; [done|].
  cbn [for_each]. rewrite Hext by left.
  destruct (body' s x) as [s1|]; [|done]. cbn [mbind option_bind].
  apply IH. intros y s2 Hy. apply Hext. by right.
Qed.

(** X21: of the skip and ordinal sets only membership of the labels of
    the frame matters: two calls whose sets hold the same labels of the
    frame give the same result, whatever the order of the names, their
    repetitions, and the names in them that are no label of the frame,
    which raise no error. *)
Theorem selectors_by_membership df skip_features skip_features' :
  (∀ c, c ∈ columns df →
        c ∈ as_list skip_features ↔ c ∈ as_list skip_features') →
  (∀ ordinal_categorical_features ordinal_categorical_features' drop_features,
     (∀ c, c ∈ columns df →
           c ∈ as_list ordinal_categorical_features
           ↔ c ∈ as_list ordinal_categorical_features') →
     convert_to_categorical df
       ordinal_categorical_features drop_features skip_features
     = convert_to_categorical df
         ordinal_categorical_features' drop_features skip_features') ∧
  (∀ max_categories,
     numericalize_categories df max_categories skip_features
     = numericalize_categories df max_categories skip_features') ∧
  interpolate_missing_values df skip_features
  = interpolate_missing_values df skip_features'.
Proof.
  intros Hskip.
  assert (∀ c, c ∈ columns df →
            bool_decide (c ∉ as_list skip_features)
            = bool_decide (c ∉ as_list skip_features')) as Hb.
  { intros c Hc. apply bool_decide_ext. by rewrite (Hskip c Hc). }
  split_and!.
  - intros ordinal ordinal' drop_features Hord.
    unfold convert_to_categorical. cbv zeta.
    destruct (drop _ df) as [df'|] eqn:Hdrop; [|done].
    cbn [mbind option_bind]. apply for_each_ext. intros x s Hx.
    rewrite (columns_drop _ _ _ Hdrop) in Hx.
    apply list_elem_of_filter in Hx as [_ Hx].
    unfold categorical_step. rewrite (Hb x Hx).
    by rewrite (bool_decide_ext _ _ (Hord x Hx)).
  - intros max_categories. unfold numericalize_categories. cbv zeta.
    apply for_each_ext. intros x [s m] Hx.
    unfold numericalize_step. by rewrite (Hb x Hx).
  - unfold interpolate_missing_values. cbv zeta.
    apply for_each_ext. intros x [s m] Hx.
    unfold interpolate_step. by rewrite (Hb x Hx).
Qed.

Lemma selectors_by_membership_witness :
  (∀ ordinal_categorical_features ordinal_categorical_features' drop_features,
     (∀ c, c ∈ columns docs_text →
           c ∈ as_list ordinal_categorical_features
           ↔ c ∈ as_list ordinal_categorical_features') →
     convert_to_categorical docs_text
       ordinal_categorical_features drop_features (Name "col2")
     = convert_to_categorical docs_text
         ordinal_categorical_features' drop_features
         (Names ["year"; "col2"; "col2"])) ∧
  (∀ max_categories,
     numericalize_categories docs_text max_categories (Name "col2")
     = numericalize_categories docs_text max_categories
         (Names ["year"; "col2"; "col2"])) ∧
  interpolate_missing_values docs_text (Name "col2")
  = interpolate_missing_values docs_text (Names ["year"; "col2"; "col2"]).
Proof.
  apply (selectors_by_membership docs_text
           (Name "col2") (Names ["year"; "col2"; "col2"])).
  apply Forall_forall. by_computation.
Defined.
